(** * Replication manager of Tendis: a model of [repl_manager.cpp]

    The manager keeps, for each of the node's stores, the replication
    meta data, the slave-side slot, the two maps of subscribers and the
    binlog recycle slot.  This file embeds the operations of
    [tendisplus/replication/repl_manager.cpp] as functions over an explicit
    manager state and states the properties of the replication
    specification about them.

    Conventions.
    - Fixed-width unsigned integers and clock instants are [Z]; store
      indices are [nat]; [std::map] is [gmap]; [std::vector] is [list].
    - A call can return, abort the process ([INVARIANT], [LOG(FATAL)]) or
      have no defined behaviour (an out-of-range [operator[]], a read of an
      indeterminate value, an invalidated iterator): the type [Outcome].
    - Collaborators that live outside the file (the store, the catalog, the
      segment manager, the file system, the clock, other threads) are
      explicit arguments: each operation takes a record with the answers of
      the collaborators it consults. *)

From Stdlib Require Import ZArith Lia Ascii.
From stdpp Require Import base option list strings gmap fin_maps pretty
  sorting.

Local Open Scope Z_scope.

(** ** Outcomes *)

Inductive Outcome (A : Type) : Type :=
  | Returns (a : A)
  | Fatal
  | Undefined.
Arguments Returns {A} a.
Arguments Fatal {A}.
Arguments Undefined {A}.

#[global] Instance Outcome_ret : MRet Outcome := fun _ a => Returns a.
#[global] Instance Outcome_bind : MBind Outcome := fun _ _ k c =>
  match c with
  | Returns a => k a
  | Fatal => Fatal
  | Undefined => Undefined
  end.

(** [INVARIANT(cond)] of [utils/invariant.h]: the process aborts when the
    condition is false. *)
Definition INVARIANT (cond : bool) : Outcome unit :=
  if cond then Returns () else Fatal.

(** [v[i]] on a [std::vector]: no bounds check, out of range is undefined. *)
Definition vec_at {A} (v : list A) (i : nat) : Outcome A :=
  match v !! i with
  | Some a => Returns a
  | None => Undefined
  end.

(** [v[i] = a]. *)
Definition vec_set {A} (v : list A) (i : nat) (a : A) : Outcome (list A) :=
  match v !! i with
  | Some _ => Returns (<[i := a]> v)
  | None => Undefined
  end.

(** ** Constants *)

Definition UINT64_MAX : Z := 2 ^ 64 - 1.
Definition UINT32_MAX : Z := 2 ^ 32 - 1.

(** [SCLOCK::time_point::max()]: instants count ticks in a signed 64-bit
    integer. *)
Definition time_point_max : Z := 2 ^ 63 - 1.

Definition seconds (n : Z) : Z := n * 1000000000.
Definition milliseconds (n : Z) : Z := n * 1000000.

(** The two reserved transaction ids of [Transaction] (declared in the
    storage layer, outside this file): they are parameters of the model. *)
Class TransactionIds := {
  TXNID_UNINITED : Z;
  MIN_VALID_TXNID : Z
}.

(** ** Status codes *)

Inductive ErrorCodes : Type :=
  | ERR_OK
  | ERR_NOTFOUND
  | ERR_TIMEOUT
  | ERR_MANUAL
  | ERR_BUSY
  | ERR_INTERNAL
  | ERR_EXHAUST
  | ERR_NETWORK
  | ERR_DECODE.

#[global] Instance ErrorCodes_eq_dec : EqDecision ErrorCodes.
Proof. solve_decision. Defined.

Record Status := mkStatus { code : ErrorCodes; toString : string }.

#[global] Instance Status_eq_dec : EqDecision Status.
Proof. solve_decision. Defined.

Definition ok (s : Status) : bool := bool_decide (code s = ERR_OK).

Definition OK : Status := mkStatus ERR_OK "".

(** [Expected<T>]: a value or the status of the failure. *)
Inductive Expected (A : Type) : Type :=
  | Value (a : A)
  | Error (s : Status).
Arguments Value {A} a.
Arguments Error {A} s.

(** ** Data model *)

Inductive ReplState : Type :=
  | REPL_NONE
  | REPL_CONNECT
  | REPL_TRANSFER
  | REPL_CONNECTED.

#[global] Instance ReplState_eq_dec : EqDecision ReplState.
Proof. solve_decision. Defined.

Inductive StoreMode : Type :=
  | STORE_NONE
  | READ_WRITE
  | REPLICATE_ONLY.

#[global] Instance StoreMode_eq_dec : EqDecision StoreMode.
Proof. solve_decision. Defined.

Inductive FullPushState : Type :=
  | PUSHING
  | SUCESS
  | ERR.

#[global] Instance FullPushState_eq_dec : EqDecision FullPushState.
Proof. solve_decision. Defined.

(** [StoreMeta(id, syncFromHost, syncFromPort, syncFromId, binlogId,
    replState)], declared with the catalog.  [syncFromPort] is a 16-bit
    field; [syncFromId] holds what the source writes to it, the literal
    [-1] for a store without source. *)
Record StoreMeta := mkStoreMeta {
  meta_id : nat;
  syncFromHost : string;
  syncFromPort : Z;
  syncFromId : Z;
  binlogId : Z;
  replState : ReplState
}.

#[global] Instance StoreMeta_eq_dec : EqDecision StoreMeta.
Proof. solve_decision. Defined.

(** Slave's point of view of a store: [SPovStatus{isRunning, sessionId,
    nextSchedTime, lastSyncTime}]. *)
Record SPovStatus := mkSPovStatus {
  sp_isRunning : bool;
  sp_sessionId : Z;
  sp_nextSchedTime : Z;
  sp_lastSyncTime : Z
}.

#[global] Instance SPovStatus_eq_dec : EqDecision SPovStatus.
Proof. solve_decision. Defined.

(** Master's point of view of one incremental subscriber.  The network
    client the entry owns is represented by its presence only. *)
Record MPovStatus := mkMPovStatus {
  mp_isRunning : bool;
  mp_dstStoreId : Z;
  mp_binlogPos : Z;
  mp_nextSchedTime : Z;
  mp_client : bool;
  mp_clientId : Z;
  slave_listen_ip : string;
  slave_listen_port : Z
}.

#[global] Instance MPovStatus_eq_dec : EqDecision MPovStatus.
Proof. solve_decision. Defined.

(** Master's point of view of one full push. *)
Record MPovFullPushStatus := mkMPovFullPushStatus {
  fp_state : FullPushState;
  fp_binlogPos : Z;
  fp_startTime : Z;
  fp_endTime : Z
}.

#[global] Instance MPovFullPushStatus_eq_dec : EqDecision MPovFullPushStatus.
Proof. solve_decision. Defined.

(** [RecycleBinlogStatus{isRunning, nextSchedTime, firstBinlogId,
    lastFlushBinlogId, fileSeq, timestamp, fileCreateTime, fileSize, fs}];
    the open archive stream [fs] is a handle or nothing. *)
Record RecycleBinlogStatus := mkRecycleBinlogStatus {
  rb_isRunning : bool;
  rb_nextSchedTime : Z;
  firstBinlogId : Z;
  lastFlushBinlogId : Z;
  fileSeq : Z;
  timestamp : Z;
  fileCreateTime : Z;
  fileSize : Z;
  fs : option nat
}.

#[global] Instance RecycleBinlogStatus_eq_dec : EqDecision RecycleBinlogStatus.
Proof. solve_decision. Defined.

(** What the manager reaches through [_svr]: the number of stores, the mode
    of each store, the catalog's durable copy of the meta data and the
    sessions it was asked to cancel. *)
Record ServerEntry := mkServerEntry {
  getKVStoreCount : nat;
  storeMode : list StoreMode;
  catalog : gmap nat StoreMeta;
  cancelled : list Z
}.

Record ReplManager := mkReplManager {
  _isRunning : bool;
  _svr : ServerEntry;
  _syncMeta : list StoreMeta;
  _syncStatus : list SPovStatus;
  _pushStatus : list (gmap Z MPovStatus);
  _fullPushStatus : list (gmap string MPovFullPushStatus);
  _logRecycStatus : list RecycleBinlogStatus;
  _connectMasterTimeoutMs : Z
}.

(** Field updates. *)

Definition with_svr (sv : ServerEntry) (m : ReplManager) : ReplManager :=
  mkReplManager (_isRunning m) sv (_syncMeta m) (_syncStatus m)
    (_pushStatus m) (_fullPushStatus m) (_logRecycStatus m)
    (_connectMasterTimeoutMs m).

Definition with_syncMeta (v : list StoreMeta) (m : ReplManager) : ReplManager :=
  mkReplManager (_isRunning m) (_svr m) v (_syncStatus m)
    (_pushStatus m) (_fullPushStatus m) (_logRecycStatus m)
    (_connectMasterTimeoutMs m).

Definition with_syncStatus (v : list SPovStatus) (m : ReplManager) : ReplManager :=
  mkReplManager (_isRunning m) (_svr m) (_syncMeta m) v
    (_pushStatus m) (_fullPushStatus m) (_logRecycStatus m)
    (_connectMasterTimeoutMs m).

Definition with_pushStatus (v : list (gmap Z MPovStatus)) (m : ReplManager)
  : ReplManager :=
  mkReplManager (_isRunning m) (_svr m) (_syncMeta m) (_syncStatus m)
    v (_fullPushStatus m) (_logRecycStatus m)
    (_connectMasterTimeoutMs m).

Definition with_fullPushStatus (v : list (gmap string MPovFullPushStatus))
  (m : ReplManager) : ReplManager :=
  mkReplManager (_isRunning m) (_svr m) (_syncMeta m) (_syncStatus m)
    (_pushStatus m) v (_logRecycStatus m)
    (_connectMasterTimeoutMs m).

Definition with_logRecycStatus (v : list RecycleBinlogStatus) (m : ReplManager)
  : ReplManager :=
  mkReplManager (_isRunning m) (_svr m) (_syncMeta m) (_syncStatus m)
    (_pushStatus m) (_fullPushStatus m) v
    (_connectMasterTimeoutMs m).

Definition with_connectMasterTimeoutMs (t : Z) (m : ReplManager) : ReplManager :=
  mkReplManager (_isRunning m) (_svr m) (_syncMeta m) (_syncStatus m)
    (_pushStatus m) (_fullPushStatus m) (_logRecycStatus m) t.

Definition sp_with_nextSchedTime (t : Z) (s : SPovStatus) : SPovStatus :=
  mkSPovStatus (sp_isRunning s) (sp_sessionId s) t (sp_lastSyncTime s).

Definition sp_with_isRunning (b : bool) (s : SPovStatus) : SPovStatus :=
  mkSPovStatus b (sp_sessionId s) (sp_nextSchedTime s) (sp_lastSyncTime s).

Definition sp_with_sessionId (i : Z) (s : SPovStatus) : SPovStatus :=
  mkSPovStatus (sp_isRunning s) i (sp_nextSchedTime s) (sp_lastSyncTime s).

Definition mp_with_nextSchedTime (t : Z) (s : MPovStatus) : MPovStatus :=
  mkMPovStatus (mp_isRunning s) (mp_dstStoreId s) (mp_binlogPos s) t
    (mp_client s) (mp_clientId s) (slave_listen_ip s) (slave_listen_port s).

Definition mp_with_isRunning (b : bool) (s : MPovStatus) : MPovStatus :=
  mkMPovStatus b (mp_dstStoreId s) (mp_binlogPos s) (mp_nextSchedTime s)
    (mp_client s) (mp_clientId s) (slave_listen_ip s) (slave_listen_port s).

Definition rb_with_nextSchedTime (t : Z) (s : RecycleBinlogStatus)
  : RecycleBinlogStatus :=
  mkRecycleBinlogStatus (rb_isRunning s) t (firstBinlogId s)
    (lastFlushBinlogId s) (fileSeq s) (timestamp s) (fileCreateTime s)
    (fileSize s) (fs s).

Definition rb_with_isRunning (b : bool) (s : RecycleBinlogStatus)
  : RecycleBinlogStatus :=
  mkRecycleBinlogStatus b (rb_nextSchedTime s) (firstBinlogId s)
    (lastFlushBinlogId s) (fileSeq s) (timestamp s) (fileCreateTime s)
    (fileSize s) (fs s).

Definition rb_with_firstBinlogId (b : Z) (s : RecycleBinlogStatus)
  : RecycleBinlogStatus :=
  mkRecycleBinlogStatus (rb_isRunning s) (rb_nextSchedTime s) b
    (lastFlushBinlogId s) (fileSeq s) (timestamp s) (fileCreateTime s)
    (fileSize s) (fs s).

(** The sizes the manager's vectors have once [startup] has returned. *)
Definition sized (m : ReplManager) : Prop :=
  let n := getKVStoreCount (_svr m) in
  length (_syncMeta m) = n ∧ length (_syncStatus m) = n ∧
  length (_pushStatus m) = n ∧ length (_fullPushStatus m) = n ∧
  length (_logRecycStatus m) = n.

(** ** [ReplManager::stopStore] *)

Definition stopStore (m : ReplManager) (storeId : nat)
  : Outcome (Status * ReplManager) :=
  INVARIANT (bool_decide (storeId < getKVStoreCount (_svr m))%nat) ;;
  sp ← vec_at (_syncStatus m) storeId ;
  syncStatus' ← vec_set (_syncStatus m) storeId
    (sp_with_nextSchedTime time_point_max sp) ;
  rb ← vec_at (_logRecycStatus m) storeId ;
  logRecycStatus' ← vec_set (_logRecycStatus m) storeId
    (rb_with_nextSchedTime time_point_max rb) ;
  pushes ← vec_at (_pushStatus m) storeId ;
  pushStatus' ← vec_set (_pushStatus m) storeId
    (mp_with_nextSchedTime time_point_max <$> pushes) ;
  fullPushStatus' ← vec_set (_fullPushStatus m) storeId ∅ ;
  mret (OK,
        with_fullPushStatus fullPushStatus'
          (with_pushStatus pushStatus'
             (with_logRecycStatus logRecycStatus'
                (with_syncStatus syncStatus' m)))).

(** ** [ReplManager::recycleFullPushStatus] *)

(** The test of the loop body: the push succeeded and ended more than 600
    seconds before [now]. *)
Definition fullPushTimedOut (now : Z) (v : MPovFullPushStatus) : bool :=
  bool_decide (fp_state v = SUCESS) &&
  bool_decide (fp_endTime v + seconds 600 < now).

(** One turn of the range-based [for] over [_fullPushStatus[i]]: the body
    erases the entry the loop iterator designates when the test holds.
    [std::map::erase] invalidates the iterators to the erased entry, so the
    second component tells whether the loop iterator is still valid. *)
Definition recycleFullPushBody (now : Z) (kv : string * MPovFullPushStatus)
  (m : gmap string MPovFullPushStatus)
  : gmap string MPovFullPushStatus * bool :=
  if fullPushTimedOut now kv.2 then (delete kv.1 m, false) else (m, true).

(** The loop advances its iterator after each turn; advancing an
    invalidated iterator is undefined.  The entries are visited in the
    order of [map_to_list], which need not be the key order of [std::map]:
    the outcome does not depend on the order. *)
Fixpoint recycleFullPushLoop (now : Z)
  (todo : list (string * MPovFullPushStatus))
  (m : gmap string MPovFullPushStatus)
  : Outcome (gmap string MPovFullPushStatus) :=
  match todo with
  | [] => Returns m
  | kv :: todo' =>
      let '(m', valid) := recycleFullPushBody now kv m in
      if valid then recycleFullPushLoop now todo' m' else Undefined
  end.

Fixpoint recycleFullPushStores (now : Z)
  (v : list (gmap string MPovFullPushStatus))
  : Outcome (list (gmap string MPovFullPushStatus)) :=
  match v with
  | [] => Returns []
  | m :: v' =>
      m' ← recycleFullPushLoop now (map_to_list m) m ;
      v'' ← recycleFullPushStores now v' ;
      mret (m' :: v'')
  end.

(** [now] is the reading of [SCLOCK::now()] the function takes. *)
Definition recycleFullPushStatus (now : Z) (m : ReplManager)
  : Outcome ReplManager :=
  v ← recycleFullPushStores now (_fullPushStatus m) ;
  mret (with_fullPushStatus v m).

(** ** [ReplManager::recycleBinlog] *)

(** What [truncateBinlogV2] returns on success. *)
Record TruncateBinlogResult := mkTruncateBinlogResult {
  newStart : Z;
  written : Z;
  tb_timestamp : Z
}.

(** The collaborators of one recycle run.
    - [re_now], [re_now_defer]: the two readings of the clock;
    - [re_nextSchedInterval]: [truncateBinlogIntervalMs * randRatio] as
      stored in the [uint32_t] (the product is floating point and is not
      computed here);
    - [re_getDb]: the segment manager's answer under [LOCK_IX], which on
      success tells whether the store is running;
    - [re_createTransaction], [re_commit]: the store's transaction;
    - [re_truncateBinlogV2 start end sink]: the store's truncation;
    - [re_getCurBinlogFs], [re_updateCurBinlogFs]: the two archive-file
      methods of the manager, defined outside this file; they may change
      the manager's state. *)
Record RecycleEnv := mkRecycleEnv {
  re_now : Z;
  re_nextSchedInterval : Z;
  re_getDb : Expected bool;
  re_now_defer : Z;
  re_createTransaction : Expected unit;
  re_getCurBinlogFs : nat → ReplManager → option nat * ReplManager;
  re_truncateBinlogV2 : Z → Z → option nat → Expected TruncateBinlogResult;
  re_updateCurBinlogFs : nat → Z → Z → ReplManager → ReplManager;
  re_commit : Expected unit
}.

(** The call [kvstore->truncateBinlogV2(start, end, txn, fs)] a run makes. *)
Record TruncateCall := mkTruncateCall {
  tc_start : Z;
  tc_end : Z;
  tc_sink : option nat
}.

(** The locals the scoped guard captures by reference, as they stand when
    the function leaves, with the manager and the truncation issued.
    [x_start] is [None] as long as no assignment to [start] was executed:
    the local is declared without an initialiser. *)
Record RecycleExit := mkRecycleExit {
  x_nextSched : Z;
  x_start : option Z;
  x_hasError : bool;
  x_saveLogs : option bool;
  x_truncate : option TruncateCall;
  x_mgr : ReplManager
}.

(** [saveLogs] as the critical section computes it. *)
Definition recycleSaveLogs (meta : StoreMeta) (pushes : gmap Z MPovStatus)
  : bool :=
  let saveLogs := negb (bool_decide (syncFromHost meta = "")) in
  if bool_decide (syncFromHost meta = "") && bool_decide (size pushes = 0%nat)
  then true else saveLogs.

(** [end] as the critical section computes it: the two loops of
    [std::min] starting from [numeric_limits<uint64_t>::max()]. *)
Definition recycleEnd (fulls : gmap string MPovFullPushStatus)
  (pushes : gmap Z MPovStatus) : Z :=
  let end1 := map_fold (λ _ v e, Z.min e (fp_binlogPos v)) UINT64_MAX fulls in
  map_fold (λ _ v e, Z.min e (mp_binlogPos v)) end1 pushes.

(** The body of [recycleBinlog], up to the point where the guard runs. *)
Definition recycleBinlogBody (e : RecycleEnv) (storeId : nat)
  (m : ReplManager) : Outcome RecycleExit :=
  let nextSched := re_now e + milliseconds (re_nextSchedInterval e) in
  match re_getDb e with
  | Error _ => mret (mkRecycleExit nextSched None true None None m)
  | Value kvRunning =>
    if negb kvRunning then
      mret (mkRecycleExit (re_now_defer e + seconds 1) None false None None m)
    else
      meta ← vec_at (_syncMeta m) storeId ;
      pushes ← vec_at (_pushStatus m) storeId ;
      let saveLogs := recycleSaveLogs meta pushes in
      rb ← vec_at (_logRecycStatus m) storeId ;
      let start := firstBinlogId rb in
      fulls ← vec_at (_fullPushStatus m) storeId ;
      let end_ := recycleEnd fulls pushes in
      match re_createTransaction e with
      | Error _ =>
          mret (mkRecycleExit nextSched (Some start) true (Some saveLogs) None m)
      | Value _ =>
        let '(sink, m1) :=
          if saveLogs then re_getCurBinlogFs e storeId m else (None, m) in
        if saveLogs && negb (bool_decide (is_Some sink)) then
          mret (mkRecycleExit nextSched (Some start) true (Some saveLogs) None m1)
        else
          let call := mkTruncateCall start end_ sink in
          match re_truncateBinlogV2 e start end_ sink with
          | Error _ =>
              mret (mkRecycleExit nextSched (Some start) true (Some saveLogs)
                      (Some call) m1)
          | Value s =>
              let m2 :=
                re_updateCurBinlogFs e storeId (written s) (tb_timestamp s) m1 in
              match re_commit e with
              | Error _ =>
                  mret (mkRecycleExit nextSched (Some start) true
                          (Some saveLogs) (Some call) m2)
              | Value _ =>
                  mret (mkRecycleExit nextSched (Some (newStart s)) false
                          (Some saveLogs) (Some call) m2)
              end
          end
      end
  end.

(** The scoped guard, run on every way out.  Reading [start] while it
    holds no value is a read of an indeterminate value. *)
Definition recycleGuard `{TransactionIds} (storeId : nat) (x : RecycleExit)
  : Outcome ReplManager :=
  let m := x_mgr x in
  v ← vec_at (_logRecycStatus m) storeId ;
  INVARIANT (rb_isRunning v) ;;
  let v1 := rb_with_isRunning false v in
  let v2 := if bool_decide (rb_nextSchedTime v1 < x_nextSched x)
            then rb_with_nextSchedTime (x_nextSched x) v1 else v1 in
  first ← (if x_hasError x then Returns TXNID_UNINITED
           else match x_start x with
                | Some s => Returns s
                | None => Undefined
                end) ;
  l ← vec_set (_logRecycStatus m) storeId (rb_with_firstBinlogId first v2) ;
  mret (with_logRecycStatus l m).

Definition recycleBinlog `{TransactionIds} (e : RecycleEnv) (storeId : nat)
  (m : ReplManager) : Outcome ReplManager :=
  x ← recycleBinlogBody e storeId m ;
  recycleGuard storeId x.

(** ** [ReplManager::changeReplSource] *)

(** The collaborators of one source change.
    - [ce_getDb]: the segment manager's answer under [LOCK_X]; on success
      [isOpen] and [isEmpty(true)] of the store;
    - [ce_others timeoutMs m]: what the other threads make of the manager
      while [_cv.wait_for] has released [_mutex], for at most [timeoutMs];
    - [ce_getDbInLock]: the second look-up of the store, under [LOCK_NONE];
    - [ce_setStoreMode], [ce_cancelSession], [ce_setStoreMeta]: the
      statuses the server and the catalog answer with. *)
Record ChangeEnv := mkChangeEnv {
  ce_getDb : Expected (bool * bool);
  ce_others : Z → ReplManager → ReplManager;
  ce_getDbInLock : Expected unit;
  ce_setStoreMode : Status;
  ce_cancelSession : Status;
  ce_setStoreMeta : Status
}.

(** [_svr->setStoreMode(store, mode)]: the mode changes when the server
    answers OK. *)
Definition setStoreMode (answer : Status) (storeId : nat) (mode : StoreMode)
  (m : ReplManager) : ReplManager :=
  if ok answer then
    let sv := _svr m in
    with_svr (mkServerEntry (getKVStoreCount sv)
                (<[storeId := mode]> (storeMode sv)) (catalog sv)
                (cancelled sv)) m
  else m.

(** [_svr->cancelSession(sessionId)]. *)
Definition cancelSession (sessionId : Z) (m : ReplManager) : ReplManager :=
  let sv := _svr m in
  with_svr (mkServerEntry (getKVStoreCount sv) (storeMode sv) (catalog sv)
              (sessionId :: cancelled sv)) m.

(** [catalog->setStoreMeta(meta)] with the catalog's answer. *)
Definition setStoreMeta (answer : Status) (meta : StoreMeta) (m : ReplManager)
  : ReplManager :=
  if ok answer then
    let sv := _svr m in
    with_svr (mkServerEntry (getKVStoreCount sv) (storeMode sv)
                (<[meta_id meta := meta]> (catalog sv)) (cancelled sv)) m
  else m.

(** [ReplManager::changeReplStateInLock]: a failed catalog write is
    [LOG(FATAL)]. *)
Definition changeReplStateInLock (answer : Status) (storeMeta : StoreMeta)
  (persist : bool) (m : ReplManager) : Outcome ReplManager :=
  m1 ← (if persist then
          if ok answer then Returns (setStoreMeta answer storeMeta m)
          else Fatal
        else Returns m) ;
  l ← vec_set (_syncMeta m1) (meta_id storeMeta) storeMeta ;
  mret (with_syncMeta l m1).

(** [_cv.wait_for(lk, timeout, pred)]: returns at once when [pred] holds;
    otherwise the lock is released, the other threads run, and the result
    is [pred] on what they left. *)
Definition cv_wait_for (others : Z → ReplManager → ReplManager)
  (timeoutMs : Z) (pred : ReplManager → Outcome bool) (m : ReplManager)
  : Outcome (bool * ReplManager) :=
  b ← pred m ;
  if (b : bool) then mret (true, m)
  else
    let m' := others timeoutMs m in
    b' ← pred m' ;
    mret (b', m').

Definition slaveIdle (storeId : nat) (m : ReplManager) : Outcome bool :=
  sp ← vec_at (_syncStatus m) storeId ;
  mret (negb (sp_isRunning sp)).

(** [ReplManager::changeReplSourceInLock].  The [INVARIANT] that follows
    the wait repeats the predicate the wait has just returned and the one
    on [segMgr] is about a pointer: neither is represented. *)
Definition changeReplSourceInLock `{TransactionIds} (e : ChangeEnv)
  (storeId : nat) (ip : string) (port sourceStoreId : Z) (m : ReplManager)
  : Outcome (Status * ReplManager) :=
  let oldTimeout := _connectMasterTimeoutMs m in
  let m := if bool_decide (ip ≠ "")
           then with_connectMasterTimeoutMs 1000 m
           else with_connectMasterTimeoutMs 1 m in
  '(yielded, m) ← cv_wait_for (ce_others e) (oldTimeout + 2000)
                    (slaveIdle storeId) m ;
  if negb yielded then
    mret (mkStatus ERR_TIMEOUT "wait for yeild failed", m)
  else
  if bool_decide (length (_syncMeta m) ≤ storeId)%nat then
    mret (mkStatus ERR_INTERNAL "invalid storeId", m)
  else
  match ce_getDbInLock e with
  | Error s => mret (s, m)
  | Value _ =>
    cur ← vec_at (_syncMeta m) storeId ;
    let newMeta := cur in
    if bool_decide (ip ≠ "") then
      if bool_decide (syncFromHost cur ≠ "") then
        mret (mkStatus ERR_BUSY
                "explicit set sync source empty before change it", m)
      else
        let m := with_connectMasterTimeoutMs 1000 m in
        let s := ce_setStoreMode e in
        let m := setStoreMode s storeId REPLICATE_ONLY m in
        if negb (ok s) then mret (s, m)
        else
          let newMeta :=
            mkStoreMeta (meta_id newMeta) ip (port `mod` 2 ^ 16)
              sourceStoreId TXNID_UNINITED REPL_CONNECT in
          m ← changeReplStateInLock (ce_setStoreMeta e) newMeta true m ;
          mret (OK, m)
    else
      if bool_decide (syncFromHost newMeta = "") then mret (OK, m)
      else
        let m := with_connectMasterTimeoutMs 1 m in
        sp ← vec_at (_syncStatus m) storeId ;
        let m := cancelSession (sp_sessionId sp) m in
        l ← vec_set (_syncStatus m) storeId (sp_with_sessionId UINT64_MAX sp) ;
        let m := with_syncStatus l m in
        let s := ce_setStoreMode e in
        let m := setStoreMode s storeId READ_WRITE m in
        if negb (ok s) then mret (s, m)
        else
          INVARIANT (bool_decide (port = 0) && bool_decide (sourceStoreId = 0)) ;;
          let newMeta :=
            mkStoreMeta (meta_id newMeta) ip (port `mod` 2 ^ 16)
              sourceStoreId TXNID_UNINITED REPL_NONE in
          m ← changeReplStateInLock (ce_setStoreMeta e) newMeta true m ;
          mret (OK, m)
  end.

Definition changeReplSource `{TransactionIds} (e : ChangeEnv)
  (storeId : nat) (ip : string) (port sourceStoreId : Z) (m : ReplManager)
  : Outcome (Status * ReplManager) :=
  match ce_getDb e with
  | Error s => mret (s, m)
  | Value (isOpen, isEmpty) =>
    if negb isOpen then mret (OK, m)
    else if bool_decide (ip ≠ "") && negb isEmpty then
      mret (mkStatus ERR_MANUAL "store not empty", m)
    else
      '(s, m') ← changeReplSourceInLock e storeId ip port sourceStoreId m ;
      if negb (ok s) then mret (s, m') else mret (OK, m')
  end.

(** ** [ReplManager::controlRoutine]: one pass of the three schedulers *)

(** The jobs a pass hands to the worker pools. *)
Inductive Job : Type :=
  | FullReceive (storeId : nat)
  | IncrCheck (storeId : nat)
  | IncrPush (storeId : nat) (clientId : Z)
  | LogRecycle (storeId : nat).

(** What a scheduler has done so far: [doSth], the manager and the jobs. *)
Record Sched := mkSched {
  doSth : bool;
  sc_mgr : ReplManager;
  sc_jobs : list Job
}.

(** A [for] loop over the indices of a vector. *)
Fixpoint forIndices (body : nat → Sched → Outcome Sched) (idx : list nat)
  (s : Sched) : Outcome Sched :=
  match idx with
  | [] => Returns s
  | i :: idx' => s' ← body i s ; forIndices body idx' s'
  end.

Definition schedSlaveStep (now : Z) (i : nat) (s : Sched) : Outcome Sched :=
  let m := sc_mgr s in
  st ← vec_at (_syncStatus m) i ;
  if sp_isRunning st then mret s
  else if bool_decide (now < sp_nextSchedTime st) then mret s
  else
    meta ← vec_at (_syncMeta m) i ;
    if bool_decide (replState meta = REPL_NONE) then mret s
    else
      match replState meta with
      | REPL_CONNECT =>
          l ← vec_set (_syncStatus m) i (sp_with_isRunning true st) ;
          mret (mkSched true (with_syncStatus l m) (sc_jobs s ++ [FullReceive i]))
      | REPL_CONNECTED =>
          l ← vec_set (_syncStatus m) i (sp_with_isRunning true st) ;
          mret (mkSched true (with_syncStatus l m) (sc_jobs s ++ [IncrCheck i]))
      | REPL_TRANSFER => Fatal
      | REPL_NONE => mret (mkSched true m (sc_jobs s))
      end.

Definition schedSlaveInLock (now : Z) (m : ReplManager) : Outcome Sched :=
  forIndices (schedSlaveStep now) (seq 0 (length (_syncStatus m)))
    (mkSched false m []).

(** The subscribers of a store in the order a loop over the [std::map]
    visits them: by ascending client id. *)
Definition keyLe (a b : Z * MPovStatus) : Prop := a.1 ≤ b.1.

#[global] Instance keyLe_dec : RelDecision keyLe.
Proof. intros a b. unfold keyLe. apply _. Defined.

Definition inClientOrder (pushes : gmap Z MPovStatus)
  : list (Z * MPovStatus) :=
  merge_sort keyLe (map_to_list pushes).

(** Whether the inner loop of [schedMasterInLock] dispatches the entry. *)
Definition pushDue (now : Z) (mpov : MPovStatus) : bool :=
  negb (mp_isRunning mpov || bool_decide (now < mp_nextSchedTime mpov)).

Definition schedMasterStep (now : Z) (i : nat) (s : Sched) : Outcome Sched :=
  let m := sc_mgr s in
  pushes ← vec_at (_pushStatus m) i ;
  let due := filter (λ kv, pushDue now kv.2 = true) (inClientOrder pushes) in
  let pushes' :=
    (λ mpov, if pushDue now mpov then mp_with_isRunning true mpov else mpov)
      <$> pushes in
  l ← vec_set (_pushStatus m) i pushes' ;
  mret (mkSched (doSth s || negb (bool_decide (due = [])))
          (with_pushStatus l m)
          (sc_jobs s ++ ((λ kv, IncrPush i kv.1) <$> due))).

(** [now'] is the clock reading [recycleFullPushStatus] takes itself. *)
Definition schedMasterInLock (now now' : Z) (m : ReplManager) : Outcome Sched :=
  m ← recycleFullPushStatus now' m ;
  forIndices (schedMasterStep now) (seq 0 (length (_pushStatus m)))
    (mkSched false m []).

Definition schedRecycLogStep (now : Z) (i : nat) (s : Sched) : Outcome Sched :=
  let m := sc_mgr s in
  rb ← vec_at (_logRecycStatus m) i ;
  if rb_isRunning rb || bool_decide (now < rb_nextSchedTime rb) then mret s
  else
    l ← vec_set (_logRecycStatus m) i (rb_with_isRunning true rb) ;
    mret (mkSched true (with_logRecycStatus l m) (sc_jobs s ++ [LogRecycle i])).

Definition schedRecycLogInLock (now : Z) (m : ReplManager) : Outcome Sched :=
  forIndices (schedRecycLogStep now) (seq 0 (length (_logRecycStatus m)))
    (mkSched false m []).

(** One turn of the [while] loop, under [_mutex]. *)
Definition controlPass (now now' : Z) (m : ReplManager) : Outcome Sched :=
  s1 ← schedSlaveInLock now m ;
  s2 ← schedMasterInLock now now' (sc_mgr s1) ;
  s3 ← schedRecycLogInLock now (sc_mgr s2) ;
  mret (mkSched (doSth s3 || (doSth s2 || doSth s1)) (sc_mgr s3)
          (sc_jobs s1 ++ sc_jobs s2 ++ sc_jobs s3)).

(** ** [ReplManager::maxDumpFileSeq] *)

(** [tendisplus::stoul] of [utils/string.h], defined outside this file:
    its result is a [uint64_t]. *)
Class StringUtils := {
  stoul : string → Expected Z;
  stoul_range : ∀ s v, stoul s = Value v → 0 ≤ v ≤ UINT64_MAX
}.

(** One entry the recursive directory iterator yields. *)
Record DirEntry := mkDirEntry {
  path : string;
  is_regular_file : bool
}.

(** The file system as one scan sees it: whether creating the two
    directories threw (with [ex.what()]), the entries the iterator yields
    and whether it throws after them. *)
Record DumpDir := mkDumpDir {
  dd_create_throws : option string;
  dd_entries : list DirEntry;
  dd_iter_throws : bool
}.

Fixpoint string_drop (n : nat) (s : string) : string :=
  match n, s with
  | O, _ => s
  | S n', String _ s' => string_drop n' s'
  | S _, EmptyString => EmptyString
  end.

(** [s.substr(pos, len)] for [pos <= s.size()], [len] a [size_t]. *)
Definition substr (s : string) (pos : nat) (len : Z) : string :=
  String.substring pos (Z.to_nat (Z.min len (Z.of_nat (String.length s) - Z.of_nat pos))) s.

(** The inner [for] loop over the characters of [relative], from index [i]
    with the counters [first], [start], [end]; it leaves at the third
    dash.  The result is [(start, end)]. *)
Fixpoint scanDashes (s : string) (i first start end_ : nat) : nat * nat :=
  match s with
  | EmptyString => (start, end_)
  | String c s' =>
      if bool_decide (c = "-"%char) then
        let first := S first in
        let start := if bool_decide (first = 2%nat) then S i else start in
        if bool_decide (first = 3%nat) then (start, i)
        else scanDashes s' (S i) first start end_
      else scanDashes s' (S i) first start end_
  end.

(** The text handed to [stoul]: [relative.substr(start, end - start)],
    the difference taken in [size_t]. *)
Definition fileSeqField (relative : string) : string :=
  let '(start, end_) := scanDashes relative 0 0 0 0 in
  substr relative start ((Z.of_nat end_ - Z.of_nat start) `mod` 2 ^ 64).

(** No character of the string is a dash. *)
Fixpoint dashFree (s : string) : bool :=
  match s with
  | EmptyString => true
  | String c s' => negb (bool_decide (c = "-"%char)) && dashFree s'
  end.

(** The loop over the directory entries.  A name that does not begin with
    [binlog] is logged and parsed all the same.  On a parse failure the
    function executes [return fno.value()], the value of an [Expected] that
    holds none. *)
Fixpoint maxDumpFileSeqLoop `{StringUtils} (subpath : string)
  (entries : list DirEntry) (iter_throws : bool) (maxFno : Z)
  : Outcome (Expected Z) :=
  match entries with
  | [] =>
      if iter_throws
      then Returns (Error (mkStatus ERR_INTERNAL "parse fileno failed"))
      else Returns (Value maxFno)
  | p :: entries' =>
      if negb (is_regular_file p) then
        maxDumpFileSeqLoop subpath entries' iter_throws maxFno
      else
        INVARIANT (String.prefix subpath (path p)) ;;
        let relative := string_drop (String.length subpath) (path p) in
        match stoul (fileSeqField relative) with
        | Error _ => Undefined
        | Value fno =>
            if bool_decide (UINT32_MAX ≤ fno) then
              Returns (Error (mkStatus ERR_INTERNAL "invalid fileno"))
            else
              maxDumpFileSeqLoop subpath entries' iter_throws
                (Z.max maxFno (fno `mod` 2 ^ 32))
        end
  end.

Definition dumpSubpath (dumpPath : string) (storeId : nat) : string :=
  dumpPath +:+ "/" +:+ pretty storeId +:+ "/".

Definition maxDumpFileSeq `{StringUtils} (dumpPath : string) (storeId : nat)
  (dir : DumpDir) : Outcome (Expected Z) :=
  let subpath := dumpSubpath dumpPath storeId in
  match dd_create_throws dir with
  | Some what => Returns (Error (mkStatus ERR_INTERNAL what))
  | None =>
      maxDumpFileSeqLoop subpath (dd_entries dir) (dd_iter_throws dir) 0
  end.

(** ** [ReplManager::ReplManager] and [ReplManager::startup] *)

Definition newReplManager (sv : ServerEntry) : ReplManager :=
  mkReplManager false sv [] [] [] [] [] 1000.

(** What starting one store consults: the segment manager's answer (on
    success, [isOpen]), the clock, the server's answer to [setStoreMode],
    the store's highest binlog id, the dump directory, the transaction and
    the smallest binlog ([binlogId], [timestamp]). *)
Record StoreBoot := mkStoreBoot {
  sb_getDb : Expected bool;
  sb_now : Z;
  sb_setStoreMode : Status;
  sb_getHighestBinlogId : Z;
  sb_dumpDir : DumpDir;
  sb_createTransaction : Expected unit;
  sb_getMinBinlog : Expected (Z * Z)
}.

(** The collaborators of [startup]: a read failure of the catalog for a
    store, the catalog's answer to the write of a default, the statuses of
    the five pools in the order they are started, and the stores. *)
Record StartupEnv := mkStartupEnv {
  su_readFailure : nat → option Status;
  su_setStoreMeta : nat → Status;
  su_pool : nat → Status;
  su_store : nat → StoreBoot;
  su_dumpPath : string
}.

(** [catalog->getStoreMeta(i)]. *)
Definition getStoreMeta (e : StartupEnv) (i : nat) (m : ReplManager)
  : Expected StoreMeta :=
  match su_readFailure e i with
  | Some s => Error s
  | None =>
      match catalog (_svr m) !! i with
      | Some meta => Value meta
      | None => Error (mkStatus ERR_NOTFOUND "")
      end
  end.

(** A loop that can leave the function with a status: [inl] is the early
    [return]. *)
Fixpoint forStores
  (body : nat → ReplManager → Outcome (Status * ReplManager + ReplManager))
  (idx : list nat) (m : ReplManager)
  : Outcome (Status * ReplManager + ReplManager) :=
  match idx with
  | [] => Returns (inr m)
  | i :: idx' =>
      r ← body i m ;
      match r with
      | inl sm => Returns (inl sm)
      | inr m' => forStores body idx' m'
      end
  end.

Definition loadMeta `{TransactionIds} (e : StartupEnv) (i : nat)
  (m : ReplManager) : Outcome (Status * ReplManager + ReplManager) :=
  match getStoreMeta e i m with
  | Value meta => mret (inr (with_syncMeta (_syncMeta m ++ [meta]) m))
  | Error st =>
      if bool_decide (code st = ERR_NOTFOUND) then
        let pMeta := mkStoreMeta i "" 0 (-1) TXNID_UNINITED REPL_NONE in
        let s := su_setStoreMeta e i in
        if negb (ok s) then mret (inl (s, m))
        else
          let m := setStoreMeta s pMeta m in
          mret (inr (with_syncMeta (_syncMeta m ++ [pMeta]) m))
      else mret (inl (st, m))
  end.

(** The first status of a list that is not OK. *)
Fixpoint firstFailure (l : list Status) : option Status :=
  match l with
  | [] => None
  | s :: l' => if ok s then firstFailure l' else Some s
  end.

(** The index of the first meta whose id is not its index. *)
Fixpoint firstMisplaced (i : nat) (l : list StoreMeta) : option (nat * nat) :=
  match l with
  | [] => None
  | meta :: l' =>
      if bool_decide (i ≠ meta_id meta) then Some (i, meta_id meta)
      else firstMisplaced (S i) l'
  end.

Definition meta_with_binlogId (b : Z) (meta : StoreMeta) : StoreMeta :=
  mkStoreMeta (meta_id meta) (syncFromHost meta) (syncFromPort meta)
    (syncFromId meta) b (replState meta).

(** The body of the second loop of [startup]. *)
Definition startStore `{TransactionIds} `{StringUtils} (e : StartupEnv)
  (i : nat) (m : ReplManager) : Outcome (Status * ReplManager + ReplManager) :=
  let b := su_store e i in
  match sb_getDb b with
  | Error s => mret (inl (s, m))
  | Value isOpen =>
    let tp := if isOpen then sb_now b else time_point_max in
    let m := with_syncStatus
               (_syncStatus m ++ [mkSPovStatus false UINT64_MAX tp tp]) m in
    let m := with_pushStatus (_pushStatus m ++ [∅]) m in
    let m := with_fullPushStatus (_fullPushStatus m ++ [∅]) m in
    r ← (if isOpen then
           meta ← vec_at (_syncMeta m) i ;
           '(status, m) ←
             (if bool_decide (syncFromHost meta = "") then
                mret (sb_setStoreMode b,
                      setStoreMode (sb_setStoreMode b) i READ_WRITE m)
              else
                let m := setStoreMode (sb_setStoreMode b) i REPLICATE_ONLY m in
                l ← vec_set (_syncMeta m) i
                      (meta_with_binlogId (sb_getHighestBinlogId b) meta) ;
                mret (sb_setStoreMode b, with_syncMeta l m)) ;
           if negb (ok status) then mret (inl (status, m))
           else
             efileSeq ← maxDumpFileSeq (su_dumpPath e) i (sb_dumpDir b) ;
             match efileSeq with
             | Error s => mret (inl (s, m))
             | Value v => mret (inr (v, m))
             end
         else mret (inr (UINT32_MAX, m))) ;
    match r with
    | inl sm => mret (inl sm)
    | inr (fileSeq, m) =>
      let recBinlogStat :=
        mkRecycleBinlogStatus false tp TXNID_UNINITED TXNID_UNINITED fileSeq
          0 tp 0 None in
      let push st :=
        inr (with_logRecycStatus (_logRecycStatus m ++ [st]) m) in
      if isOpen then
        match sb_createTransaction b with
        | Error s => mret (inl (s, m))
        | Value _ =>
          match sb_getMinBinlog b with
          | Value (binlog, ts) =>
              mret (push (mkRecycleBinlogStatus false tp binlog TXNID_UNINITED
                            fileSeq ts tp 0 None))
          | Error s =>
              if bool_decide (code s = ERR_EXHAUST) then
                mret (push (mkRecycleBinlogStatus false tp MIN_VALID_TXNID
                              TXNID_UNINITED fileSeq 0 tp 0 None))
              else mret (inl (s, m))
          end
        end
      else mret (push recBinlogStat)
    end
  end.

Definition with_isRunning (b : bool) (m : ReplManager) : ReplManager :=
  mkReplManager b (_svr m) (_syncMeta m) (_syncStatus m)
    (_pushStatus m) (_fullPushStatus m) (_logRecycStatus m)
    (_connectMasterTimeoutMs m).

Definition startup `{TransactionIds} `{StringUtils} (e : StartupEnv)
  (m : ReplManager) : Outcome (Status * ReplManager) :=
  let n := getKVStoreCount (_svr m) in
  r ← forStores (loadMeta e) (seq 0 n) m ;
  match r with
  | inl sm => mret sm
  | inr m =>
    INVARIANT (bool_decide (length (_syncMeta m) = n)) ;;
    match firstMisplaced 0 (_syncMeta m) with
    | Some (i, j) =>
        mret (mkStatus ERR_INTERNAL
                ("meta:" +:+ pretty i +:+ " has id:" +:+ pretty j), m)
    | None =>
      match firstFailure (su_pool e <$> seq 0 5) with
      | Some s => mret (s, m)
      | None =>
        r ← forStores (startStore e) (seq 0 n) m ;
        match r with
        | inl sm => mret sm
        | inr m =>
          INVARIANT (bool_decide (length (_logRecycStatus m) = n)) ;;
          mret (OK, with_isRunning true m)
        end
      end
    end
  end.


(** An [Expected] that holds a status holds one that is not OK. *)
Definition holdsFailure {A} (x : Expected A) : Prop :=
  ∀ s, x = Error s → ok s = false.

(** ** The states the manager's own operations reach *)

(** The answers of the collaborators of [startup] that hold a status hold
    a failure. *)
Definition startupEnvSound (e : StartupEnv) : Prop :=
  (∀ i s, su_readFailure e i = Some s → ok s = false) ∧
  (∀ i, holdsFailure (sb_getDb (su_store e i)) ∧
        holdsFailure (sb_createTransaction (su_store e i)) ∧
        holdsFailure (sb_getMinBinlog (su_store e i))).

(** No meta the catalog holds is in [REPL_TRANSFER]: the state is set for
    the duration of a transfer and the operations below never persist
    it. *)
Definition catalogClean (sv : ServerEntry) : Prop :=
  ∀ i meta, catalog sv !! i = Some meta → replState meta ≠ REPL_TRANSFER.

Definition noTransfer (m : ReplManager) : Prop :=
  (∀ i meta, _syncMeta m !! i = Some meta → replState meta ≠ REPL_TRANSFER) ∧
  catalogClean (_svr m).

(** No other thread touches the manager while a source change waits. *)
Definition quiet (e : ChangeEnv) : Prop := ∀ t m, ce_others e t m = m.

(** The managers reached from a node with server [sv0] through [startup]
    (at boot, and again after a restart over the same catalog),
    [changeReplSource], [stopStore] and passes of the controller. *)
Inductive reachable `{TransactionIds} `{StringUtils} (sv0 : ServerEntry)
  : ReplManager → Prop :=
  | reach_startup e m :
      startupEnvSound e →
      startup e (newReplManager sv0) = Returns (OK, m) →
      reachable sv0 m
  | reach_restart e sv m m' :
      reachable sv0 m →
      catalog sv = catalog (_svr m) →
      startupEnvSound e →
      startup e (newReplManager sv) = Returns (OK, m') →
      reachable sv0 m'
  | reach_changeReplSource e storeId ip port sourceStoreId m st m' :
      reachable sv0 m →
      quiet e →
      changeReplSource e storeId ip port sourceStoreId m = Returns (st, m') →
      reachable sv0 m'
  | reach_stopStore storeId m st m' :
      reachable sv0 m →
      stopStore m storeId = Returns (st, m') →
      reachable sv0 m'
  | reach_controlPass now now' m s :
      reachable sv0 m →
      controlPass now now' m = Returns s →
      reachable sv0 (sc_mgr s).

(** [m'] has the sizes of [m], and no meta in [REPL_TRANSFER] when [m] has
    none. *)
Definition keeps (m m' : ReplManager) : Prop :=
  length (_syncMeta m') = length (_syncMeta m) ∧
  length (_syncStatus m') = length (_syncStatus m) ∧
  length (_pushStatus m') = length (_pushStatus m) ∧
  length (_fullPushStatus m') = length (_fullPushStatus m) ∧
  length (_logRecycStatus m') = length (_logRecycStatus m) ∧
  getKVStoreCount (_svr m') = getKVStoreCount (_svr m) ∧
  (noTransfer m → noTransfer m').

(** The slave slot of store [i] is one the scheduler inspects at [now]. *)
Definition inspected (now : Z) (m : ReplManager) (i : nat) : Prop :=
  ∃ st meta,
    _syncStatus m !! i = Some st ∧ _syncMeta m !! i = Some meta ∧
    sp_isRunning st = false ∧ ¬ now < sp_nextSchedTime st ∧
    replState meta ≠ REPL_NONE.

(** ** A decimal reader and a dump directory for the examples *)

Definition digitValue (c : ascii) : option Z :=
  let n := Z.of_nat (nat_of_ascii c) in
  if bool_decide (48 ≤ n ≤ 57) then Some (n - 48) else None.

Fixpoint readDecimal (s : string) (acc : Z) : option Z :=
  match s with
  | EmptyString => Some acc
  | String c s' =>
      match digitValue c with
      | Some d => readDecimal s' (10 * acc + d)
      | None => None
      end
  end.

Definition decimalStoul (s : string) : Expected Z :=
  match s with
  | EmptyString => Error (mkStatus ERR_DECODE "empty")
  | _ =>
      match readDecimal s 0 with
      | Some v =>
          if bool_decide (0 ≤ v ≤ UINT64_MAX) then Value v
          else Error (mkStatus ERR_DECODE "out of range")
      | None => Error (mkStatus ERR_DECODE "not a number")
      end
  end.

(** An instance of [stoul] that reads unsigned decimal numbers. *)
Definition decimalStringUtils : StringUtils.
Proof.
  refine {| stoul := decimalStoul |}.
  intros s v. unfold decimalStoul.
  destruct s as [|c s]; [discriminate|].
  destruct (readDecimal (String c s) 0) as [w|]; [|discriminate].
  destruct (bool_decide (0 ≤ w ≤ UINT64_MAX)) eqn:E; [|discriminate].
  intros [= <-]. by apply bool_decide_eq_true in E.
Defined.

(** The text [stoul] is given for an entry of the directory [subpath]. *)
Definition parsedField (subpath : string) (p : DirEntry) : string :=
  fileSeqField (string_drop (String.length subpath) (path p)).

(** A dump directory of store 0 with two archive files, of sequence
    numbers 5 and 2, and a sub-directory. *)
Definition exDumpDir : DumpDir :=
  mkDumpDir None
    [mkDirEntry "dump/0/binlog-0-0000005-20200101.log" true;
     mkDirEntry "dump/0/binlog-0-0000002-20191231.log" true;
     mkDirEntry "dump/0/old" false]
    false.

(** A fresh node with two open stores, empty binlogs, and the dump
    directory above for store 0. *)
Definition exFreshServer : ServerEntry :=
  mkServerEntry 2 [STORE_NONE; STORE_NONE] ∅ [].

Definition exStartupEnv : StartupEnv :=
  mkStartupEnv (λ _, None) (λ _, OK) (λ _, OK)
    (λ i, mkStoreBoot (Value true) 5000 OK 0
            (if bool_decide (i = 0%nat) then exDumpDir
             else mkDumpDir None [] false)
            (Value ()) (Error (mkStatus ERR_EXHAUST "")))
    "dump".

(** The manager [startup] builds on the fresh node, and the one an attach
    of store 1 to 10.0.0.5:6379 makes of it. *)
Definition exBooted : ReplManager :=
  mkReplManager true
    (mkServerEntry 2 [READ_WRITE; READ_WRITE]
       (<[1%nat := mkStoreMeta 1 "" 0 (-1) 0 REPL_NONE]>
          (<[0%nat := mkStoreMeta 0 "" 0 (-1) 0 REPL_NONE]> ∅)) [])
    [mkStoreMeta 0 "" 0 (-1) 0 REPL_NONE; mkStoreMeta 1 "" 0 (-1) 0 REPL_NONE]
    [mkSPovStatus false UINT64_MAX 5000 5000;
     mkSPovStatus false UINT64_MAX 5000 5000]
    [∅; ∅] [∅; ∅]
    [mkRecycleBinlogStatus false 5000 1 0 5 0 5000 0 None;
     mkRecycleBinlogStatus false 5000 1 0 0 0 5000 0 None]
    1000.

Definition exAttached : ReplManager :=
  mkReplManager true
    (mkServerEntry 2 [READ_WRITE; REPLICATE_ONLY]
       (<[1%nat := mkStoreMeta 1 "10.0.0.5" 6379 1 0 REPL_CONNECT]>
          (<[0%nat := mkStoreMeta 0 "" 0 (-1) 0 REPL_NONE]> ∅)) [])
    [mkStoreMeta 0 "" 0 (-1) 0 REPL_NONE;
     mkStoreMeta 1 "10.0.0.5" 6379 1 0 REPL_CONNECT]
    [mkSPovStatus false UINT64_MAX 5000 5000;
     mkSPovStatus false UINT64_MAX 5000 5000]
    [∅; ∅] [∅; ∅]
    [mkRecycleBinlogStatus false 5000 1 0 5 0 5000 0 None;
     mkRecycleBinlogStatus false 5000 1 0 0 0 5000 0 None]
    1000.

(** ** A node used in the examples

    Two stores.  Store 0 is a master with one full push that succeeded long
    ago and two incremental subscribers at binlog 140 and 200; store 1
    replicates from 10.0.0.5:6379 and a slave job is in flight for it. *)

(** The ids the storage layer declares upstream; used at examples only. *)
Definition upstreamTxnIds : TransactionIds :=
  {| TXNID_UNINITED := 0; MIN_VALID_TXNID := 1 |}.

Definition exMeta0 : StoreMeta := mkStoreMeta 0 "" 0 (-1) 0 REPL_NONE.
Definition exMeta1 : StoreMeta :=
  mkStoreMeta 1 "10.0.0.5" 6379 1 77 REPL_CONNECTED.

Definition exServer : ServerEntry :=
  mkServerEntry 2 [READ_WRITE; REPLICATE_ONLY]
    (<[0%nat := exMeta0]> (<[1%nat := exMeta1]> ∅)) [].

Definition exSubscriber (clientId binlogPos : Z) : MPovStatus :=
  mkMPovStatus false 0 binlogPos 0 true clientId "10.0.0.9" 6380.

Definition exManager : ReplManager :=
  mkReplManager true exServer
    [exMeta0; exMeta1]
    [mkSPovStatus false UINT64_MAX 0 0; mkSPovStatus true 12 0 0]
    [<[1 := exSubscriber 1 140]> (<[2 := exSubscriber 2 200]> ∅); ∅]
    [<["n1" := mkMPovFullPushStatus SUCESS 180 0 0]> ∅; ∅]
    [mkRecycleBinlogStatus true 0 100 0 3 0 0 0 None;
     mkRecycleBinlogStatus false 0 1 0 0 0 0 0 None]
    1000.

(** A store that answers every request and truncates up to [end]. *)
Definition exRecycleEnv (storeRunning : bool) : RecycleEnv :=
  mkRecycleEnv (seconds 1000) 10000 (Value storeRunning) (seconds 1000)
    (Value ())
    (λ _ m, (Some 1%nat, m))
    (λ start end_ _, Value (mkTruncateBinlogResult (Z.max start end_) 0 0))
    (λ _ _ _ m, m)
    (Value ()).

(** A source change during which no other thread touches the manager. *)
Definition exChangeEnv : ChangeEnv :=
  mkChangeEnv (Value (true, true)) (λ _ m, m) (Value ()) OK OK OK.

(** ** What a pass of the controller dispatches *)

(** The job the slave scheduler hands out for store [i] on manager [m]. *)
Definition slaveJob (now : Z) (m : ReplManager) (i : nat) : option Job :=
  match _syncStatus m !! i, _syncMeta m !! i with
  | Some st, Some meta =>
      if sp_isRunning st || bool_decide (now < sp_nextSchedTime st) then None
      else match replState meta with
           | REPL_CONNECT => Some (FullReceive i)
           | REPL_CONNECTED => Some (IncrCheck i)
           | _ => None
           end
  | _, _ => None
  end.

(** The job the recycle scheduler hands out for store [i]. *)
Definition recycleJob (now : Z) (m : ReplManager) (i : nat) : option Job :=
  match _logRecycStatus m !! i with
  | Some rb =>
      if rb_isRunning rb || bool_decide (now < rb_nextSchedTime rb) then None
      else Some (LogRecycle i)
  | None => None
  end.

(** The jobs the master scheduler hands out for store [i]. *)
Definition masterJobs (now : Z) (m : ReplManager) (i : nat) : list Job :=
  match _pushStatus m !! i with
  | Some pushes =>
      (λ kv, IncrPush i kv.1) <$>
        filter (λ kv, pushDue now kv.2 = true) (inClientOrder pushes)
  | None => []
  end.

(** The slot a job is for is idle and due on [m] at [now]. *)
Definition due (now : Z) (m : ReplManager) (job : Job) : Prop :=
  match job with
  | FullReceive i =>
      ∃ st meta, _syncStatus m !! i = Some st ∧ _syncMeta m !! i = Some meta ∧
        sp_isRunning st = false ∧ sp_nextSchedTime st ≤ now ∧
        replState meta = REPL_CONNECT
  | IncrCheck i =>
      ∃ st meta, _syncStatus m !! i = Some st ∧ _syncMeta m !! i = Some meta ∧
        sp_isRunning st = false ∧ sp_nextSchedTime st ≤ now ∧
        replState meta = REPL_CONNECTED
  | IncrPush i clientId =>
      ∃ pushes mpov, _pushStatus m !! i = Some pushes ∧
        pushes !! clientId = Some mpov ∧
        mp_isRunning mpov = false ∧ mp_nextSchedTime mpov ≤ now
  | LogRecycle i =>
      ∃ rb, _logRecycStatus m !! i = Some rb ∧
        rb_isRunning rb = false ∧ rb_nextSchedTime rb ≤ now
  end.

(** The slot a job is for is marked running on [m]. *)
Definition running (m : ReplManager) (job : Job) : Prop :=
  match job with
  | FullReceive i | IncrCheck i =>
      ∃ st, _syncStatus m !! i = Some st ∧ sp_isRunning st = true
  | IncrPush i clientId =>
      ∃ pushes mpov, _pushStatus m !! i = Some pushes ∧
        pushes !! clientId = Some mpov ∧ mp_isRunning mpov = true
  | LogRecycle i =>
      ∃ rb, _logRecycStatus m !! i = Some rb ∧ rb_isRunning rb = true
  end.

Definition jobStore (job : Job) : nat :=
  match job with
  | FullReceive i | IncrCheck i | IncrPush i _ | LogRecycle i => i
  end.

(** Every slot of store [i] has its [nextSchedTime] at the maximum. *)
Definition disabled (m : ReplManager) (i : nat) : Prop :=
  (∀ st, _syncStatus m !! i = Some st → sp_nextSchedTime st = time_point_max) ∧
  (∀ rb, _logRecycStatus m !! i = Some rb →
     rb_nextSchedTime rb = time_point_max) ∧
  (∀ pushes c mpov, _pushStatus m !! i = Some pushes →
     pushes !! c = Some mpov → mp_nextSchedTime mpov = time_point_max).

(** [m'] is [m] after some passes of the controller, each at an instant
    before the maximum of the clock. *)
Inductive passed : ReplManager → ReplManager → Prop :=
  | passed_none m : passed m m
  | passed_pass now now' m s m' :
      now < time_point_max →
      controlPass now now' m = Returns s →
      passed (sc_mgr s) m' →
      passed m m'.

(** ** The metas of a manager *)

(** The meta of store [i] carries the id [i]. *)
Definition idsInPlace (m : ReplManager) : Prop :=
  ∀ i meta, _syncMeta m !! i = Some meta → meta_id meta = i.

(** The cached meta of every store is the one the catalog holds, but for
    [binlogId]. *)
Definition persisted (m : ReplManager) : Prop :=
  ∀ i meta, _syncMeta m !! i = Some meta →
    ∃ cm, catalog (_svr m) !! i = Some cm ∧
          meta = meta_with_binlogId (binlogId meta) cm.

(** [m'] has the metas and the catalog of [m]. *)
Definition sameMetas (m m' : ReplManager) : Prop :=
  _syncMeta m' = _syncMeta m ∧ catalog (_svr m') = catalog (_svr m).

(** ** The slots [startup] creates *)

(** The instant the slots of a store are first due: the clock reading for
    an open store, the maximum for a closed one. *)
Definition bootTime (b : StoreBoot) (isOpen : bool) : Z :=
  if isOpen then sb_now b else time_point_max.

(** The recycle slot of a store at boot, given the file sequence. *)
Definition bootRecycle `{TransactionIds} (b : StoreBoot) (isOpen : bool)
  (seq0 : Z) : RecycleBinlogStatus :=
  let tp := bootTime b isOpen in
  if isOpen then
    match sb_getMinBinlog b with
    | Value (binlog, ts) =>
        mkRecycleBinlogStatus false tp binlog TXNID_UNINITED seq0 ts tp 0 None
    | Error _ =>
        mkRecycleBinlogStatus false tp MIN_VALID_TXNID TXNID_UNINITED seq0 0
          tp 0 None
    end
  else
    mkRecycleBinlogStatus false tp TXNID_UNINITED TXNID_UNINITED seq0 0 tp 0
      None.

(** The mode an open store is given at boot, and its cached meta. *)
Definition bootMode (meta : StoreMeta) : StoreMode :=
  if bool_decide (syncFromHost meta = "") then READ_WRITE else REPLICATE_ONLY.

Definition bootMeta (b : StoreBoot) (meta : StoreMeta) : StoreMeta :=
  if bool_decide (syncFromHost meta = "") then meta
  else meta_with_binlogId (sb_getHighestBinlogId b) meta.

(** What [startup] has made of store [i]: its four slots and its meta. *)
Definition bootedStore `{TransactionIds} `{StringUtils} (e : StartupEnv)
  (modes : nat) (m : ReplManager) (i : nat) : Prop :=
  ∃ isOpen seq0 meta,
    sb_getDb (su_store e i) = Value isOpen ∧
    (if isOpen
     then maxDumpFileSeq (su_dumpPath e) i (sb_dumpDir (su_store e i)) =
            Returns (Value seq0)
     else seq0 = UINT32_MAX) ∧
    _syncStatus m !! i =
      Some (mkSPovStatus false UINT64_MAX (bootTime (su_store e i) isOpen)
              (bootTime (su_store e i) isOpen)) ∧
    _pushStatus m !! i = Some ∅ ∧
    _fullPushStatus m !! i = Some ∅ ∧
    _logRecycStatus m !! i = Some (bootRecycle (su_store e i) isOpen seq0) ∧
    _syncMeta m !! i = Some meta ∧
    (isOpen = true →
       (syncFromHost meta ≠ "" →
          binlogId meta = sb_getHighestBinlogId (su_store e i)) ∧
       ((i < modes)%nat → storeMode (_svr m) !! i = Some (bootMode meta))).

(** The boot of the example node with store 1 closed. *)
Definition exClosedEnv : StartupEnv :=
  mkStartupEnv (λ _, None) (λ _, OK) (λ _, OK)
    (λ i, mkStoreBoot (Value (bool_decide (i = 0%nat))) 5000 OK 0
            (if bool_decide (i = 0%nat) then exDumpDir
             else mkDumpDir None [] false)
            (Value ()) (Error (mkStatus ERR_EXHAUST "")))
    "dump".

(** The dump directory of the examples, its entries in another order and
    with one more sub-directory. *)
Definition exDumpDirShuffled : DumpDir :=
  mkDumpDir None
    [mkDirEntry "dump/0/old" false;
     mkDirEntry "dump/0/binlog-0-0000002-20191231.log" true;
     mkDirEntry "dump/0/tmp" false;
     mkDirEntry "dump/0/binlog-0-0000005-20200101.log" true]
    false.

(** ** The archive-file methods *)

(** [m'] is [m] but for the file fields ([fileSeq], [timestamp],
    [fileCreateTime], [fileSize], [fs]) of the recycle slot of store
    [i]. *)
Definition sameButFile (i : nat) (m m' : ReplManager) : Prop :=
  _isRunning m' = _isRunning m ∧ _svr m' = _svr m ∧
  _syncMeta m' = _syncMeta m ∧ _syncStatus m' = _syncStatus m ∧
  _pushStatus m' = _pushStatus m ∧ _fullPushStatus m' = _fullPushStatus m ∧
  _connectMasterTimeoutMs m' = _connectMasterTimeoutMs m ∧
  length (_logRecycStatus m') = length (_logRecycStatus m) ∧
  (∀ j, j ≠ i → _logRecycStatus m' !! j = _logRecycStatus m !! j) ∧
  (∀ rb, _logRecycStatus m !! i = Some rb →
     ∃ rb', _logRecycStatus m' !! i = Some rb' ∧
       rb_isRunning rb' = rb_isRunning rb ∧
       rb_nextSchedTime rb' = rb_nextSchedTime rb ∧
       firstBinlogId rb' = firstBinlogId rb ∧
       lastFlushBinlogId rb' = lastFlushBinlogId rb).

(** [getCurBinlogFs] and [updateCurBinlogFs], defined outside this file,
    keep to the file fields of the slot of their store. *)
Definition archiveOps (e : RecycleEnv) : Prop :=
  ∀ i m,
    sameButFile i m (re_getCurBinlogFs e i m).2 ∧
    ∀ written ts, sameButFile i m (re_updateCurBinlogFs e i written ts m).

(** The two instants a run computes for the next one stay within the range
    of the clock. *)
Definition clockInRange (e : RecycleEnv) : Prop :=
  re_now e + milliseconds (re_nextSchedInterval e) ≤ time_point_max ∧
  re_now_defer e + seconds 1 ≤ time_point_max.

(** The booted example node after the pass that hands out its two recycle
    jobs. *)
Definition exDispatched : ReplManager :=
  with_logRecycStatus (rb_with_isRunning true <$> _logRecycStatus exBooted)
    exBooted.

(** ** [ReplManager::resetRecycleState] and [ReplManager::onFlush] *)

Definition resetRecycleState `{TransactionIds} (storeId : nat)
  (m : ReplManager) : Outcome ReplManager :=
  v ← vec_at (_logRecycStatus m) storeId ;
  l ← vec_set (_logRecycStatus m) storeId
        (mkRecycleBinlogStatus (rb_isRunning v) (rb_nextSchedTime v)
           MIN_VALID_TXNID TXNID_UNINITED (fileSeq v) 0 (fileCreateTime v)
           (fileSize v) (fs v)) ;
  mret (with_logRecycStatus l m).

Definition onFlush (storeId : nat) (binlogid : Z) (m : ReplManager)
  : Outcome ReplManager :=
  v ← vec_at (_logRecycStatus m) storeId ;
  l ← vec_set (_logRecycStatus m) storeId
        (mkRecycleBinlogStatus (rb_isRunning v) (rb_nextSchedTime v)
           (firstBinlogId v) binlogid (fileSeq v) (timestamp v)
           (fileCreateTime v) (fileSize v) (fs v)) ;
  mret (with_logRecycStatus l m).

(** What may happen to the manager between two recycle runs of store [i]
    while no run of the store is in flight: passes of the controller,
    flushes, stops, and the resets and the recycle runs of the other
    stores. *)
Inductive elsewhere `{TransactionIds} (i : nat)
  : ReplManager → ReplManager → Prop :=
  | elsewhere_none m : elsewhere i m m
  | elsewhere_pass now now' m s m' :
      controlPass now now' m = Returns s →
      elsewhere i (sc_mgr s) m' → elsewhere i m m'
  | elsewhere_flush j binlogid m m1 m' :
      onFlush j binlogid m = Returns m1 →
      elsewhere i m1 m' → elsewhere i m m'
  | elsewhere_stop j st m m1 m' :
      stopStore m j = Returns (st, m1) →
      elsewhere i m1 m' → elsewhere i m m'
  | elsewhere_reset j m m1 m' :
      j ≠ i → resetRecycleState j m = Returns m1 →
      elsewhere i m1 m' → elsewhere i m m'
  | elsewhere_run e j m m1 m' :
      j ≠ i → archiveOps e → recycleBinlog e j m = Returns m1 →
      elsewhere i m1 m' → elsewhere i m m'.


(** [m'] is [m] but for the binlog ids and the timestamp of its recycle
    slots. *)
Definition sameSchedule (m m' : ReplManager) : Prop :=
  _syncMeta m' = _syncMeta m ∧ _syncStatus m' = _syncStatus m ∧
  _pushStatus m' = _pushStatus m ∧ _fullPushStatus m' = _fullPushStatus m ∧
  length (_logRecycStatus m') = length (_logRecycStatus m) ∧
  ∀ j rb, _logRecycStatus m !! j = Some rb →
    ∃ rb', _logRecycStatus m' !! j = Some rb' ∧
      rb_isRunning rb' = rb_isRunning rb ∧
      rb_nextSchedTime rb' = rb_nextSchedTime rb.

(** ** [ReplManager::getReplInfoSimple] *)

(** The value a conversion to [int32_t] or [int64_t] stores. *)
Definition toInt32 (z : Z) : Z := (z + 2 ^ 31) `mod` 2 ^ 32 - 2 ^ 31.
Definition toInt64 (z : Z) : Z := (z + 2 ^ 63) `mod` 2 ^ 64 - 2 ^ 63.

(** The collaborators of a report.
    - [ie_nowMs]: [nsSinceEpoch()/1000000] as the [uint64_t] local holds
      it;
    - [ie_lastSyncMs tp]: [nsSinceEpoch(tp)/1000000] as the [int64_t] local
      holds it;
    - [ie_getDb i]: the segment manager's answer for store [i], which on
      success gives the highest binlog id of the store. *)
Record InfoEnv := mkInfoEnv {
  ie_nowMs : Z;
  ie_lastSyncMs : Z → Z;
  ie_getDb : nat → Expected Z
}.

(** The locals of the function that are assigned after their
    declaration. *)
Record ReplInfo := mkReplInfo {
  role : string;
  master_host : string;
  master_port : Z;
  master_last_io_seconds_ago : Z;
  connected_slaves : Z;
  slave_repl_offset : Z
}.

(** The first loop: the source of the node and the age of its last
    synchronisation.  [now - last_sync_time] is computed in [uint64_t]. *)
Fixpoint infoMasters (e : InfoEnv) (m : ReplManager) (idx : list nat)
  (r : ReplInfo) : Outcome ReplInfo :=
  match idx with
  | [] => Returns r
  | i :: idx' =>
      st ← vec_at (_syncStatus m) i ;
      let last_sync_time := ie_lastSyncMs e (sp_lastSyncTime st) in
      meta ← vec_at (_syncMeta m) i ;
      if bool_decide (syncFromHost meta ≠ "") then
        let sec_ago := ((ie_nowMs e - last_sync_time) `mod` 2 ^ 64) `div` 1000 in
        infoMasters e m idx'
          (mkReplInfo "slave" (syncFromHost meta) (syncFromPort meta)
             (if bool_decide (master_last_io_seconds_ago r < sec_ago)
              then sec_ago else master_last_io_seconds_ago r)
             (connected_slaves r) (slave_repl_offset r))
      else infoMasters e m idx' r
  end.

(** The subscribers of a store in the order a [std::map] yields them. *)
Definition inKeyOrder (pushes : gmap Z MPovStatus) : list MPovStatus :=
  (inClientOrder pushes).*2.

(** The inner loop: the lag of a subscriber is computed in [uint64_t] and
    stored in an [int64_t]; it is compared with the [int32_t] offset and
    stored in it. *)
Definition infoLag (highestBinlogid : Z) (offset : Z) (mpov : MPovStatus) : Z :=
  let binlog_lag := toInt64 ((highestBinlogid - mp_binlogPos mpov) `mod` 2 ^ 64) in
  if bool_decide (offset < binlog_lag) then toInt32 binlog_lag else offset.

(** The second loop; [None] is the [return] on a store that cannot be
    had. *)
Fixpoint infoSlaves (e : InfoEnv) (m : ReplManager) (idx : list nat)
  (r : ReplInfo) : Outcome (option ReplInfo) :=
  match idx with
  | [] => Returns (Some r)
  | i :: idx' =>
      match ie_getDb e i with
      | Error _ => Returns None
      | Value highestBinlogid =>
          pushes ← vec_at (_pushStatus m) i ;
          infoSlaves e m idx'
            (mkReplInfo (role r) (master_host r) (master_port r)
               (master_last_io_seconds_ago r)
               (toInt32 (Z.of_nat (size pushes)))
               (foldl (infoLag highestBinlogid) (slave_repl_offset r)
                  (inKeyOrder pushes)))
      end
  end.

Definition getReplInfoLocals (e : InfoEnv) (m : ReplManager)
  : Outcome (option ReplInfo) :=
  let stores := seq 0 (getKVStoreCount (_svr m)) in
  r ← infoMasters e m stores (mkReplInfo "master" "" 0 0 0 (-1)) ;
  infoSlaves e m stores r.

Definition CRLF : string := String (ascii_of_nat 13) (String (ascii_of_nat 10) "").

Definition infoLine (key value : string) : string :=
  key +:+ ":" +:+ value +:+ CRLF.

(** The text the function appends to the stream. *)
Definition getReplInfoSimple (e : InfoEnv) (m : ReplManager) : Outcome string :=
  locals ← getReplInfoLocals e m ;
  match locals with
  | None => mret ""
  | Some r =>
      mret (infoLine "role" (role r) +:+
            infoLine "master_repl_offset" (pretty 0) +:+
            infoLine "connected_slaves" (pretty (connected_slaves r)) +:+
            (if bool_decide (role r = "slave") then
               infoLine "master_host" (master_host r) +:+
               infoLine "master_port" (pretty (master_port r)) +:+
               infoLine "master_link_status" "up" +:+
               infoLine "master_last_io_seconds_ago"
                 (pretty (master_last_io_seconds_ago r)) +:+
               infoLine "master_sync_in_progress" (pretty 0) +:+
               infoLine "slave_repl_offset" (pretty (slave_repl_offset r)) +:+
               infoLine "slave_priority" (pretty (-1)) +:+
               infoLine "slave_read_only" (pretty 1)
             else ""))
  end.

(** What the first loop has found in the stores below [k]: whether one has
    a source, and the last that has. *)
Definition sourceUpTo (m : ReplManager) (k : nat) (r : ReplInfo) : Prop :=
  (role r = "slave" ∨ role r = "master") ∧
  (role r = "slave" ↔
     ∃ i meta, (i < k)%nat ∧ _syncMeta m !! i = Some meta ∧
               syncFromHost meta ≠ "") ∧
  (role r = "slave" →
     ∃ i meta, (i < k)%nat ∧ _syncMeta m !! i = Some meta ∧
       syncFromHost meta ≠ "" ∧
       master_host r = syncFromHost meta ∧
       master_port r = syncFromPort meta ∧
       ∀ j meta', (i < j < k)%nat → _syncMeta m !! j = Some meta' →
                  syncFromHost meta' = "").

(** A report on the example node, two seconds after the epoch. *)
Definition exInfoEnv : InfoEnv :=
  mkInfoEnv 2000 (λ tp, tp `div` 1000000) (λ _, Value 200).

(** ** The controller and the workers

    The jobs the slave scheduler hands out run [slaveSyncRoutine], which is
    defined outside this file and is the only code that sets
    [REPL_TRANSFER].  A worker holds the slave slot of its store, marked
    running, from its dispatch until it releases the slot. *)

(** A store in [REPL_TRANSFER] has its slave slot marked running, and the
    catalog holds no meta in that state. *)
Definition transferOwned (m : ReplManager) : Prop :=
  (∀ i meta, _syncMeta m !! i = Some meta → replState meta = REPL_TRANSFER →
     ∃ st, _syncStatus m !! i = Some st ∧ sp_isRunning st = true) ∧
  catalogClean (_svr m).

Definition governed (m : ReplManager) : Prop := sized m ∧ transferOwned m.

(** A step of the worker that holds the slave slot of store [i]: it may
    rewrite the meta and the slave slot of its store and persist the meta,
    but it does not persist [REPL_TRANSFER] and it does not release the
    slot while the meta is in [REPL_TRANSFER]. *)
Definition workerStep (i : nat) (m m' : ReplManager) : Prop :=
  (∃ st, _syncStatus m !! i = Some st ∧ sp_isRunning st = true) ∧
  length (_syncMeta m') = length (_syncMeta m) ∧
  length (_syncStatus m') = length (_syncStatus m) ∧
  _pushStatus m' = _pushStatus m ∧
  _fullPushStatus m' = _fullPushStatus m ∧
  _logRecycStatus m' = _logRecycStatus m ∧
  getKVStoreCount (_svr m') = getKVStoreCount (_svr m) ∧
  (∀ j, j ≠ i →
     _syncMeta m' !! j = _syncMeta m !! j ∧
     _syncStatus m' !! j = _syncStatus m !! j ∧
     catalog (_svr m') !! j = catalog (_svr m) !! j) ∧
  (∀ cm, catalog (_svr m') !! i = Some cm →
     replState cm ≠ REPL_TRANSFER ∨ catalog (_svr m) !! i = Some cm) ∧
  (∀ meta' st', _syncMeta m' !! i = Some meta' →
     _syncStatus m' !! i = Some st' →
     replState meta' = REPL_TRANSFER → sp_isRunning st' = true).

(** Some steps of workers. *)
Inductive workers : ReplManager → ReplManager → Prop :=
  | workers_none m : workers m m
  | workers_step i m m1 m2 :
      workerStep i m m1 → workers m1 m2 → workers m m2.

(** While a source change waits, the other threads are workers. *)
Definition orderly (e : ChangeEnv) : Prop :=
  ∀ t m, workers m (ce_others e t m).

(** The managers reached from a node with server [sv0] through [startup],
    [changeReplSource], [stopStore], passes of the controller and steps of
    workers. *)
Inductive reachableWithWorkers `{TransactionIds} `{StringUtils}
  (sv0 : ServerEntry) : ReplManager → Prop :=
  | rw_startup e m :
      startupEnvSound e →
      startup e (newReplManager sv0) = Returns (OK, m) →
      reachableWithWorkers sv0 m
  | rw_restart e sv m m' :
      reachableWithWorkers sv0 m →
      catalog sv = catalog (_svr m) →
      startupEnvSound e →
      startup e (newReplManager sv) = Returns (OK, m') →
      reachableWithWorkers sv0 m'
  | rw_changeReplSource e storeId ip port sourceStoreId m st m' :
      reachableWithWorkers sv0 m →
      orderly e →
      changeReplSource e storeId ip port sourceStoreId m = Returns (st, m') →
      reachableWithWorkers sv0 m'
  | rw_stopStore storeId m st m' :
      reachableWithWorkers sv0 m →
      stopStore m storeId = Returns (st, m') →
      reachableWithWorkers sv0 m'
  | rw_controlPass now now' m s :
      reachableWithWorkers sv0 m →
      controlPass now now' m = Returns s →
      reachableWithWorkers sv0 (sc_mgr s)
  | rw_worker i m m' :
      reachableWithWorkers sv0 m →
      workerStep i m m' →
      reachableWithWorkers sv0 m'.

(** [m'] has the sizes of [m], a clean catalog when [m] has one, no meta in
    [REPL_TRANSFER] that [m] has not, and every slave slot running that was
    running in [m]. *)
Definition steady (m m' : ReplManager) : Prop :=
  keeps m m' ∧
  (catalogClean (_svr m) → catalogClean (_svr m')) ∧
  (∀ i meta', _syncMeta m' !! i = Some meta' →
     replState meta' = REPL_TRANSFER → _syncMeta m !! i = Some meta') ∧
  (∀ i st, _syncStatus m !! i = Some st → sp_isRunning st = true →
     ∃ st', _syncStatus m' !! i = Some st' ∧ sp_isRunning st' = true).

(** The attached example node after the pass that hands out the
    full-receive job of store 1 and the two recycle jobs, and after the
    worker of store 1 has entered [REPL_TRANSFER]. *)
Definition exReceiving : ReplManager :=
  mkReplManager true (_svr exAttached) (_syncMeta exAttached)
    [mkSPovStatus false UINT64_MAX 5000 5000;
     mkSPovStatus true UINT64_MAX 5000 5000]
    [∅; ∅] [∅; ∅]
    (rb_with_isRunning true <$> _logRecycStatus exAttached)
    1000.

Definition exTransferring : ReplManager :=
  with_syncMeta
    [mkStoreMeta 0 "" 0 (-1) 0 REPL_NONE;
     mkStoreMeta 1 "10.0.0.5" 6379 1 0 REPL_TRANSFER]
    exReceiving.

(** A node of one open store whose catalog holds a meta in
    [REPL_TRANSFER]. *)
Definition exDirtyServer : ServerEntry :=
  mkServerEntry 1 [STORE_NONE]
    (<[0%nat := mkStoreMeta 0 "10.0.0.5" 6379 0 0 REPL_TRANSFER]> ∅) [].

(** * Properties *)

(** ** Vectors and outcomes *)

Lemma vec_at_Returns {A} (v : list A) (i : nat) (a : A) :
  vec_at v i = Returns a ↔ v !! i = Some a.
Proof.
  unfold vec_at. destruct (v !! i); split; intros E; congruence.
Qed.

Lemma vec_at_lt {A} (v : list A) (i : nat) :
  (i < length v)%nat → ∃ a, v !! i = Some a ∧ vec_at v i = Returns a.
Proof.
  intros Hi. destruct (lookup_lt_is_Some_2 v i Hi) as [a Ha].
  exists a. split; [done|]. by apply vec_at_Returns.
Qed.

Lemma vec_set_lt {A} (v : list A) (i : nat) (a : A) :
  (i < length v)%nat → vec_set v i a = Returns (<[i := a]> v).
Proof.
  intros Hi. unfold vec_set.
  by destruct (lookup_lt_is_Some_2 v i Hi) as [b ->].
Qed.

Lemma vec_set_Returns {A} (v v' : list A) (i : nat) (a : A) :
  vec_set v i a = Returns v' → v' = <[i := a]> v ∧ (i < length v)%nat.
Proof.
  unfold vec_set. destruct (v !! i) eqn:E; [|done].
  intros [= <-]. split; [done|]. by eapply lookup_lt_Some.
Qed.

Lemma bind_Returns {A B} (c : Outcome A) (k : A → Outcome B) (b : B) :
  c ≫= k = Returns b ↔ ∃ a, c = Returns a ∧ k a = Returns b.
Proof.
  destruct c; simpl; split.
  - intros E. by exists a.
  - by intros (a' & [= ->] & E).
  - done.
  - by intros (? & ? & ?).
  - done.
  - by intros (? & ? & ?).
Qed.

(** ** Stopping a store *)

(** C10.  On a started manager and a store of the node, [stopStore] returns
    OK and the manager it leaves is the one it was given except for four
    entries at [storeId]: the slave slot and the recycle slot with
    [nextSchedTime] at the maximum, every incremental subscriber with
    [nextSchedTime] at the maximum, and no full push.  The meta data, the
    server (store modes, catalog), the connect timeout, the keys of
    [_pushStatus[storeId]], the [isRunning] flags, [firstBinlogId] and
    [fileSeq], and the entries of the other stores are the same. *)
Theorem stopStore_frame (m : ReplManager) (storeId : nat) :
  sized m → (storeId < getKVStoreCount (_svr m))%nat →
  ∃ sp rb pushes,
    _syncStatus m !! storeId = Some sp ∧
    _logRecycStatus m !! storeId = Some rb ∧
    _pushStatus m !! storeId = Some pushes ∧
    stopStore m storeId =
      Returns (OK,
        mkReplManager (_isRunning m) (_svr m) (_syncMeta m)
          (<[storeId := mkSPovStatus (sp_isRunning sp) (sp_sessionId sp)
                          time_point_max (sp_lastSyncTime sp)]>
             (_syncStatus m))
          (<[storeId := mp_with_nextSchedTime time_point_max <$> pushes]>
             (_pushStatus m))
          (<[storeId := ∅]> (_fullPushStatus m))
          (<[storeId := mkRecycleBinlogStatus (rb_isRunning rb) time_point_max
                          (firstBinlogId rb) (lastFlushBinlogId rb)
                          (fileSeq rb) (timestamp rb) (fileCreateTime rb)
                          (fileSize rb) (fs rb)]>
             (_logRecycStatus m))
          (_connectMasterTimeoutMs m)) ∧
    dom (mp_with_nextSchedTime time_point_max <$> pushes) = dom pushes ∧
    (∀ c p', (mp_with_nextSchedTime time_point_max <$> pushes) !! c = Some p' →
       ∃ p, pushes !! c = Some p ∧
            p' = mkMPovStatus (mp_isRunning p) (mp_dstStoreId p)
                   (mp_binlogPos p) time_point_max (mp_client p)
                   (mp_clientId p) (slave_listen_ip p) (slave_listen_port p)).
Proof.
  intros (Hmeta & Hsync & Hpush & Hfull & Hrec) Hlt.
  destruct (vec_at_lt (_syncStatus m) storeId) as (sp & Hsp & Esp); [lia|].
  destruct (vec_at_lt (_logRecycStatus m) storeId) as (rb & Hrb & Erb); [lia|].
  destruct (vec_at_lt (_pushStatus m) storeId) as (pushes & Hps & Eps); [lia|].
  exists sp, rb, pushes. split_and!; try done.
  - unfold stopStore.
    rewrite bool_decide_eq_true_2 by done. simpl.
    rewrite Esp. simpl. rewrite vec_set_lt by lia. simpl.
    rewrite Erb. simpl. rewrite vec_set_lt by lia. simpl.
    rewrite Eps. simpl. rewrite vec_set_lt by lia. simpl.
    rewrite vec_set_lt by lia. reflexivity.
  - apply dom_fmap_L.
  - intros c p' Hc. rewrite lookup_fmap in Hc.
    destruct (pushes !! c) as [p|] eqn:Ep; [|done].
    exists p. split; [done|]. simpl in Hc. by injection Hc as <-.
Qed.

Lemma stopStore_frame_witness :
  ∃ sp rb pushes,
    _syncStatus exManager !! 0%nat = Some sp ∧
    _logRecycStatus exManager !! 0%nat = Some rb ∧
    _pushStatus exManager !! 0%nat = Some pushes ∧
    stopStore exManager 0 =
      Returns (OK,
        mkReplManager (_isRunning exManager) (_svr exManager)
          (_syncMeta exManager)
          (<[0%nat := mkSPovStatus (sp_isRunning sp) (sp_sessionId sp)
                          time_point_max (sp_lastSyncTime sp)]>
             (_syncStatus exManager))
          (<[0%nat := mp_with_nextSchedTime time_point_max <$> pushes]>
             (_pushStatus exManager))
          (<[0%nat := ∅]> (_fullPushStatus exManager))
          (<[0%nat := mkRecycleBinlogStatus (rb_isRunning rb) time_point_max
                          (firstBinlogId rb) (lastFlushBinlogId rb)
                          (fileSeq rb) (timestamp rb) (fileCreateTime rb)
                          (fileSize rb) (fs rb)]>
             (_logRecycStatus exManager))
          (_connectMasterTimeoutMs exManager)) ∧
    dom (mp_with_nextSchedTime time_point_max <$> pushes) = dom pushes ∧
    (∀ c p', (mp_with_nextSchedTime time_point_max <$> pushes) !! c = Some p' →
       ∃ p, pushes !! c = Some p ∧
            p' = mkMPovStatus (mp_isRunning p) (mp_dstStoreId p)
                   (mp_binlogPos p) time_point_max (mp_client p)
                   (mp_clientId p) (slave_listen_ip p) (slave_listen_port p)).
Proof.
  apply (stopStore_frame exManager 0).
  - unfold sized. simpl. repeat split; reflexivity.
  - simpl. lia.
Defined.

(** ** Garbage collection of the full pushes *)

Lemma recycleFullPushLoop_Returns now todo m m' :
  recycleFullPushLoop now todo m = Returns m' →
  m' = m ∧ Forall (λ kv, fullPushTimedOut now kv.2 = false) todo.
Proof.
  revert m. induction todo as [|kv todo IH]; intros m; simpl.
  - intros [= <-]. by split.
  - unfold recycleFullPushBody.
    destruct (fullPushTimedOut now kv.2) eqn:E; [done|].
    intros H. destruct (IH _ H) as [-> HF]. split; [done|].
    by constructor.
Qed.

Lemma recycleFullPushLoop_Undefined now todo m :
  Exists (λ kv, fullPushTimedOut now kv.2 = true) todo →
  recycleFullPushLoop now todo m = Undefined.
Proof.
  revert m. induction todo as [|kv todo IH]; intros m Hex; simpl.
  - by apply Exists_nil in Hex.
  - unfold recycleFullPushBody.
    destruct (fullPushTimedOut now kv.2) eqn:E; [done|].
    apply IH. apply Exists_cons in Hex as [Hex|Hex]; [congruence|done].
Qed.

Lemma recycleFullPushStores_Returns now v v' :
  recycleFullPushStores now v = Returns v' →
  v' = v ∧
  ∀ i fulls k e, v !! i = Some fulls → fulls !! k = Some e →
    fullPushTimedOut now e = false.
Proof.
  revert v'. induction v as [|m v IH]; intros v'; simpl.
  - intros [= <-]. split; [done|]. intros i ? ? ? Hi. by destruct i.
  - intros H. apply bind_Returns in H as (m' & Hm & H).
    apply bind_Returns in H as (v'' & Hv & H).
    injection H as <-.
    apply recycleFullPushLoop_Returns in Hm as [-> HF].
    destruct (IH _ Hv) as [-> Hrest]. split; [done|].
    intros [|i] fulls k e Hi Hk; simpl in Hi.
    + injection Hi as <-.
      rewrite Forall_forall in HF.
      apply (HF (k, e)). by apply elem_of_map_to_list.
    + by eapply Hrest.
Qed.

(** A run of the collector that is defined removes nothing: no entry was
    due for removal. *)
Lemma recycleFullPushStatus_Returns now m m' :
  recycleFullPushStatus now m = Returns m' →
  m' = m ∧
  ∀ i fulls k e, _fullPushStatus m !! i = Some fulls → fulls !! k = Some e →
    fullPushTimedOut now e = false.
Proof.
  unfold recycleFullPushStatus. intros H.
  apply bind_Returns in H as (v & Hv & H). injection H as <-.
  apply recycleFullPushStores_Returns in Hv as [-> Hno].
  split; [by destruct m|done].
Qed.

Lemma recycleFullPushLoop_not_Fatal now todo m :
  recycleFullPushLoop now todo m ≠ Fatal.
Proof.
  revert m. induction todo as [|kv todo IH]; intros m; simpl; [done|].
  unfold recycleFullPushBody.
  destruct (fullPushTimedOut now kv.2); [done|apply IH].
Qed.

Lemma recycleFullPushStores_not_Fatal now v :
  recycleFullPushStores now v ≠ Fatal.
Proof.
  induction v as [|m v IH]; simpl; [done|].
  pose proof (recycleFullPushLoop_not_Fatal now (map_to_list m) m).
  destruct (recycleFullPushLoop now (map_to_list m) m); simpl; [|done|done].
  destruct (recycleFullPushStores now v); simpl; done.
Qed.

(** As soon as one entry is due for removal the run is undefined. *)
Lemma recycleFullPushStatus_Undefined now m i fulls k e :
  _fullPushStatus m !! i = Some fulls → fulls !! k = Some e →
  fullPushTimedOut now e = true →
  recycleFullPushStatus now m = Undefined.
Proof.
  intros Hi Hk He.
  destruct (recycleFullPushStatus now m) as [m'| |] eqn:E; [| |done].
  - apply recycleFullPushStatus_Returns in E as [_ Hno].
    rewrite (Hno _ _ _ _ Hi Hk) in He. done.
  - unfold recycleFullPushStatus in E.
    pose proof (recycleFullPushStores_not_Fatal now (_fullPushStatus m)).
    destruct (recycleFullPushStores now (_fullPushStatus m)); simpl in E; done.
Qed.

(** C8, at the failing input.  Store 0 of the example node has one full
    push, in state SUCCESS, that ended at instant 0.  At instant 601 s the
    collector erases it inside the range-based [for] and then advances the
    iterator of the erased entry: the run has no defined result, so neither
    the removal of the entries that are due nor the survival of the others
    is guaranteed. *)
Theorem recycleFullPushStatus_erase_in_loop :
  fullPushTimedOut (seconds 601) (mkMPovFullPushStatus SUCESS 180 0 0) = true ∧
  _fullPushStatus exManager !! 0%nat =
    Some (<["n1" := mkMPovFullPushStatus SUCESS 180 0 0]> ∅) ∧
  recycleFullPushStatus (seconds 601) exManager = Undefined.
Proof.
  split_and!; [vm_compute; reflexivity|reflexivity|].
  eapply (recycleFullPushStatus_Undefined (seconds 601) exManager 0
            (<["n1" := mkMPovFullPushStatus SUCESS 180 0 0]> ∅) "n1"
            (mkMPovFullPushStatus SUCESS 180 0 0)).
  - reflexivity.
  - apply lookup_insert_eq.
  - vm_compute. reflexivity.
Qed.

(** ** Recycling the binlog *)



(** What a run that reaches [truncateBinlogV2] read under [_mutex]. *)
Lemma recycleBinlogBody_truncate e storeId m x call :
  recycleBinlogBody e storeId m = Returns x →
  x_truncate x = Some call →
  ∃ meta rb fulls pushes,
    _syncMeta m !! storeId = Some meta ∧
    _logRecycStatus m !! storeId = Some rb ∧
    _fullPushStatus m !! storeId = Some fulls ∧
    _pushStatus m !! storeId = Some pushes ∧
    x_saveLogs x = Some (recycleSaveLogs meta pushes) ∧
    tc_start call = firstBinlogId rb ∧
    tc_end call = recycleEnd fulls pushes ∧
    (is_Some (tc_sink call) ↔ recycleSaveLogs meta pushes = true).
Proof.
  unfold recycleBinlogBody. intros H Hcall.
  destruct (re_getDb e) as [[|]|]; simpl in H;
    try (injection H as <-; simpl in Hcall; discriminate).
  apply bind_Returns in H as (meta & Hmeta%vec_at_Returns & H).
  apply bind_Returns in H as (pushes & Hpushes%vec_at_Returns & H).
  apply bind_Returns in H as (rb & Hrb%vec_at_Returns & H).
  apply bind_Returns in H as (fulls & Hfulls%vec_at_Returns & H).
  exists meta, rb, fulls, pushes.
  destruct (re_createTransaction e);
    [|injection H as <-; simpl in Hcall; discriminate].
  destruct (recycleSaveLogs meta pushes) eqn:Esave.
  - destruct (re_getCurBinlogFs e storeId m) as [sink m1].
    destruct sink as [h|]; simpl in H;
      [|injection H as <-; simpl in Hcall; discriminate].
    destruct (re_truncateBinlogV2 e _ _ _);
      [destruct (re_commit e)|];
      injection H as <-; simpl in Hcall; injection Hcall as <-; simpl;
      split_and!; try done; try (split; eauto).
  - simpl in H.
    destruct (re_truncateBinlogV2 e _ _ _);
      [destruct (re_commit e)|];
      injection H as <-; simpl in Hcall; injection Hcall as <-; simpl;
      split_and!; try done; try (split; [by intros [? ?]|done]).
Qed.







(** The guard on a slot that is marked running: it installs
    [TXNID_UNINITED] after an error, the value of [start] otherwise, and is
    undefined when [start] holds none. *)
Lemma recycleGuard_spec `{TransactionIds} storeId x rb :
  _logRecycStatus (x_mgr x) !! storeId = Some rb →
  rb_isRunning rb = true →
  recycleGuard storeId x =
    match (if x_hasError x then Some TXNID_UNINITED else x_start x) with
    | Some first =>
        Returns (with_logRecycStatus
                   (<[storeId :=
                       mkRecycleBinlogStatus false
                         (if bool_decide (rb_nextSchedTime rb < x_nextSched x)
                          then x_nextSched x else rb_nextSchedTime rb)
                         first (lastFlushBinlogId rb) (fileSeq rb)
                         (timestamp rb) (fileCreateTime rb) (fileSize rb)
                         (fs rb)]> (_logRecycStatus (x_mgr x)))
                   (x_mgr x))
    | None => Undefined
    end.
Proof.
  intros Hrb Hrun. unfold recycleGuard.
  apply vec_at_Returns in Hrb as Hat. rewrite Hat. simpl.
  rewrite Hrun. simpl.
  destruct (x_hasError x); simpl.
  - rewrite vec_set_lt by (by eapply lookup_lt_Some). simpl.
    by destruct (bool_decide _).
  - destruct (x_start x); simpl; [|done].
    rewrite vec_set_lt by (by eapply lookup_lt_Some). simpl.
    by destruct (bool_decide _).
Qed.

(** The early return of a store that is not running leaves [start]
    without a value, and the guard reads it. *)
Lemma recycleBinlog_store_not_running `{TransactionIds} e storeId m rb :
  re_getDb e = Value false →
  _logRecycStatus m !! storeId = Some rb →
  rb_isRunning rb = true →
  recycleBinlog e storeId m = Undefined.
Proof.
  intros Hdb Hrb Hrun. unfold recycleBinlog, recycleBinlogBody.
  rewrite Hdb. simpl.
  by rewrite (recycleGuard_spec storeId _ rb).
Qed.

(** A run that commits installs the [newStart] the store answered. *)
Lemma recycleBinlog_committed `{TransactionIds} e storeId m m' :
  recycleBinlog e storeId m = Returns m' →
  ∀ x, recycleBinlogBody e storeId m = Returns x → x_hasError x = false →
  ∃ s rb', x_start x = Some s ∧
           _logRecycStatus m' !! storeId = Some rb' ∧
           firstBinlogId rb' = s ∧ rb_isRunning rb' = false.
Proof.
  unfold recycleBinlog. intros Hr x Hx Herr. rewrite Hx in Hr. simpl in Hr.
  unfold recycleGuard in Hr.
  apply bind_Returns in Hr as (rb & Hrb%vec_at_Returns & Hr).
  apply bind_Returns in Hr as ([] & _ & Hr).
  rewrite Herr in Hr. destruct (x_start x) as [s|]; [|done]. simpl in Hr.
  apply bind_Returns in Hr as (l & [-> Hlt]%vec_set_Returns & Hr).
  injection Hr as <-. eexists s, _. split; [done|]. simpl.
  rewrite list_lookup_insert_eq by done.
  split_and!; [reflexivity|..]; by destruct (bool_decide _).
Qed.

(** A run that fails installs [TXNID_UNINITED]. *)
Lemma recycleBinlog_failed `{TransactionIds} e storeId m m' :
  recycleBinlog e storeId m = Returns m' →
  ∀ x, recycleBinlogBody e storeId m = Returns x → x_hasError x = true →
  ∃ rb', _logRecycStatus m' !! storeId = Some rb' ∧
         firstBinlogId rb' = TXNID_UNINITED ∧ rb_isRunning rb' = false.
Proof.
  unfold recycleBinlog. intros Hr x Hx Herr. rewrite Hx in Hr. simpl in Hr.
  unfold recycleGuard in Hr.
  apply bind_Returns in Hr as (rb & Hrb%vec_at_Returns & Hr).
  apply bind_Returns in Hr as ([] & _ & Hr).
  rewrite Herr in Hr. simpl in Hr.
  apply bind_Returns in Hr as (l & [-> Hlt]%vec_set_Returns & Hr).
  injection Hr as <-. eexists. simpl.
  rewrite list_lookup_insert_eq by done.
  split_and!; [reflexivity|..]; by destruct (bool_decide _).
Qed.

(** C2, at the failing input.  The recycle slot of store 0 of the example
    node is running with [firstBinlogId = 100].  When the store is not
    running the function returns early without an error and before any
    assignment to [start]; the guard then executes
    [v->firstBinlogId = start] on the local that was declared without a
    value: the run installs no determined lower bound, whatever the
    reserved transaction ids are. *)
Theorem recycleBinlog_not_running_reads_unset_start :
  ∀ T : TransactionIds,
    (firstBinlogId <$> _logRecycStatus exManager !! 0%nat) = Some 100 ∧
    recycleBinlogBody (exRecycleEnv false) 0 exManager =
      Returns (mkRecycleExit (seconds 1000 + seconds 1) None false None None
                 exManager) ∧
    @recycleBinlog T (exRecycleEnv false) 0 exManager = Undefined.
Proof.
  intros T. split_and!; [reflexivity|reflexivity|].
  by apply (recycleBinlog_store_not_running (exRecycleEnv false) 0 exManager
              (mkRecycleBinlogStatus true 0 100 0 3 0 0 0 None)).
Qed.

(** ** Changing the replication source *)

(** C4, as stated, fails.  Store 1 of the example node is attached, a slave
    job is in flight for it, the connect timeout is 1000 and no other
    thread touches the manager during the wait.  The detach request times
    out, and the manager it leaves is not the one it was given:
    [_connectMasterTimeoutMs] is 1. *)
Lemma changeReplSource_timeout_not_unchanged :
  _connectMasterTimeoutMs exManager = 1000 ∧
  ∃ m',
    @changeReplSource upstreamTxnIds exChangeEnv 1 "" 0 0 exManager =
      Returns (mkStatus ERR_TIMEOUT "wait for yeild failed", m') ∧
    _connectMasterTimeoutMs m' = 1 ∧
    m' ≠ exManager.
Proof.
  split; [reflexivity|].
  exists (with_connectMasterTimeoutMs 1 exManager).
  split_and!; [vm_compute; reflexivity|reflexivity|].
  intros E. apply (f_equal _connectMasterTimeoutMs) in E. discriminate E.
Qed.

(** C4, amended.  On an open store (empty, when the request attaches) whose
    slave slot is still running when the wait of [oldTimeout + 2000] ms
    ends, [changeReplSource] returns the TIMEOUT status, and all it has
    written is [_connectMasterTimeoutMs], set before the wait to 1000 for
    an attach and to 1 for a detach: the manager is what the other threads
    made, during the wait, of the given one with that timeout.  When they
    leave it alone, the meta data, the server (store modes, catalog), the
    slave slots, the subscribers and the recycle slots are the given
    ones. *)
Theorem changeReplSource_timeout `{TransactionIds} (e : ChangeEnv)
  (storeId : nat) (ip : string) (port sourceStoreId : Z) (m : ReplManager)
  (isEmpty : bool) :
  let m1 := with_connectMasterTimeoutMs
              (if bool_decide (ip ≠ "") then 1000 else 1) m in
  let m2 := ce_others e (_connectMasterTimeoutMs m + 2000) m1 in
  ce_getDb e = Value (true, isEmpty) →
  (ip ≠ "" → isEmpty = true) →
  slaveIdle storeId m1 = Returns false →
  slaveIdle storeId m2 = Returns false →
  changeReplSource e storeId ip port sourceStoreId m =
    Returns (mkStatus ERR_TIMEOUT "wait for yeild failed", m2) ∧
  (m2 = m1 →
     _connectMasterTimeoutMs m2 = (if bool_decide (ip ≠ "") then 1000 else 1) ∧
     _isRunning m2 = _isRunning m ∧ _svr m2 = _svr m ∧
     _syncMeta m2 = _syncMeta m ∧ _syncStatus m2 = _syncStatus m ∧
     _pushStatus m2 = _pushStatus m ∧
     _fullPushStatus m2 = _fullPushStatus m ∧
     _logRecycStatus m2 = _logRecycStatus m).
Proof.
  intros m1 m2 Hdb Hempty Hidle1 Hidle2. split.
  - unfold changeReplSource. rewrite Hdb. simpl.
    assert (bool_decide (ip ≠ "") && negb isEmpty = false) as ->.
    { destruct (decide (ip ≠ "")) as [Hip|Hip].
      - rewrite (Hempty Hip). by rewrite andb_false_r.
      - by rewrite (bool_decide_eq_false_2 _ Hip). }
    unfold changeReplSourceInLock, cv_wait_for.
    assert ((if bool_decide (ip ≠ "")
             then with_connectMasterTimeoutMs 1000 m
             else with_connectMasterTimeoutMs 1 m) = m1) as ->.
    { subst m1. by destruct (bool_decide (ip ≠ "")). }
    rewrite Hidle1. simpl. fold m2. rewrite Hidle2. reflexivity.
  - intros ->. subst m1. simpl. by split_and!.
Qed.

Lemma changeReplSource_timeout_witness :
  @changeReplSource upstreamTxnIds exChangeEnv 1 "" 0 0 exManager =
    Returns (mkStatus ERR_TIMEOUT "wait for yeild failed",
             with_connectMasterTimeoutMs 1 exManager).
Proof.
  apply (@changeReplSource_timeout upstreamTxnIds exChangeEnv 1 "" 0 0
           exManager true).
  - reflexivity.
  - intros _. reflexivity.
  - reflexivity.
  - reflexivity.
Defined.

(** C5, as stated, fails.  Store 0 of the example node is open, detached
    and idle, and the connect timeout is 1000 (the value the constructor
    gives it).  The detach request returns OK and the connect timeout
    is 1. *)
Lemma changeReplSource_detached_not_noop :
  _connectMasterTimeoutMs exManager = 1000 ∧
  (syncFromHost <$> _syncMeta exManager !! 0%nat) = Some "" ∧
  ∃ m',
    @changeReplSource upstreamTxnIds exChangeEnv 0 "" 0 0 exManager =
      Returns (OK, m') ∧
    _connectMasterTimeoutMs m' = 1 ∧
    m' ≠ exManager.
Proof.
  split_and!; [reflexivity|reflexivity|].
  exists (with_connectMasterTimeoutMs 1 exManager).
  split_and!; [vm_compute; reflexivity|reflexivity|].
  intros E. apply (f_equal _connectMasterTimeoutMs) in E. discriminate E.
Qed.

(** C5, amended.  On an open store that is detached and whose slave slot
    is idle, [changeReplSource(i, "", 0, 0)] returns OK (the second look-up
    of the store succeeding) and leaves the manager as it was except for
    [_connectMasterTimeoutMs], which is 1 afterwards: the meta data, the
    slave slots, the server with the store modes and the catalog, the
    subscribers and the recycle slots are unchanged. *)
Theorem changeReplSource_detached `{TransactionIds} (e : ChangeEnv)
  (i : nat) (m : ReplManager) (isEmpty : bool) (meta : StoreMeta)
  (sp : SPovStatus) :
  ce_getDb e = Value (true, isEmpty) →
  ce_getDbInLock e = Value () →
  _syncMeta m !! i = Some meta → syncFromHost meta = "" →
  _syncStatus m !! i = Some sp → sp_isRunning sp = false →
  changeReplSource e i "" 0 0 m =
    Returns (OK,
      mkReplManager (_isRunning m) (_svr m) (_syncMeta m) (_syncStatus m)
        (_pushStatus m) (_fullPushStatus m) (_logRecycStatus m) 1).
Proof.
  intros Hdb Hdb2 Hmeta Hhost Hsp Hrun.
  unfold changeReplSource. rewrite Hdb. simpl.
  unfold changeReplSourceInLock, cv_wait_for, slaveIdle. simpl.
  apply vec_at_Returns in Hsp as ->. simpl. rewrite Hrun. simpl.
  rewrite bool_decide_eq_false_2
    by (apply Nat.lt_nge; by eapply lookup_lt_Some).
  rewrite Hdb2. apply vec_at_Returns in Hmeta as ->. simpl.
  rewrite bool_decide_eq_true_2 by done. reflexivity.
Qed.

Lemma changeReplSource_detached_witness :
  @changeReplSource upstreamTxnIds exChangeEnv 0 "" 0 0 exManager =
    Returns (OK,
      mkReplManager (_isRunning exManager) (_svr exManager)
        (_syncMeta exManager) (_syncStatus exManager)
        (_pushStatus exManager) (_fullPushStatus exManager)
        (_logRecycStatus exManager) 1).
Proof.
  apply (@changeReplSource_detached upstreamTxnIds exChangeEnv 0 exManager
           true exMeta0 (mkSPovStatus false UINT64_MAX 0 0));
    reflexivity.
Defined.




(** ** The scan of the dump directory *)

Lemma scanDashes_dashFree a rest i first start end_ :
  dashFree a = true →
  scanDashes (a +:+ rest) i first start end_ =
    scanDashes rest (i + String.length a) first start end_.
Proof.
  revert i. induction a as [|c a IH]; intros i.
  - intros _. change ("" +:+ rest) with rest. f_equal. simpl. lia.
  - change (String c a +:+ rest) with (String c (a +:+ rest)). simpl.
    intros [Hc Ha]%andb_true_iff. apply negb_true_iff in Hc. rewrite Hc.
    rewrite IH by done. f_equal. lia.
Qed.

Lemma scanDashes_dash1 s i start end_ :
  scanDashes ("-" +:+ s) i 0 start end_ = scanDashes s (S i) 1 start end_.
Proof. reflexivity. Qed.

Lemma scanDashes_dash2 s i start end_ :
  scanDashes ("-" +:+ s) i 1 start end_ = scanDashes s (S i) 2 (S i) end_.
Proof. reflexivity. Qed.

Lemma scanDashes_dash3 s i start end_ :
  scanDashes ("-" +:+ s) i 2 start end_ = (start, i).
Proof. reflexivity. Qed.

Lemma substring_prefix c q :
  String.substring 0 (String.length c) (c +:+ q) = c.
Proof.
  induction c as [|y c IHc].
  - by destruct q.
  - change (String y c +:+ q) with (String y (c +:+ q)). simpl. by rewrite IHc.
Qed.

Lemma substring_skip p s n m :
  String.substring (String.length p + n) m (p +:+ s) = String.substring n m s.
Proof.
  induction p as [|x p IH]; [done|].
  change (String x p +:+ s) with (String x (p +:+ s)). simpl. exact IH.
Qed.

Lemma length_append p s :
  String.length (p +:+ s) = (String.length p + String.length s)%nat.
Proof.
  induction p as [|x p IH]; [done|].
  change (String x p +:+ s) with (String x (p +:+ s)). simpl. by rewrite IH.
Qed.

(** The text handed to [stoul] is the third dash-separated field of a name
    that has at least four. *)
Lemma fileSeqField_third a b c d :
  dashFree a = true → dashFree b = true → dashFree c = true →
  Z.of_nat (String.length c) < 2 ^ 64 →
  fileSeqField (a +:+ "-" +:+ b +:+ "-" +:+ c +:+ "-" +:+ d) = c.
Proof.
  intros Ha Hb Hc Hlen. unfold fileSeqField.
  rewrite (scanDashes_dashFree a), scanDashes_dash1 by done.
  rewrite (scanDashes_dashFree b), scanDashes_dash2 by done.
  rewrite (scanDashes_dashFree c), scanDashes_dash3 by done.
  unfold substr. rewrite !length_append.
  change (String.length "-") with 1%nat.
  replace (Z.to_nat _) with (String.length c).
  2:{ rewrite Z.mod_small by lia. lia. }
  replace (S (S (0 + String.length a) + String.length b))
    with (String.length a + (1 + (String.length b + (1 + 0))))%nat by lia.
  rewrite (substring_skip a).
  change 1%nat with (String.length "-").
  rewrite (substring_skip "-"), (substring_skip b), (substring_skip "-").
  apply substring_prefix.
Qed.

(** With two dashes only, the difference [end - start] wraps around and
    the text is all that follows the second dash; with fewer it is
    empty. *)
Lemma fileSeqField_short :
  fileSeqField "binlog-0-5" = "5" ∧ fileSeqField "binlog-0" = "" ∧
  fileSeqField "binlog" = "".
Proof. split_and!; vm_compute; reflexivity. Qed.

Lemma maxDumpFileSeqLoop_Value `{StringUtils} subpath entries throws maxFno n :
  0 ≤ maxFno →
  maxDumpFileSeqLoop subpath entries throws maxFno = Returns (Value n) →
  maxFno ≤ n ∧
  (∀ p, p ∈ entries → is_regular_file p = true →
     ∃ v, stoul (parsedField subpath p) = Value v ∧ v ≤ n) ∧
  (n = maxFno ∨
   ∃ p, p ∈ entries ∧ is_regular_file p = true ∧
        stoul (parsedField subpath p) = Value n).
Proof.
  revert maxFno. induction entries as [|p entries IH]; intros maxFno Hpos; simpl.
  - destruct throws; [done|]. intros [= <-]. split_and!; [lia| |by left].
    intros p Hp. by apply elem_of_nil in Hp.
  - destruct (is_regular_file p) eqn:Ereg; simpl.
    + destruct (String.prefix subpath (path p)); simpl; [|done].
      fold (parsedField subpath p).
      destruct (stoul (parsedField subpath p)) as [fno|] eqn:Efno; [|done].
      destruct (stoul_range _ _ Efno) as [Hlo Hhi].
      destruct (bool_decide (UINT32_MAX ≤ fno)) eqn:Ebig; [done|].
      apply bool_decide_eq_false in Ebig.
      assert (fno `mod` 2 ^ 32 = fno) as ->.
      { apply Z.mod_small. unfold UINT32_MAX in Ebig. lia. }
      intros Hrun.
      assert (Hpos' : 0 ≤ Z.max maxFno fno) by lia.
      destruct (IH _ Hpos' Hrun) as (Hle & Hall & Hone).
      split_and!.
      * lia.
      * intros q Hq Hqreg. apply elem_of_cons in Hq as [->|Hq].
        -- exists fno. split; [done|lia].
        -- by apply Hall.
      * destruct Hone as [->|(q & Hq & Hqreg & Hqv)].
        -- destruct (Z.max_spec maxFno fno) as [[_ ->]|[_ ->]].
           ++ right. exists p. split_and!; [apply list_elem_of_here|done..].
           ++ by left.
        -- right. exists q. split_and!; [by apply list_elem_of_further|done..].
    + intros Hrun. destruct (IH _ Hpos Hrun) as (Hle & Hall & Hone).
      split_and!; [done| |].
      * intros q Hq Hqreg. apply elem_of_cons in Hq as [->|Hq]; [congruence|].
        by apply Hall.
      * destruct Hone as [->|(q & Hq & Hqreg & Hqv)]; [by left|].
        right. exists q. split_and!; [by apply list_elem_of_further|done..].
Qed.

Lemma maxDumpFileSeqLoop_Error `{StringUtils} subpath entries throws maxFno s :
  maxDumpFileSeqLoop subpath entries throws maxFno = Returns (Error s) →
  ok s = false.
Proof.
  revert maxFno. induction entries as [|p entries IH]; intros maxFno; simpl.
  - destruct throws; [|done]. by intros [= <-].
  - destruct (is_regular_file p); simpl; [|apply IH].
    destruct (String.prefix subpath (path p)); simpl; [|done].
    destruct (stoul _); [|done].
    destruct (bool_decide _); [by intros [= <-]|apply IH].
Qed.

(** What a scan that returns a sequence number returns: the largest of the
    numbers read from the regular files, 0 when there is none. *)
Lemma maxDumpFileSeq_Value `{StringUtils} dumpPath storeId dir n :
  maxDumpFileSeq dumpPath storeId dir = Returns (Value n) →
  0 ≤ n ∧
  (∀ p, p ∈ dd_entries dir → is_regular_file p = true →
     ∃ v, stoul (parsedField (dumpSubpath dumpPath storeId) p) = Value v ∧
          v ≤ n) ∧
  (n = 0 ∨
   ∃ p, p ∈ dd_entries dir ∧ is_regular_file p = true ∧
        stoul (parsedField (dumpSubpath dumpPath storeId) p) = Value n).
Proof.
  unfold maxDumpFileSeq. destruct (dd_create_throws dir); [done|].
  intros Hrun. by apply maxDumpFileSeqLoop_Value in Hrun.
Qed.

Lemma maxDumpFileSeq_Error `{StringUtils} dumpPath storeId dir s :
  maxDumpFileSeq dumpPath storeId dir = Returns (Error s) → ok s = false.
Proof.
  unfold maxDumpFileSeq. destruct (dd_create_throws dir).
  - by intros [= <-].
  - apply maxDumpFileSeqLoop_Error.
Qed.

(** ** [startup] *)

Lemma setStoreMode_frame answer i mode m :
  _syncMeta (setStoreMode answer i mode m) = _syncMeta m ∧
  _syncStatus (setStoreMode answer i mode m) = _syncStatus m ∧
  _pushStatus (setStoreMode answer i mode m) = _pushStatus m ∧
  _fullPushStatus (setStoreMode answer i mode m) = _fullPushStatus m ∧
  _logRecycStatus (setStoreMode answer i mode m) = _logRecycStatus m ∧
  getKVStoreCount (_svr (setStoreMode answer i mode m)) =
    getKVStoreCount (_svr m) ∧
  catalog (_svr (setStoreMode answer i mode m)) = catalog (_svr m).
Proof. unfold setStoreMode. by destruct (ok answer). Qed.

Ltac use_setStoreMode_frame :=
  match goal with
  | |- context [setStoreMode ?a ?i ?mode ?m0] =>
      let F1 := fresh in let F2 := fresh in let F3 := fresh in
      let F4 := fresh in let F5 := fresh in let F6 := fresh in
      let F7 := fresh in
      destruct (setStoreMode_frame a i mode m0)
        as (F1 & F2 & F3 & F4 & F5 & F6 & F7);
      simpl in *; rewrite ?F1, ?F2, ?F3, ?F4, ?F5, ?F6, ?F7; simpl
  end.

(** One turn of the second loop of [startup] that does not leave the
    function: one entry is appended to each of the four vectors, the metas
    keep their replication state, and the [fileSeq] of the new recycle slot
    of an open store is what the scan of its dump directory returned. *)
Lemma startStore_inr `{TransactionIds} `{StringUtils} e i m m' :
  startStore e i m = Returns (inr m') →
  ∃ sp rb,
    _syncStatus m' = _syncStatus m ++ [sp] ∧
    _pushStatus m' = _pushStatus m ++ [∅] ∧
    _fullPushStatus m' = _fullPushStatus m ++ [∅] ∧
    _logRecycStatus m' = _logRecycStatus m ++ [rb] ∧
    length (_syncMeta m') = length (_syncMeta m) ∧
    getKVStoreCount (_svr m') = getKVStoreCount (_svr m) ∧
    catalog (_svr m') = catalog (_svr m) ∧
    (∀ j meta', _syncMeta m' !! j = Some meta' →
       ∃ meta, _syncMeta m !! j = Some meta ∧
               replState meta' = replState meta) ∧
    (sb_getDb (su_store e i) = Value true →
     maxDumpFileSeq (su_dumpPath e) i (sb_dumpDir (su_store e i)) =
       Returns (Value (fileSeq rb))).
Proof.
  unfold startStore. intros Hrun.
  destruct (sb_getDb (su_store e i)) as [isOpen|s] eqn:Edb; [|done].
  simpl in Hrun.
  apply bind_Returns in Hrun as (r & Hr & Hrun).
  destruct r as [sm|[seq0 m1]]; [done|].
  set (tp := if isOpen then sb_now (su_store e i) else time_point_max) in *.
  exists (mkSPovStatus false UINT64_MAX tp tp).
  destruct isOpen.
  - apply bind_Returns in Hr as (meta & Hmeta%vec_at_Returns & Hr).
    simpl in Hmeta.
    apply bind_Returns in Hr as ([status m2] & Hst & Hr).
    destruct (ok status) eqn:Eok; simpl in Hr; [|done].
    apply bind_Returns in Hr as (ef & Hef & Hr).
    destruct ef as [v|]; [|done]. injection Hr as -> ->.
    assert (Hm1 :
      _syncStatus m1 = _syncStatus m ++ [mkSPovStatus false UINT64_MAX tp tp] ∧
      _pushStatus m1 = _pushStatus m ++ [∅] ∧
      _fullPushStatus m1 = _fullPushStatus m ++ [∅] ∧
      _logRecycStatus m1 = _logRecycStatus m ∧
      length (_syncMeta m1) = length (_syncMeta m) ∧
      getKVStoreCount (_svr m1) = getKVStoreCount (_svr m) ∧
      catalog (_svr m1) = catalog (_svr m) ∧
      (∀ j meta', _syncMeta m1 !! j = Some meta' →
         ∃ meta, _syncMeta m !! j = Some meta ∧
                 replState meta' = replState meta)).
    { destruct (bool_decide (syncFromHost meta = "")).
      - injection Hst as -> <-.
        use_setStoreMode_frame. split_and!; try done. intros j meta' Hj. by exists meta'.
      - simpl in Hst.
        apply bind_Returns in Hst as (l & [-> Hlt]%vec_set_Returns & Hst).
        injection Hst as -> <-. simpl.
        use_setStoreMode_frame. split_and!; try done.
        + by rewrite length_insert.
        + intros j meta' Hj. destruct (decide (i = j)) as [<-|Hne].
          * rewrite list_lookup_insert_eq in Hj
              by (by eapply lookup_lt_Some).
            injection Hj as <-. by exists meta.
          * rewrite list_lookup_insert_ne in Hj by done. by exists meta'. }
    destruct Hm1 as (E1 & E2 & E3 & E4 & E5 & E6 & E7 & E8).
    destruct (sb_createTransaction (su_store e i)); [|done].
    destruct (sb_getMinBinlog (su_store e i)) as [[binlog ts]|s].
    + injection Hrun as <-. eexists. simpl. rewrite E4.
      split_and!; try done.
    + destruct (bool_decide (code s = ERR_EXHAUST)); [|done].
      injection Hrun as <-. eexists. simpl. rewrite E4.
      split_and!; try done.
  - injection Hr as <- <-. injection Hrun as <-. eexists. simpl.
    split_and!; try done. intros j meta' Hj. by exists meta'.
Qed.

Lemma startStore_inl `{TransactionIds} `{StringUtils} e i m sm :
  startupEnvSound e →
  startStore e i m = Returns (inl sm) → ok sm.1 = false.
Proof.
  intros [_ Hsound]. destruct (Hsound i) as (Hdb & Htxn & Hmin).
  unfold startStore. intros Hrun.
  destruct (sb_getDb (su_store e i)) as [isOpen|s] eqn:Edb.
  2:{ injection Hrun as <-. by apply Hdb. }
  simpl in Hrun.
  apply bind_Returns in Hrun as (r & Hr & Hrun).
  destruct r as [sm'|[seq0 m1]].
  - injection Hrun as ->. destruct isOpen; [|done].
    apply bind_Returns in Hr as (meta & _ & Hr).
    apply bind_Returns in Hr as ([status m2] & _ & Hr).
    destruct (ok status) eqn:Eok; simpl in Hr.
    + apply bind_Returns in Hr as (ef & Hef & Hr).
      destruct ef as [v|s]; [done|]. injection Hr as <-.
      by eapply maxDumpFileSeq_Error.
    + by injection Hr as <-.
  - destruct isOpen.
    + destruct (sb_createTransaction (su_store e i)) as [|s] eqn:Et.
      2:{ injection Hrun as <-. by apply Htxn. }
      destruct (sb_getMinBinlog (su_store e i)) as [[binlog ts]|s] eqn:Em;
        [done|].
      destruct (bool_decide (code s = ERR_EXHAUST)); [done|].
      injection Hrun as <-. by apply Hmin.
    + done.
Qed.

Lemma forStores_seq_inr body (I : nat → ReplManager → Prop) :
  (∀ i m m', I i m → body i m = Returns (inr m') → I (S i) m') →
  ∀ n k m m',
    I k m → forStores body (seq k n) m = Returns (inr m') → I (k + n)%nat m'.
Proof.
  intros Hstep. induction n as [|n IH]; intros k m m' Hk; simpl.
  - intros [= <-]. by rewrite Nat.add_0_r.
  - intros Hrun. apply bind_Returns in Hrun as (r & Hr & Hrun).
    destruct r as [sm|m1]; [done|].
    rewrite <- Nat.add_succ_comm. eapply IH; [|done]. by eapply Hstep.
Qed.

Lemma forStores_inl body :
  (∀ i m sm, body i m = Returns (inl sm) → ok sm.1 = false) →
  ∀ idx m sm, forStores body idx m = Returns (inl sm) → ok sm.1 = false.
Proof.
  intros Hbody. induction idx as [|i idx IH]; intros m sm; simpl; [done|].
  intros Hrun. apply bind_Returns in Hrun as (r & Hr & Hrun).
  destruct r as [sm'|m1].
  - injection Hrun as <-. by eapply Hbody.
  - by eapply IH.
Qed.

Lemma loadMeta_inr `{TransactionIds} e i m m' :
  loadMeta e i m = Returns (inr m') →
  length (_syncMeta m') = S (length (_syncMeta m)) ∧
  _syncStatus m' = _syncStatus m ∧ _pushStatus m' = _pushStatus m ∧
  _fullPushStatus m' = _fullPushStatus m ∧
  _logRecycStatus m' = _logRecycStatus m ∧
  getKVStoreCount (_svr m') = getKVStoreCount (_svr m) ∧
  (noTransfer m → noTransfer m').
Proof.
  unfold loadMeta, getStoreMeta. intros Hrun.
  destruct (su_readFailure e i) as [s|].
  - destruct (bool_decide (code s = ERR_NOTFOUND)); [|done].
    destruct (ok (su_setStoreMeta e i)) eqn:Eok; [|done].
    simpl in Hrun. injection Hrun as <-. unfold setStoreMeta. rewrite Eok.
    simpl. rewrite length_app. simpl.
    split_and!; [lia|done..|].
    intros [Hmetas Hcat]. split.
    + intros j meta Hj. apply lookup_app_Some in Hj as [Hj|[_ Hj]].
      * by eapply Hmetas.
      * apply list_lookup_singleton_Some in Hj as [_ <-]. done.
    + intros j meta Hj. simpl in Hj.
      destruct (decide (i = j)) as [<-|Hne].
      * rewrite lookup_insert_eq in Hj. by injection Hj as <-.
      * rewrite lookup_insert_ne in Hj by done. by eapply Hcat.
  - destruct (catalog (_svr m) !! i) as [meta0|] eqn:Ecat.
    + injection Hrun as <-. simpl. rewrite length_app. simpl.
      split_and!; [lia|done..|].
      intros [Hmetas Hcat]. split; [|done].
      intros j meta Hj. apply lookup_app_Some in Hj as [Hj|[_ Hj]].
      * by eapply Hmetas.
      * apply list_lookup_singleton_Some in Hj as [_ <-]. by eapply Hcat.
    + simpl in Hrun.
      destruct (ok (su_setStoreMeta e i)) eqn:Eok; [|done].
      simpl in Hrun. injection Hrun as <-. unfold setStoreMeta. rewrite Eok.
      simpl. rewrite length_app. simpl.
      split_and!; [lia|done..|].
      intros [Hmetas Hcat]. split.
      * intros j meta Hj. apply lookup_app_Some in Hj as [Hj|[_ Hj]].
        -- by eapply Hmetas.
        -- apply list_lookup_singleton_Some in Hj as [_ <-]. done.
      * intros j meta Hj. simpl in Hj.
        destruct (decide (i = j)) as [<-|Hne].
        -- rewrite lookup_insert_eq in Hj. by injection Hj as <-.
        -- rewrite lookup_insert_ne in Hj by done. by eapply Hcat.
Qed.

Lemma loadMeta_inl `{TransactionIds} e i m sm :
  startupEnvSound e →
  loadMeta e i m = Returns (inl sm) → ok sm.1 = false.
Proof.
  intros [Hread _]. unfold loadMeta, getStoreMeta. intros Hrun.
  destruct (su_readFailure e i) as [s|] eqn:Es.
  - destruct (bool_decide (code s = ERR_NOTFOUND)).
    + destruct (ok (su_setStoreMeta e i)) eqn:Eok; [done|].
      by injection Hrun as <-.
    + injection Hrun as <-. by eapply Hread.
  - destruct (catalog (_svr m) !! i); [done|]. simpl in Hrun.
    destruct (ok (su_setStoreMeta e i)) eqn:Eok; [done|].
    by injection Hrun as <-.
Qed.

Lemma firstFailure_Some l s : firstFailure l = Some s → ok s = false.
Proof.
  induction l as [|s' l IH]; simpl; [done|].
  destruct (ok s') eqn:E; [done|]. by intros [= <-].
Qed.

(** What [startup] has established when it returns OK: the five vectors
    have one entry per store, no meta is in [REPL_TRANSFER] when none was
    in the catalog, and the [fileSeq] of the recycle slot of an open store
    is what the scan of its dump directory returned. *)
Lemma startup_OK `{TransactionIds} `{StringUtils} e sv m' :
  startupEnvSound e →
  startup e (newReplManager sv) = Returns (OK, m') →
  sized m' ∧
  getKVStoreCount (_svr m') = getKVStoreCount sv ∧
  (catalogClean sv → noTransfer m') ∧
  (∀ i rb, _logRecycStatus m' !! i = Some rb →
     sb_getDb (su_store e i) = Value true →
     maxDumpFileSeq (su_dumpPath e) i (sb_dumpDir (su_store e i)) =
       Returns (Value (fileSeq rb))).
Proof.
  intros Hsound. unfold startup.
  change (_svr (newReplManager sv)) with sv.
  set (n := getKVStoreCount sv). intros Hrun.
  apply bind_Returns in Hrun as (r & Hr & Hrun).
  destruct r as [sm|m1].
  { injection Hrun as ->.
    apply forStores_inl in Hr; [done|]. intros i m sm. by apply loadMeta_inl. }
  pose (I1 := λ (k : nat) (m : ReplManager),
    length (_syncMeta m) = k ∧ _syncStatus m = [] ∧ _pushStatus m = [] ∧
    _fullPushStatus m = [] ∧ _logRecycStatus m = [] ∧
    getKVStoreCount (_svr m) = n ∧ (catalogClean sv → noTransfer m)).
  assert (S1 : ∀ i m m2, I1 i m → loadMeta e i m = Returns (inr m2) →
                         I1 (S i) m2).
  { intros i m m2 (? & ? & ? & ? & ? & ? & ?) Hm2.
    apply loadMeta_inr in Hm2 as (? & ? & ? & ? & ? & ? & ?).
    unfold I1. split_and!; try congruence. eauto. }
  assert (B1 : I1 0%nat (newReplManager sv)).
  { unfold I1. simpl. by split_and!. }
  pose proof (forStores_seq_inr (loadMeta e) I1 S1 n 0%nat _ _ B1 Hr) as H1.
  destruct H1 as (L1 & L2 & L3 & L4 & L5 & L6 & L7). simpl in L1.
  apply bind_Returns in Hrun as ([] & _ & Hrun).
  destruct (firstMisplaced 0 (_syncMeta m1)) as [[i j]|]; [done|].
  destruct (firstFailure _) as [s|] eqn:Epool.
  { injection Hrun as -> <-. by apply firstFailure_Some in Epool. }
  apply bind_Returns in Hrun as (r & Hr2 & Hrun).
  destruct r as [sm|m2].
  { injection Hrun as ->.
    apply forStores_inl in Hr2; [done|]. intros i m sm. by apply startStore_inl. }
  apply bind_Returns in Hrun as ([] & _ & Hrun). injection Hrun as <-.
  pose (I2 := λ (k : nat) (m : ReplManager),
    length (_syncMeta m) = n ∧ length (_syncStatus m) = k ∧
    length (_pushStatus m) = k ∧ length (_fullPushStatus m) = k ∧
    length (_logRecycStatus m) = k ∧
    getKVStoreCount (_svr m) = n ∧ (catalogClean sv → noTransfer m) ∧
    (∀ i rb, _logRecycStatus m !! i = Some rb →
       sb_getDb (su_store e i) = Value true →
       maxDumpFileSeq (su_dumpPath e) i (sb_dumpDir (su_store e i)) =
         Returns (Value (fileSeq rb)))).
  assert (S2 : ∀ i m m3, I2 i m → startStore e i m = Returns (inr m3) →
                         I2 (S i) m3).
  { intros i m m3 (M1 & M2 & M3 & M4 & M5 & M6 & M7 & M8) Hm3.
    apply startStore_inr in Hm3
      as (sp & rb & E1 & E2 & E3 & E4 & E5 & E6 & E7 & E8 & E9).
    unfold I2. rewrite E1, E2, E3, E4, !length_app. simpl.
    split_and!; try lia.
    - intros Hclean. destruct (M7 Hclean) as [Hmetas Hcat]. split.
      + intros j meta' Hj. destruct (E8 _ _ Hj) as (meta & Hmeta & ->).
        by eapply Hmetas.
      + unfold catalogClean. rewrite E7. exact Hcat.
    - intros j rb' Hj Hopen. apply lookup_app_Some in Hj as [Hj|[Hge Hj]].
      + by eapply M8.
      + apply list_lookup_singleton_Some in Hj as [Hj <-].
        assert (j = i) as -> by lia. by apply E9. }
  assert (B2 : I2 0%nat m1).
  { unfold I2. rewrite L2, L3, L4, L5. simpl. by split_and!. }
  pose proof (forStores_seq_inr (startStore e) I2 S2 n 0%nat _ _ B2 Hr2) as H2.
  destruct H2 as (M1 & M2 & M3 & M4 & M5 & M6 & M7 & M8). simpl in *.
  split_and!; try done. unfold sized. simpl. rewrite M6. by split_and!.
Qed.

(** C6, as stated, fails.  On a fresh node whose dump directory of store 0
    holds the archive files of sequence numbers 5 and 2, [startup] seeds
    [fileSeq] of store 0 with 5: it is not strictly greater than the
    number 5 read from the first file. *)
Lemma startup_fileSeq_not_strictly_greater :
  ∃ m',
    @startup upstreamTxnIds decimalStringUtils exStartupEnv
      (newReplManager exFreshServer) = Returns (OK, m') ∧
    (fileSeq <$> _logRecycStatus m' !! 0%nat) = Some 5 ∧
    parsedField (dumpSubpath "dump" 0)
      (mkDirEntry "dump/0/binlog-0-0000005-20200101.log" true) = "0000005" ∧
    @stoul decimalStringUtils
      (parsedField (dumpSubpath "dump" 0)
         (mkDirEntry "dump/0/binlog-0-0000005-20200101.log" true)) = Value 5 ∧
    ¬ 5 < 5.
Proof.
  eexists. split_and!.
  - vm_compute. reflexivity.
  - reflexivity.
  - vm_compute. reflexivity.
  - vm_compute. reflexivity.
  - lia.
Qed.

(** C6, amended.  After a [startup] that returns OK, the recycle slot of
    every open store [i] holds as [fileSeq] the largest of the integers
    read from the third dash-separated field of the regular files under
    its dump directory: it is at least every such integer, it is one of
    them unless it is 0, and it is 0 when there is no regular file. *)
Theorem startup_fileSeq_is_max `{TransactionIds} `{StringUtils}
  (e : StartupEnv) (sv : ServerEntry) (m' : ReplManager) (i : nat) :
  startupEnvSound e →
  startup e (newReplManager sv) = Returns (OK, m') →
  (i < getKVStoreCount sv)%nat →
  sb_getDb (su_store e i) = Value true →
  ∃ rb,
    _logRecycStatus m' !! i = Some rb ∧
    0 ≤ fileSeq rb ∧
    (∀ p v, p ∈ dd_entries (sb_dumpDir (su_store e i)) →
       is_regular_file p = true →
       stoul (parsedField (dumpSubpath (su_dumpPath e) i) p) = Value v →
       v ≤ fileSeq rb) ∧
    (fileSeq rb = 0 ∨
     ∃ p, p ∈ dd_entries (sb_dumpDir (su_store e i)) ∧
          is_regular_file p = true ∧
          stoul (parsedField (dumpSubpath (su_dumpPath e) i) p) =
            Value (fileSeq rb)) ∧
    ((∀ p, p ∈ dd_entries (sb_dumpDir (su_store e i)) →
        is_regular_file p = false) → fileSeq rb = 0).
Proof.
  intros Hsound Hrun Hi Hopen.
  destruct (startup_OK e sv m' Hsound Hrun) as (Hsized & Hn & _ & Hseq).
  destruct Hsized as (_ & _ & _ & _ & Hlen).
  destruct (lookup_lt_is_Some_2 (_logRecycStatus m') i) as [rb Hrb]; [lia|].
  exists rb. split; [done|].
  destruct (maxDumpFileSeq_Value _ _ _ _ (Hseq _ _ Hrb Hopen))
    as (Hpos & Hall & Hone).
  split_and!; [done| |done|].
  - intros p v Hp Hreg Hv. destruct (Hall p Hp Hreg) as (v' & Hv' & Hle).
    congruence.
  - intros Hnone. destruct Hone as [->|(p & Hp & Hreg & _)]; [done|].
    rewrite (Hnone p Hp) in Hreg. done.
Qed.

Lemma exStartupEnv_sound : startupEnvSound exStartupEnv.
Proof.
  split.
  - intros i s Hs. discriminate Hs.
  - intros i. split_and!; intros s Hs;
      first [discriminate Hs | injection Hs as <-; reflexivity].
Qed.

Lemma exBooted_startup :
  @startup upstreamTxnIds decimalStringUtils exStartupEnv
    (newReplManager exFreshServer) = Returns (OK, exBooted).
Proof. vm_compute. reflexivity. Qed.

Lemma startup_fileSeq_is_max_witness :
  ∃ rb, _logRecycStatus exBooted !! 0%nat = Some rb ∧ 0 ≤ fileSeq rb.
Proof.
  destruct (@startup_fileSeq_is_max upstreamTxnIds decimalStringUtils
              exStartupEnv exFreshServer exBooted 0%nat)
    as (rb & Hrb & Hpos & _).
  - exact exStartupEnv_sound.
  - exact exBooted_startup.
  - simpl. lia.
  - reflexivity.
  - exists rb. split; [exact Hrb|exact Hpos].
Defined.

(** ** What the operations keep *)

Lemma keeps_refl m : keeps m m.
Proof. unfold keeps. by split_and!. Qed.

Lemma keeps_trans m1 m2 m3 : keeps m1 m2 → keeps m2 m3 → keeps m1 m3.
Proof.
  intros (A1 & A2 & A3 & A4 & A5 & A6 & A7) (B1 & B2 & B3 & B4 & B5 & B6 & B7).
  unfold keeps. split_and!; try congruence. eauto.
Qed.

Lemma keeps_sized m m' : keeps m m' → sized m → sized m'.
Proof.
  intros (A1 & A2 & A3 & A4 & A5 & A6 & A7) (B1 & B2 & B3 & B4 & B5).
  unfold sized. rewrite A6. split_and!; congruence.
Qed.

Lemma keeps_with_connectMasterTimeoutMs t m :
  keeps m (with_connectMasterTimeoutMs t m).
Proof. unfold keeps. simpl. by split_and!. Qed.

Lemma keeps_with_syncStatus l m :
  length l = length (_syncStatus m) → keeps m (with_syncStatus l m).
Proof. intros Hl. unfold keeps. simpl. by split_and!. Qed.

Lemma keeps_with_pushStatus l m :
  length l = length (_pushStatus m) → keeps m (with_pushStatus l m).
Proof. intros Hl. unfold keeps. simpl. by split_and!. Qed.

Lemma keeps_with_fullPushStatus l m :
  length l = length (_fullPushStatus m) → keeps m (with_fullPushStatus l m).
Proof. intros Hl. unfold keeps. simpl. by split_and!. Qed.

Lemma keeps_with_logRecycStatus l m :
  length l = length (_logRecycStatus m) → keeps m (with_logRecycStatus l m).
Proof. intros Hl. unfold keeps. simpl. by split_and!. Qed.

Lemma keeps_cancelSession sid m : keeps m (cancelSession sid m).
Proof. unfold keeps. simpl. by split_and!. Qed.

Lemma keeps_setStoreMode answer i mode m : keeps m (setStoreMode answer i mode m).
Proof.
  unfold keeps, setStoreMode. destruct (ok answer); simpl; by split_and!.
Qed.

Lemma keeps_changeReplStateInLock answer meta persist m m' :
  replState meta ≠ REPL_TRANSFER →
  changeReplStateInLock answer meta persist m = Returns m' →
  keeps m m'.
Proof.
  intros Hst. unfold changeReplStateInLock. intros Hrun.
  apply bind_Returns in Hrun as (m1 & Hm1 & Hrun).
  apply bind_Returns in Hrun as (l & [-> Hlt]%vec_set_Returns & Hrun).
  injection Hrun as <-.
  assert (K1 : keeps m m1).
  { destruct persist; [|injection Hm1 as <-; apply keeps_refl].
    destruct (ok answer) eqn:Eok; [|done]. injection Hm1 as <-.
    unfold setStoreMeta. rewrite Eok. unfold keeps. simpl.
    split_and!; try done. intros [Hmetas Hcat]. split; [done|].
    intros j meta' Hj. simpl in Hj.
    destruct (decide (meta_id meta = j)) as [<-|Hne].
    - rewrite lookup_insert_eq in Hj. by injection Hj as <-.
    - rewrite lookup_insert_ne in Hj by done. by eapply Hcat. }
  eapply keeps_trans; [exact K1|].
  unfold keeps. simpl. rewrite length_insert. split_and!; try done.
  intros [Hmetas Hcat]. split; [|done].
  intros j meta' Hj. simpl in Hj.
  destruct (decide (meta_id meta = j)) as [<-|Hne].
  - rewrite list_lookup_insert_eq in Hj by done. by injection Hj as <-.
  - rewrite list_lookup_insert_ne in Hj by done. by eapply Hmetas.
Qed.

Lemma keeps_changeReplSource `{TransactionIds} e storeId ip port sid m st m' :
  quiet e →
  changeReplSource e storeId ip port sid m = Returns (st, m') →
  keeps m m'.
Proof.
  intros Hquiet. unfold changeReplSource. intros Hrun.
  destruct (ce_getDb e) as [[isOpen isEmpty]|s].
  2:{ injection Hrun as _ <-. apply keeps_refl. }
  destruct isOpen; simpl in Hrun.
  2:{ injection Hrun as _ <-. apply keeps_refl. }
  destruct (bool_decide (ip ≠ "") && negb isEmpty).
  { injection Hrun as _ <-. apply keeps_refl. }
  apply bind_Returns in Hrun as ([s m1] & Hin & Hrun).
  assert (m' = m1) as ->.
  { destruct (ok s); simpl in Hrun; by injection Hrun as _ <-. }
  clear Hrun. unfold changeReplSourceInLock in Hin.
  set (m0 := if bool_decide (ip ≠ "")
             then with_connectMasterTimeoutMs 1000 m
             else with_connectMasterTimeoutMs 1 m) in Hin.
  assert (K0 : keeps m m0).
  { subst m0. destruct (bool_decide (ip ≠ ""));
      apply keeps_with_connectMasterTimeoutMs. }
  apply bind_Returns in Hin as ([yielded m2] & Hwait & Hin).
  assert (m2 = m0) as ->.
  { unfold cv_wait_for in Hwait.
    apply bind_Returns in Hwait as (b & _ & Hwait).
    destruct b; [by injection Hwait as _ <-|].
    apply bind_Returns in Hwait as (b' & _ & Hwait).
    injection Hwait as _ <-. apply Hquiet. }
  eapply keeps_trans; [exact K0|]. clear Hwait K0.
  destruct yielded; simpl in Hin.
  2:{ injection Hin as _ <-. apply keeps_refl. }
  destruct (bool_decide (length (_syncMeta m0) ≤ storeId)%nat).
  { injection Hin as _ <-. apply keeps_refl. }
  destruct (ce_getDbInLock e).
  2:{ injection Hin as _ <-. apply keeps_refl. }
  apply bind_Returns in Hin as (cur & Hcur & Hin).
  destruct (bool_decide (ip ≠ "")).
  - destruct (bool_decide (syncFromHost cur ≠ "")).
    { injection Hin as _ <-. apply keeps_refl. }
    destruct (ok (ce_setStoreMode e)); simpl in Hin.
    + apply bind_Returns in Hin as (m3 & Hm3 & Hin). injection Hin as _ <-.
      eapply keeps_trans; [apply keeps_with_connectMasterTimeoutMs|].
      eapply keeps_trans; [apply keeps_setStoreMode|].
      eapply keeps_changeReplStateInLock; [|exact Hm3]. done.
    + injection Hin as _ <-.
      eapply keeps_trans; [apply keeps_with_connectMasterTimeoutMs|].
      apply keeps_setStoreMode.
  - destruct (bool_decide (syncFromHost cur = "")).
    { injection Hin as _ <-. apply keeps_refl. }
    apply bind_Returns in Hin as (sp & Hsp & Hin).
    apply bind_Returns in Hin as (l & [-> Hlt]%vec_set_Returns & Hin).
    simpl in Hlt.
    assert (K3 : keeps m0
      (setStoreMode (ce_setStoreMode e) storeId READ_WRITE
         (with_syncStatus (<[storeId := sp_with_sessionId UINT64_MAX sp]>
                             (_syncStatus m0))
            (cancelSession (sp_sessionId sp)
               (with_connectMasterTimeoutMs 1 m0))))).
    { eapply keeps_trans; [apply keeps_with_connectMasterTimeoutMs|].
      eapply keeps_trans; [apply keeps_cancelSession|].
      eapply keeps_trans; [|apply keeps_setStoreMode].
      apply keeps_with_syncStatus. by rewrite length_insert. }
    destruct (ok (ce_setStoreMode e)); simpl in Hin.
    + apply bind_Returns in Hin as ([] & _ & Hin).
      apply bind_Returns in Hin as (m3 & Hm3 & Hin). injection Hin as _ <-.
      eapply keeps_trans; [exact K3|].
      eapply keeps_changeReplStateInLock; [|exact Hm3]. done.
    + injection Hin as _ <-. exact K3.
Qed.

Lemma keeps_stopStore m storeId st m' :
  stopStore m storeId = Returns (st, m') → keeps m m'.
Proof.
  unfold stopStore. intros Hrun.
  apply bind_Returns in Hrun as ([] & _ & Hrun).
  apply bind_Returns in Hrun as (sp & _ & Hrun).
  apply bind_Returns in Hrun as (l1 & [-> _]%vec_set_Returns & Hrun).
  apply bind_Returns in Hrun as (rb & _ & Hrun).
  apply bind_Returns in Hrun as (l2 & [-> _]%vec_set_Returns & Hrun).
  apply bind_Returns in Hrun as (ps & _ & Hrun).
  apply bind_Returns in Hrun as (l3 & [-> _]%vec_set_Returns & Hrun).
  apply bind_Returns in Hrun as (l4 & [-> _]%vec_set_Returns & Hrun).
  injection Hrun as _ <-. unfold keeps. simpl. rewrite !length_insert.
  by split_and!.
Qed.

(** ** The controller *)

Lemma forIndices_keeps body idx :
  (∀ i s s', body i s = Returns s' → keeps (sc_mgr s) (sc_mgr s')) →
  ∀ s s', forIndices body idx s = Returns s' → keeps (sc_mgr s) (sc_mgr s').
Proof.
  intros Hbody. induction idx as [|i idx IH]; intros s s'; simpl.
  - intros [= <-]. apply keeps_refl.
  - intros Hrun. apply bind_Returns in Hrun as (s1 & Hs1 & Hrun).
    eapply keeps_trans; [by eapply Hbody|by eapply IH].
Qed.

Lemma forIndices_Returns body (P : ReplManager → Prop) idx :
  (∀ m m', P m → keeps m m' → P m') →
  (∀ i s, i ∈ idx → P (sc_mgr s) →
     ∃ s', body i s = Returns s' ∧ keeps (sc_mgr s) (sc_mgr s')) →
  ∀ s, P (sc_mgr s) →
    ∃ s', forIndices body idx s = Returns s' ∧ keeps (sc_mgr s) (sc_mgr s').
Proof.
  intros HP. induction idx as [|i idx IH]; intros Hbody s Hs; simpl.
  - exists s. split; [done|apply keeps_refl].
  - destruct (Hbody i s) as (s1 & Hs1 & K1); [apply list_elem_of_here|done|].
    destruct (IH (λ j s Hj, Hbody j s (list_elem_of_further _ _ _ Hj)) s1)
      as (s2 & Hs2 & K2); [by eapply HP|].
    exists s2. rewrite Hs1. simpl. split; [done|by eapply keeps_trans].
Qed.

Lemma forIndices_not_Fatal body idx :
  (∀ i s, body i s ≠ Fatal) → ∀ s, forIndices body idx s ≠ Fatal.
Proof.
  intros Hbody. induction idx as [|i idx IH]; intros s; simpl; [done|].
  pose proof (Hbody i s). destruct (body i s); simpl; [apply IH|done|done].
Qed.

Lemma vec_at_not_Fatal {A} (v : list A) i : vec_at v i ≠ Fatal.
Proof. unfold vec_at. by destruct (v !! i). Qed.

Lemma vec_set_not_Fatal {A} (v : list A) i a : vec_set v i a ≠ Fatal.
Proof. unfold vec_set. by destruct (v !! i). Qed.

Lemma schedSlaveStep_keeps now i s s' :
  schedSlaveStep now i s = Returns s' → keeps (sc_mgr s) (sc_mgr s').
Proof.
  unfold schedSlaveStep. intros Hrun.
  apply bind_Returns in Hrun as (st & _ & Hrun).
  destruct (sp_isRunning st); [injection Hrun as <-; apply keeps_refl|].
  destruct (bool_decide (now < sp_nextSchedTime st));
    [injection Hrun as <-; apply keeps_refl|].
  apply bind_Returns in Hrun as (meta & _ & Hrun).
  destruct (bool_decide (replState meta = REPL_NONE));
    [injection Hrun as <-; apply keeps_refl|].
  destruct (replState meta); try done.
  - injection Hrun as <-. apply keeps_refl.
  - apply bind_Returns in Hrun as (l & [-> _]%vec_set_Returns & Hrun).
    injection Hrun as <-. simpl. apply keeps_with_syncStatus.
    by rewrite length_insert.
  - apply bind_Returns in Hrun as (l & [-> _]%vec_set_Returns & Hrun).
    injection Hrun as <-. simpl. apply keeps_with_syncStatus.
    by rewrite length_insert.
Qed.

(** On a started manager none of whose metas is in [REPL_TRANSFER], a turn
    of the slave scheduler returns. *)
Lemma schedSlaveStep_Returns now i s :
  sized (sc_mgr s) → noTransfer (sc_mgr s) →
  (i < getKVStoreCount (_svr (sc_mgr s)))%nat →
  ∃ s', schedSlaveStep now i s = Returns s'.
Proof.
  intros (L1 & L2 & _) [Hmetas _] Hi. unfold schedSlaveStep.
  destruct (vec_at_lt (_syncStatus (sc_mgr s)) i) as (st & Hst & ->); [lia|].
  simpl. destruct (sp_isRunning st); [by eexists|].
  destruct (bool_decide (now < sp_nextSchedTime st)); [by eexists|].
  destruct (vec_at_lt (_syncMeta (sc_mgr s)) i) as (meta & Hmeta & ->); [lia|].
  simpl. destruct (bool_decide (replState meta = REPL_NONE)); [by eexists|].
  pose proof (Hmetas _ _ Hmeta) as Hnt.
  destruct (replState meta); try done.
  - by eexists.
  - rewrite vec_set_lt by lia. by eexists.
  - rewrite vec_set_lt by lia. by eexists.
Qed.

Lemma schedMasterStep_keeps now i s s' :
  schedMasterStep now i s = Returns s' → keeps (sc_mgr s) (sc_mgr s').
Proof.
  unfold schedMasterStep. intros Hrun.
  apply bind_Returns in Hrun as (ps & _ & Hrun).
  apply bind_Returns in Hrun as (l & [-> _]%vec_set_Returns & Hrun).
  injection Hrun as <-. simpl. apply keeps_with_pushStatus.
  by rewrite length_insert.
Qed.

Lemma schedMasterStep_not_Fatal now i s : schedMasterStep now i s ≠ Fatal.
Proof.
  unfold schedMasterStep.
  pose proof (vec_at_not_Fatal (_pushStatus (sc_mgr s)) i).
  destruct (vec_at (_pushStatus (sc_mgr s)) i) as [ps| |]; simpl; [|done..].
  match goal with |- context [vec_set ?v ?j ?a] =>
    pose proof (vec_set_not_Fatal v j a); destruct (vec_set v j a) end;
    simpl; done.
Qed.

Lemma schedRecycLogStep_keeps now i s s' :
  schedRecycLogStep now i s = Returns s' → keeps (sc_mgr s) (sc_mgr s').
Proof.
  unfold schedRecycLogStep. intros Hrun.
  apply bind_Returns in Hrun as (rb & _ & Hrun).
  destruct (rb_isRunning rb || bool_decide (now < rb_nextSchedTime rb));
    [injection Hrun as <-; apply keeps_refl|].
  apply bind_Returns in Hrun as (l & [-> _]%vec_set_Returns & Hrun).
  injection Hrun as <-. simpl. apply keeps_with_logRecycStatus.
  by rewrite length_insert.
Qed.

Lemma schedRecycLogStep_not_Fatal now i s : schedRecycLogStep now i s ≠ Fatal.
Proof.
  unfold schedRecycLogStep.
  pose proof (vec_at_not_Fatal (_logRecycStatus (sc_mgr s)) i).
  destruct (vec_at (_logRecycStatus (sc_mgr s)) i) as [rb| |]; simpl; [|done..].
  destruct (rb_isRunning rb || bool_decide (now < rb_nextSchedTime rb));
    [done|].
  match goal with |- context [vec_set ?v ?j ?a] =>
    pose proof (vec_set_not_Fatal v j a); destruct (vec_set v j a) end;
    simpl; done.
Qed.

Lemma keeps_controlPass now now' m s :
  controlPass now now' m = Returns s → keeps m (sc_mgr s).
Proof.
  unfold controlPass. intros Hrun.
  apply bind_Returns in Hrun as (s1 & Hs1 & Hrun).
  apply bind_Returns in Hrun as (s2 & Hs2 & Hrun).
  apply bind_Returns in Hrun as (s3 & Hs3 & Hrun).
  injection Hrun as <-. simpl.
  apply (forIndices_keeps _ _ (schedSlaveStep_keeps now)) in Hs1.
  unfold schedMasterInLock in Hs2.
  apply bind_Returns in Hs2 as (m1 & [-> _]%recycleFullPushStatus_Returns & Hs2).
  apply (forIndices_keeps _ _ (schedMasterStep_keeps now)) in Hs2.
  apply (forIndices_keeps _ _ (schedRecycLogStep_keeps now)) in Hs3.
  simpl in *. eauto using keeps_trans.
Qed.

(** The managers the operations reach are started and hold no meta in
    [REPL_TRANSFER], when the catalog held none at boot. *)
Lemma reachable_inv `{TransactionIds} `{StringUtils} sv0 m :
  catalogClean sv0 → reachable sv0 m → sized m ∧ noTransfer m.
Proof.
  intros Hclean. induction 1 as
    [e m Hsound Hrun
    |e sv m m' Hreach IH Hcat Hsound Hrun
    |e storeId ip port sid m st m' Hreach IH Hquiet Hrun
    |storeId m st m' Hreach IH Hrun
    |now now' m s Hreach IH Hrun].
  - destruct (startup_OK _ _ _ Hsound Hrun) as (? & _ & Hnt & _). eauto.
  - destruct (startup_OK _ _ _ Hsound Hrun) as (? & _ & Hnt & _).
    split; [done|]. apply Hnt. unfold catalogClean. rewrite Hcat.
    by destruct IH as [_ [_ ?]].
  - destruct IH as [Hs Hnt].
    pose proof (keeps_changeReplSource _ _ _ _ _ _ _ _ Hquiet Hrun) as K.
    split; [by eapply keeps_sized|]. by apply K.
  - destruct IH as [Hs Hnt]. pose proof (keeps_stopStore _ _ _ _ Hrun) as K.
    split; [by eapply keeps_sized|]. by apply K.
  - destruct IH as [Hs Hnt]. pose proof (keeps_controlPass _ _ _ _ Hrun) as K.
    split; [by eapply keeps_sized|]. by apply K.
Qed.

Lemma schedSlaveInLock_Returns now m :
  sized m → noTransfer m →
  ∃ s, schedSlaveInLock now m = Returns s ∧ keeps m (sc_mgr s).
Proof.
  intros Hs Hnt. unfold schedSlaveInLock.
  set (n := getKVStoreCount (_svr m)).
  destruct (forIndices_Returns (schedSlaveStep now)
              (λ m', sized m' ∧ noTransfer m' ∧ getKVStoreCount (_svr m') = n)
              (seq 0 (length (_syncStatus m)))) with (s := mkSched false m [])
    as (s' & Hs' & K).
  - intros m1 m2 (S1 & N1 & C1) K. split_and!.
    + by eapply keeps_sized.
    + by apply K.
    + destruct K as (_ & _ & _ & _ & _ & -> & _). done.
  - intros i s Hi (S1 & N1 & C1). apply elem_of_seq in Hi.
    destruct Hs as (_ & L2 & _). fold n in L2.
    destruct (schedSlaveStep_Returns now i s S1 N1) as [s' Hs']; [lia|].
    exists s'. split; [done|]. by eapply schedSlaveStep_keeps.
  - simpl. by split_and!.
  - by exists s'.
Qed.

Lemma exAttached_reachable :
  @reachable upstreamTxnIds decimalStringUtils exFreshServer exAttached.
Proof.
  eapply (reach_changeReplSource exFreshServer exChangeEnv 1 "10.0.0.5" 6379 1
            exBooted OK exAttached).
  - eapply reach_startup; [exact exStartupEnv_sound|exact exBooted_startup].
  - intros t m. reflexivity.
  - vm_compute. reflexivity.
Qed.

(** * Further properties *)

(** ** The three schedulers *)

Lemma forIndices_seq body (I : nat → Sched → Prop) :
  (∀ i s s', I i s → body i s = Returns s' → I (S i) s') →
  ∀ n k s s',
    I k s → forIndices body (seq k n) s = Returns s' → I (k + n)%nat s'.
Proof.
  intros Hstep. induction n as [|n IH]; intros k s s' Hk; simpl.
  - intros [= <-]. by rewrite Nat.add_0_r.
  - intros Hrun. apply bind_Returns in Hrun as (s1 & Hs1 & Hrun).
    rewrite <- Nat.add_succ_comm. eapply IH; [|done]. by eapply Hstep.
Qed.

(** The slave scheduler: what it leaves and what it hands out. *)
Lemma schedSlaveInLock_spec now m s :
  schedSlaveInLock now m = Returns s →
  sc_mgr s = with_syncStatus (_syncStatus (sc_mgr s)) m ∧
  length (_syncStatus (sc_mgr s)) = length (_syncStatus m) ∧
  (∀ j st, _syncStatus m !! j = Some st →
     _syncStatus (sc_mgr s) !! j =
       Some (match slaveJob now m j with
             | Some _ => sp_with_isRunning true st
             | None => st
             end)) ∧
  sc_jobs s = omap (slaveJob now m) (seq 0 (length (_syncStatus m))) ∧
  doSth s = bool_decide (sc_jobs s ≠ []).
Proof.
  unfold schedSlaveInLock. intros Hrun.
  pose (I := λ (k : nat) (s : Sched),
    sc_mgr s = with_syncStatus (_syncStatus (sc_mgr s)) m ∧
    length (_syncStatus (sc_mgr s)) = length (_syncStatus m) ∧
    (∀ j st, _syncStatus m !! j = Some st →
       _syncStatus (sc_mgr s) !! j =
         Some (if bool_decide (j < k)%nat && bool_decide (is_Some (slaveJob now m j))
               then sp_with_isRunning true st else st)) ∧
    sc_jobs s = omap (slaveJob now m) (seq 0 k) ∧
    doSth s = bool_decide (sc_jobs s ≠ [])).
  assert (Hstep : ∀ i s s', I i s → schedSlaveStep now i s = Returns s' →
                            I (S i) s').
  { clear s Hrun. intros i s s' (Hm & Hlen & Hslots & Hjobs & Hdo) Hstep.
    unfold schedSlaveStep in Hstep.
    apply bind_Returns in Hstep as (st & Hst%vec_at_Returns & Hstep).
    assert (Hst0 : _syncStatus m !! i = Some st).
    { destruct (_syncStatus m !! i) as [st0|] eqn:E.
      - rewrite (Hslots _ _ E) in Hst.
        rewrite bool_decide_eq_false_2 in Hst by lia. done.
      - apply lookup_ge_None in E. apply lookup_lt_Some in Hst. lia. }
    assert (Hmeta0 : _syncMeta (sc_mgr s) = _syncMeta m) by (by rewrite Hm).
    assert (Hnext : ∀ (o : option Job) s1,
      slaveJob now m i = o →
      sc_mgr s1 = with_syncStatus (_syncStatus (sc_mgr s1)) m →
      length (_syncStatus (sc_mgr s1)) = length (_syncStatus m) →
      (∀ j, j ≠ i → _syncStatus (sc_mgr s1) !! j = _syncStatus (sc_mgr s) !! j) →
      _syncStatus (sc_mgr s1) !! i =
        Some (match o with Some _ => sp_with_isRunning true st | None => st end) →
      sc_jobs s1 = sc_jobs s ++ option_list o →
      doSth s1 = (doSth s || bool_decide (is_Some o)) →
      I (S i) s1).
    { intros o s1 Ho Hm1 Hlen1 Hother Hi Hj1 Hd1. unfold I. split_and!; try done.
      - intros j st' Hj. destruct (decide (j = i)) as [->|Hne].
        + rewrite Hi. rewrite Hst0 in Hj. injection Hj as <-. rewrite Ho.
          rewrite bool_decide_eq_true_2 by lia. simpl.
          by destruct o.
        + rewrite (Hother _ Hne), (Hslots _ _ Hj).
          destruct (decide (j < i)%nat).
          * by rewrite (bool_decide_eq_true_2 (j < i)%nat),
              (bool_decide_eq_true_2 (j < S i)%nat) by lia.
          * by rewrite (bool_decide_eq_false_2 (j < i)%nat),
              (bool_decide_eq_false_2 (j < S i)%nat) by lia.
      - rewrite seq_S, omap_app, Hj1, Hjobs. simpl. rewrite Ho.
        by destruct o.
      - rewrite Hd1, Hdo, Hj1. destruct o; simpl.
        + rewrite orb_true_r. symmetry. apply bool_decide_eq_true_2.
          by destruct (sc_jobs s).
        + rewrite orb_false_r, app_nil_r. done. }
    unfold slaveJob in Hnext. rewrite Hst0 in Hnext.
    destruct (sp_isRunning st) eqn:Erun.
    { injection Hstep as <-. destruct (_syncMeta m !! i);
        eapply (Hnext None); simpl; try done;
        by rewrite ?orb_false_r, ?app_nil_r. }
    destruct (bool_decide (now < sp_nextSchedTime st)) eqn:Enow.
    { injection Hstep as <-. destruct (_syncMeta m !! i);
        eapply (Hnext None); simpl; try done;
        by rewrite ?orb_false_r, ?app_nil_r. }
    apply bind_Returns in Hstep as (meta & Hmeta%vec_at_Returns & Hstep).
    rewrite Hmeta0 in Hmeta. rewrite Hmeta in Hnext. simpl in Hnext.
    destruct (replState meta) eqn:Est; simpl in Hstep.
    - injection Hstep as <-. eapply (Hnext None); simpl; try done;
        by rewrite ?orb_false_r, ?app_nil_r.
    - apply bind_Returns in Hstep as (l & [-> Hlt]%vec_set_Returns & Hstep).
      injection Hstep as <-. eapply (Hnext (Some (FullReceive i))); simpl;
        try done.
      + by rewrite Hm.
      + by rewrite length_insert.
      + intros j Hne. by rewrite list_lookup_insert_ne.
      + by rewrite list_lookup_insert_eq.
      + by rewrite orb_true_r.
    - done.
    - apply bind_Returns in Hstep as (l & [-> Hlt]%vec_set_Returns & Hstep).
      injection Hstep as <-. eapply (Hnext (Some (IncrCheck i))); simpl;
        try done.
      + by rewrite Hm.
      + by rewrite length_insert.
      + intros j Hne. by rewrite list_lookup_insert_ne.
      + by rewrite list_lookup_insert_eq.
      + by rewrite orb_true_r. }
  assert (Hbase : I 0%nat (mkSched false m [])).
  { unfold I. simpl. split_and!; try done.
    all: first [by destruct m | intros j st Hj; by rewrite Hj]. }
  pose proof (forIndices_seq _ I Hstep _ 0%nat _ _ Hbase Hrun)
    as (Hm & Hlen & Hslots & Hjobs & Hdo).
  split_and!; try done.
  intros j st Hj. rewrite (Hslots _ _ Hj).
  rewrite bool_decide_eq_true_2 by (apply lookup_lt_Some in Hj; lia).
  simpl. by destruct (slaveJob now m j).
Qed.

(** The recycle scheduler. *)
Lemma schedRecycLogInLock_spec now m s :
  schedRecycLogInLock now m = Returns s →
  sc_mgr s = with_logRecycStatus (_logRecycStatus (sc_mgr s)) m ∧
  length (_logRecycStatus (sc_mgr s)) = length (_logRecycStatus m) ∧
  (∀ j rb, _logRecycStatus m !! j = Some rb →
     _logRecycStatus (sc_mgr s) !! j =
       Some (match recycleJob now m j with
             | Some _ => rb_with_isRunning true rb
             | None => rb
             end)) ∧
  sc_jobs s = omap (recycleJob now m) (seq 0 (length (_logRecycStatus m))) ∧
  doSth s = bool_decide (sc_jobs s ≠ []).
Proof.
  unfold schedRecycLogInLock. intros Hrun.
  pose (I := λ (k : nat) (s : Sched),
    sc_mgr s = with_logRecycStatus (_logRecycStatus (sc_mgr s)) m ∧
    length (_logRecycStatus (sc_mgr s)) = length (_logRecycStatus m) ∧
    (∀ j rb, _logRecycStatus m !! j = Some rb →
       _logRecycStatus (sc_mgr s) !! j =
         Some (if bool_decide (j < k)%nat &&
                  bool_decide (is_Some (recycleJob now m j))
               then rb_with_isRunning true rb else rb)) ∧
    sc_jobs s = omap (recycleJob now m) (seq 0 k) ∧
    doSth s = bool_decide (sc_jobs s ≠ [])).
  assert (Hstep : ∀ i s s', I i s → schedRecycLogStep now i s = Returns s' →
                            I (S i) s').
  { clear s Hrun. intros i s s' (Hm & Hlen & Hslots & Hjobs & Hdo) Hstep.
    unfold schedRecycLogStep in Hstep.
    apply bind_Returns in Hstep as (rb & Hrb%vec_at_Returns & Hstep).
    assert (Hrb0 : _logRecycStatus m !! i = Some rb).
    { destruct (_logRecycStatus m !! i) as [rb0|] eqn:E.
      - rewrite (Hslots _ _ E) in Hrb.
        rewrite bool_decide_eq_false_2 in Hrb by lia. done.
      - apply lookup_ge_None in E. apply lookup_lt_Some in Hrb. lia. }
    assert (Hnext : ∀ (o : option Job) s1,
      recycleJob now m i = o →
      sc_mgr s1 = with_logRecycStatus (_logRecycStatus (sc_mgr s1)) m →
      length (_logRecycStatus (sc_mgr s1)) = length (_logRecycStatus m) →
      (∀ j, j ≠ i →
         _logRecycStatus (sc_mgr s1) !! j = _logRecycStatus (sc_mgr s) !! j) →
      _logRecycStatus (sc_mgr s1) !! i =
        Some (match o with Some _ => rb_with_isRunning true rb | None => rb end) →
      sc_jobs s1 = sc_jobs s ++ option_list o →
      doSth s1 = (doSth s || bool_decide (is_Some o)) →
      I (S i) s1).
    { intros o s1 Ho Hm1 Hlen1 Hother Hi Hj1 Hd1. unfold I. split_and!; try done.
      - intros j rb' Hj. destruct (decide (j = i)) as [->|Hne].
        + rewrite Hi. rewrite Hrb0 in Hj. injection Hj as <-. rewrite Ho.
          rewrite bool_decide_eq_true_2 by lia. simpl.
          by destruct o.
        + rewrite (Hother _ Hne), (Hslots _ _ Hj).
          destruct (decide (j < i)%nat).
          * by rewrite (bool_decide_eq_true_2 (j < i)%nat),
              (bool_decide_eq_true_2 (j < S i)%nat) by lia.
          * by rewrite (bool_decide_eq_false_2 (j < i)%nat),
              (bool_decide_eq_false_2 (j < S i)%nat) by lia.
      - rewrite seq_S, omap_app, Hj1, Hjobs. simpl. rewrite Ho.
        by destruct o.
      - rewrite Hd1, Hdo, Hj1. destruct o; simpl.
        + rewrite orb_true_r. symmetry. apply bool_decide_eq_true_2.
          by destruct (sc_jobs s).
        + rewrite orb_false_r, app_nil_r. done. }
    unfold recycleJob in Hnext. rewrite Hrb0 in Hnext.
    destruct (rb_isRunning rb || bool_decide (now < rb_nextSchedTime rb)).
    - injection Hstep as <-. eapply (Hnext None); simpl; try done;
        by rewrite ?orb_false_r, ?app_nil_r.
    - apply bind_Returns in Hstep as (l & [-> Hlt]%vec_set_Returns & Hstep).
      injection Hstep as <-. eapply (Hnext (Some (LogRecycle i))); simpl;
        try done.
      + by rewrite Hm.
      + by rewrite length_insert.
      + intros j Hne. by rewrite list_lookup_insert_ne.
      + by rewrite list_lookup_insert_eq.
      + by rewrite orb_true_r. }
  assert (Hbase : I 0%nat (mkSched false m [])).
  { unfold I. simpl. split_and!; try done.
    all: first [by destruct m | intros j st Hj; by rewrite Hj]. }
  pose proof (forIndices_seq _ I Hstep _ 0%nat _ _ Hbase Hrun)
    as (Hm & Hlen & Hslots & Hjobs & Hdo).
  split_and!; try done.
  intros j st Hj. rewrite (Hslots _ _ Hj).
  rewrite bool_decide_eq_true_2 by (apply lookup_lt_Some in Hj; lia).
  simpl. by destruct (recycleJob now m j).
Qed.

(** The mark the master scheduler puts on a subscriber. *)
Lemma schedMasterLoop_spec now m s :
  forIndices (schedMasterStep now) (seq 0 (length (_pushStatus m)))
    (mkSched false m []) = Returns s →
  sc_mgr s = with_pushStatus (_pushStatus (sc_mgr s)) m ∧
  length (_pushStatus (sc_mgr s)) = length (_pushStatus m) ∧
  (∀ j ps, _pushStatus m !! j = Some ps →
     _pushStatus (sc_mgr s) !! j =
       Some ((λ mpov, if pushDue now mpov then mp_with_isRunning true mpov
                      else mpov) <$> ps)) ∧
  sc_jobs s = seq 0 (length (_pushStatus m)) ≫= masterJobs now m ∧
  doSth s = bool_decide (sc_jobs s ≠ []).
Proof.
  intros Hrun.
  pose (mark := λ mpov, if pushDue now mpov then mp_with_isRunning true mpov
                        else mpov).
  pose (I := λ (k : nat) (s : Sched),
    sc_mgr s = with_pushStatus (_pushStatus (sc_mgr s)) m ∧
    length (_pushStatus (sc_mgr s)) = length (_pushStatus m) ∧
    (∀ j ps, _pushStatus m !! j = Some ps →
       _pushStatus (sc_mgr s) !! j =
         Some (if bool_decide (j < k)%nat then mark <$> ps else ps)) ∧
    sc_jobs s = seq 0 k ≫= masterJobs now m ∧
    doSth s = bool_decide (sc_jobs s ≠ [])).
  assert (Hstep : ∀ i s s', I i s → schedMasterStep now i s = Returns s' →
                            I (S i) s').
  { clear s Hrun. intros i s s' (Hm & Hlen & Hslots & Hjobs & Hdo) Hstep.
    unfold schedMasterStep in Hstep.
    apply bind_Returns in Hstep as (ps & Hps%vec_at_Returns & Hstep).
    assert (Hps0 : _pushStatus m !! i = Some ps).
    { destruct (_pushStatus m !! i) as [ps0|] eqn:E.
      - rewrite (Hslots _ _ E) in Hps.
        rewrite bool_decide_eq_false_2 in Hps by lia. done.
      - apply lookup_ge_None in E. apply lookup_lt_Some in Hps. lia. }
    apply bind_Returns in Hstep as (l & [-> Hlt]%vec_set_Returns & Hstep).
    injection Hstep as <-. unfold I. simpl.
    assert (Hjobs' :
      sc_jobs s ++ ((λ kv, IncrPush i kv.1) <$>
                      filter (λ kv, pushDue now kv.2 = true) (inClientOrder ps)) =
      seq 0 (S i) ≫= masterJobs now m).
    { rewrite seq_S, bind_app, <- Hjobs. simpl. unfold masterJobs.
      rewrite Hps0. by rewrite app_nil_r. }
    split_and!.
    - by rewrite Hm.
    - by rewrite length_insert.
    - intros j ps' Hj. destruct (decide (j = i)) as [->|Hne].
      + rewrite list_lookup_insert_eq by done.
        rewrite Hps0 in Hj. injection Hj as <-.
        by rewrite bool_decide_eq_true_2 by lia.
      + rewrite list_lookup_insert_ne by done. rewrite (Hslots _ _ Hj).
        destruct (decide (j < i)%nat).
        * by rewrite (bool_decide_eq_true_2 (j < i)%nat),
            (bool_decide_eq_true_2 (j < S i)%nat) by lia.
        * by rewrite (bool_decide_eq_false_2 (j < i)%nat),
            (bool_decide_eq_false_2 (j < S i)%nat) by lia.
    - exact Hjobs'.
    - rewrite Hjobs', <- Hjobs' , Hdo.
      destruct (filter _ (inClientOrder ps)) as [|kv rest].
      + rewrite fmap_nil, app_nil_r.
        rewrite (bool_decide_eq_true_2 ([] = [])) by done.
        by rewrite orb_false_r.
      + rewrite (bool_decide_eq_false_2 (kv :: rest = [])) by done.
        rewrite orb_true_r. symmetry. apply bool_decide_eq_true_2.
        rewrite fmap_cons. by destruct (sc_jobs s). }
  assert (Hbase : I 0%nat (mkSched false m [])).
  { unfold I. simpl. split_and!; try done.
    all: first [by destruct m | intros j st Hj; by rewrite Hj]. }
  pose proof (forIndices_seq _ I Hstep _ 0%nat _ _ Hbase Hrun)
    as (Hm & Hlen & Hslots & Hjobs & Hdo).
  split_and!; try done.
  intros j st Hj. rewrite (Hslots _ _ Hj).
  by rewrite bool_decide_eq_true_2 by (apply lookup_lt_Some in Hj; lia).
Qed.

(** ** A pass of the controller *)

Lemma omap_ext_fun {A B} (f g : A → option B) (l : list A) :
  (∀ x, f x = g x) → omap f l = omap g l.
Proof.
  intros Hfg. induction l as [|x l IH]; [done|].
  change (omap f (x :: l))
    with (match f x with Some y => y :: omap f l | None => omap f l end).
  change (omap g (x :: l))
    with (match g x with Some y => y :: omap g l | None => omap g l end).
  rewrite Hfg. destruct (g x); [f_equal|]; exact IH.
Qed.

Lemma elem_of_slaveJobs now m job :
  job ∈ omap (slaveJob now m) (seq 0 (length (_syncStatus m))) ↔
  (∃ i, job = FullReceive i ∨ job = IncrCheck i) ∧ due now m job.
Proof.
  rewrite list_elem_of_omap. split.
  - intros (i & _ & Hjob). unfold slaveJob in Hjob.
    destruct (_syncStatus m !! i) as [st|] eqn:Est; [|done].
    destruct (_syncMeta m !! i) as [meta|] eqn:Emeta; [|done].
    destruct (sp_isRunning st) eqn:Erun; [done|].
    destruct (bool_decide (now < sp_nextSchedTime st)) eqn:Enow; [done|].
    apply bool_decide_eq_false in Enow.
    destruct (replState meta) eqn:Est'; try done; injection Hjob as <-.
    + split; [by exists i; left|]. exists st, meta. split_and!; try done. lia.
    + split; [by exists i; right|]. exists st, meta. split_and!; try done. lia.
  - intros [(i & [->| ->]) (st & meta & Hst & Hmeta & Hrun & Hnext & Hrs)];
      exists i; (split; [apply elem_of_seq; apply lookup_lt_Some in Hst; lia|]);
      unfold slaveJob; rewrite Hst, Hmeta, Hrun, Hrs; simpl;
      by rewrite bool_decide_eq_false_2 by lia.
Qed.

Lemma elem_of_recycleJobs now m job :
  job ∈ omap (recycleJob now m) (seq 0 (length (_logRecycStatus m))) ↔
  (∃ i, job = LogRecycle i) ∧ due now m job.
Proof.
  rewrite list_elem_of_omap. split.
  - intros (i & _ & Hjob). unfold recycleJob in Hjob.
    destruct (_logRecycStatus m !! i) as [rb|] eqn:Erb; [|done].
    destruct (rb_isRunning rb) eqn:Erun; [done|].
    destruct (bool_decide (now < rb_nextSchedTime rb)) eqn:Enow; [done|].
    apply bool_decide_eq_false in Enow. injection Hjob as <-.
    split; [by exists i|]. exists rb. split_and!; try done. lia.
  - intros [(i & ->) (rb & Hrb & Hrun & Hnext)]. exists i.
    split; [apply elem_of_seq; apply lookup_lt_Some in Hrb; lia|].
    unfold recycleJob. rewrite Hrb, Hrun. simpl.
    by rewrite bool_decide_eq_false_2 by lia.
Qed.

Lemma pushDue_true now mpov :
  pushDue now mpov = true ↔
  mp_isRunning mpov = false ∧ mp_nextSchedTime mpov ≤ now.
Proof.
  unfold pushDue. rewrite negb_true_iff, orb_false_iff, bool_decide_eq_false.
  split; intros [? ?]; split; try done; lia.
Qed.

Lemma elem_of_inClientOrder (pushes : gmap Z MPovStatus) c mpov :
  (c, mpov) ∈ inClientOrder pushes ↔ pushes !! c = Some mpov.
Proof.
  unfold inClientOrder. rewrite merge_sort_Permutation.
  apply elem_of_map_to_list.
Qed.

Lemma elem_of_masterJobs now m job :
  job ∈ seq 0 (length (_pushStatus m)) ≫= masterJobs now m ↔
  (∃ i c, job = IncrPush i c) ∧ due now m job.
Proof.
  rewrite list_elem_of_bind. split.
  - intros (i & Hjob & _). unfold masterJobs in Hjob.
    destruct (_pushStatus m !! i) as [ps|] eqn:Eps;
      [|by apply elem_of_nil in Hjob].
    apply list_elem_of_fmap in Hjob as ([c mpov] & -> & Hin).
    apply list_elem_of_filter in Hin as [Hdue Hin]. simpl in *.
    apply elem_of_inClientOrder in Hin. apply pushDue_true in Hdue as [? ?].
    split; [by exists i, c|]. by exists ps, mpov.
  - intros [(i & c & ->) (ps & mpov & Hps & Hc & Hrun & Hnext)]. exists i.
    split; [|apply elem_of_seq; apply lookup_lt_Some in Hps; lia].
    unfold masterJobs. rewrite Hps. apply list_elem_of_fmap.
    exists (c, mpov). split; [done|]. apply list_elem_of_filter. split.
    + simpl. by apply pushDue_true.
    + by apply elem_of_inClientOrder.
Qed.

(** What a pass that returns has done, in terms of the manager it was
    given. *)
Lemma controlPass_spec now now' m s :
  controlPass now now' m = Returns s →
  _isRunning (sc_mgr s) = _isRunning m ∧ _svr (sc_mgr s) = _svr m ∧
  _syncMeta (sc_mgr s) = _syncMeta m ∧
  _fullPushStatus (sc_mgr s) = _fullPushStatus m ∧
  _connectMasterTimeoutMs (sc_mgr s) = _connectMasterTimeoutMs m ∧
  (length (_syncStatus (sc_mgr s)) = length (_syncStatus m) ∧
   length (_pushStatus (sc_mgr s)) = length (_pushStatus m) ∧
   length (_logRecycStatus (sc_mgr s)) = length (_logRecycStatus m)) ∧
  (∀ j st, _syncStatus m !! j = Some st →
     _syncStatus (sc_mgr s) !! j =
       Some (match slaveJob now m j with
             | Some _ => sp_with_isRunning true st
             | None => st
             end)) ∧
  (∀ j ps, _pushStatus m !! j = Some ps →
     _pushStatus (sc_mgr s) !! j =
       Some ((λ mpov, if pushDue now mpov then mp_with_isRunning true mpov
                      else mpov) <$> ps)) ∧
  (∀ j rb, _logRecycStatus m !! j = Some rb →
     _logRecycStatus (sc_mgr s) !! j =
       Some (match recycleJob now m j with
             | Some _ => rb_with_isRunning true rb
             | None => rb
             end)) ∧
  sc_jobs s =
    omap (slaveJob now m) (seq 0 (length (_syncStatus m))) ++
    (seq 0 (length (_pushStatus m)) ≫= masterJobs now m) ++
    omap (recycleJob now m) (seq 0 (length (_logRecycStatus m))) ∧
  doSth s = bool_decide (sc_jobs s ≠ []).
Proof.
  unfold controlPass. intros Hrun.
  apply bind_Returns in Hrun as (s1 & Hs1 & Hrun).
  apply bind_Returns in Hrun as (s2 & Hs2 & Hrun).
  apply bind_Returns in Hrun as (s3 & Hs3 & Hrun).
  injection Hrun as <-. simpl.
  apply schedSlaveInLock_spec in Hs1 as (M1 & L1 & S1 & J1 & D1).
  unfold schedMasterInLock in Hs2.
  apply bind_Returns in Hs2 as (m1 & [-> _]%recycleFullPushStatus_Returns & Hs2).
  apply schedMasterLoop_spec in Hs2 as (M2 & L2 & S2 & J2 & D2).
  apply schedRecycLogInLock_spec in Hs3 as (M3 & L3 & S3 & J3 & D3).
  assert (P1 : _pushStatus (sc_mgr s1) = _pushStatus m) by (by rewrite M1).
  assert (R2 : _logRecycStatus (sc_mgr s2) = _logRecycStatus m)
    by (by rewrite M2, M1).
  assert (Hmj : ∀ i, masterJobs now (sc_mgr s1) i = masterJobs now m i).
  { intros i. unfold masterJobs. by rewrite P1. }
  assert (Hrj : ∀ i, recycleJob now (sc_mgr s2) i = recycleJob now m i).
  { intros i. unfold recycleJob. by rewrite R2. }
  rewrite M3, M2, M1. simpl. split_and!; try done.
  - by rewrite L2, P1.
  - by rewrite L3, R2.
  - intros j ps Hj. apply S2. by rewrite P1.
  - intros j rb Hj. rewrite <- Hrj. apply S3. by rewrite R2.
  - rewrite J1, J2, J3, P1, R2. f_equal. f_equal.
    + apply list_bind_ext; [|done]. intros i. apply Hmj.
    + apply omap_ext_fun. intros i. apply Hrj.
  - rewrite D3, D2, D1.
    destruct (sc_jobs s1), (sc_jobs s2), (sc_jobs s3); simpl;
      rewrite ?(bool_decide_eq_true_2 (_ :: _ ≠ [])),
              ?(bool_decide_eq_false_2 ([] ≠ [])) by (try done; by intros ?);
      done.
Qed.

Lemma controlPass_jobs now now' m s :
  controlPass now now' m = Returns s →
  ∀ job, job ∈ sc_jobs s ↔ due now m job.
Proof.
  intros Hrun job.
  destruct (controlPass_spec _ _ _ _ Hrun)
    as (_ & _ & _ & _ & _ & _ & _ & _ & _ & -> & _).
  rewrite !elem_of_app, elem_of_slaveJobs, elem_of_masterJobs,
    elem_of_recycleJobs.
  split.
  - intros [[_ ?]|[[_ ?]|[_ ?]]]; done.
  - intros Hdue. destruct job as [i|i|i c|i].
    + left. split; [by exists i; left|done].
    + left. split; [by exists i; right|done].
    + right; left. split; [by exists i, c|done].
    + right; right. split; [by exists i|done].
Qed.

Lemma NoDup_omap_inj {A B} (f : A → option B) (l : list A) :
  NoDup l → (∀ x y z, f x = Some z → f y = Some z → x = y) →
  NoDup (omap f l).
Proof.
  intros Hl Hinj. induction Hl as [|x l Hx _ IH]; [constructor|].
  change (omap f (x :: l))
    with (match f x with Some y => y :: omap f l | None => omap f l end).
  destruct (f x) as [y|] eqn:Efx; [|done].
  constructor; [|done].
  intros (x' & Hx' & Hfx')%list_elem_of_omap.
  by rewrite (Hinj _ _ _ Efx Hfx') in Hx.
Qed.

Lemma NoDup_inClientOrder (pushes : gmap Z MPovStatus) :
  NoDup (inClientOrder pushes).
Proof.
  unfold inClientOrder. rewrite merge_sort_Permutation.
  apply NoDup_map_to_list.
Qed.

Lemma NoDup_masterJobs now m i : NoDup (masterJobs now m i).
Proof.
  unfold masterJobs. destruct (_pushStatus m !! i) as [ps|]; [|constructor].
  apply NoDup_fmap_2_strong.
  - intros [c1 v1] [c2 v2] [_ H1]%list_elem_of_filter
      [_ H2]%list_elem_of_filter [= <-].
    apply elem_of_inClientOrder in H1, H2. congruence.
  - apply NoDup_filter, NoDup_inClientOrder.
Qed.

(** No job is handed out twice in a pass. *)
Lemma controlPass_jobs_NoDup now now' m s :
  controlPass now now' m = Returns s → NoDup (sc_jobs s).
Proof.
  intros Hrun.
  destruct (controlPass_spec _ _ _ _ Hrun)
    as (_ & _ & _ & _ & _ & _ & _ & _ & _ & -> & _).
  apply NoDup_app. split_and!.
  - apply NoDup_omap_inj; [apply NoDup_seq|].
    intros i j job Hi Hj. unfold slaveJob in Hi, Hj.
    destruct (_syncStatus m !! i), (_syncMeta m !! i); try done.
    destruct (_syncStatus m !! j), (_syncMeta m !! j); try done.
    repeat match goal with
           | H : context [if ?b then _ else _] |- _ => destruct b; try done
           | H : context [match replState ?x with _ => _ end] |- _ =>
               destruct (replState x); try done
           end; congruence.
  - intros job [(i & Hshape) _]%elem_of_slaveJobs Hin.
    apply elem_of_app in Hin
      as [[(j & c & ->) _]%elem_of_masterJobs
         |[(j & ->) _]%elem_of_recycleJobs];
      by destruct Hshape.
  - apply NoDup_app. split_and!.
    + apply NoDup_bind; [|intros; apply NoDup_masterJobs|apply NoDup_seq].
      intros i j job _ _ Hi Hj. unfold masterJobs in Hi, Hj.
      destruct (_pushStatus m !! i); [|by apply elem_of_nil in Hi].
      destruct (_pushStatus m !! j); [|by apply elem_of_nil in Hj].
      apply list_elem_of_fmap in Hi as (kv1 & -> & _).
      apply list_elem_of_fmap in Hj as (kv2 & [= -> _] & _). done.
    + intros job [(i & c & ->) _]%elem_of_masterJobs
        [(j & Hj) _]%elem_of_recycleJobs. done.
    + apply NoDup_omap_inj; [apply NoDup_seq|].
      intros i j job Hi Hj. unfold recycleJob in Hi, Hj.
      destruct (_logRecycStatus m !! i) as [r1|]; [|done].
      destruct (_logRecycStatus m !! j) as [r2|]; [|done].
      destruct (rb_isRunning r1 || _); [done|].
      destruct (rb_isRunning r2 || _); [done|]. congruence.
Qed.

(** X1.  A pass of the controller that returns hands out a job for exactly
    the slots that were idle and due when it started, and one job for
    each: a slave-sync job to the full-receive pool for a store in
    [REPL_CONNECT], to the incr-check pool for one in [REPL_CONNECTED], one
    push job per due subscriber and one recycle job per due recycle slot;
    and it reports that it did something exactly when it handed out a
    job. *)
Theorem controlPass_dispatches_due (now now' : Z) (m : ReplManager)
  (s : Sched) :
  controlPass now now' m = Returns s →
  (∀ job, job ∈ sc_jobs s ↔ due now m job) ∧
  NoDup (sc_jobs s) ∧
  (doSth s = true ↔ ∃ job, due now m job).
Proof.
  intros Hrun. pose proof (controlPass_jobs _ _ _ _ Hrun) as Hjobs.
  split; [exact Hjobs|]. split; [by eapply controlPass_jobs_NoDup|].
  destruct (controlPass_spec _ _ _ _ Hrun)
    as (_ & _ & _ & _ & _ & _ & _ & _ & _ & _ & ->).
  rewrite bool_decide_eq_true. split.
  - destruct (sc_jobs s) as [|job l] eqn:E; [done|].
    intros _. exists job. apply Hjobs. apply list_elem_of_here.
  - intros [job Hdue] E. apply Hjobs in Hdue. rewrite E in Hdue.
    by apply not_elem_of_nil in Hdue.
Qed.

Lemma controlPass_dispatches_due_witness :
  ∃ s, controlPass 6000 6000 exAttached = Returns s ∧
       (FullReceive 1 ∈ sc_jobs s ↔ due 6000 exAttached (FullReceive 1)).
Proof.
  eexists. split; [vm_compute; reflexivity|].
  apply (controlPass_dispatches_due 6000 6000 exAttached).
  vm_compute. reflexivity.
Defined.

Lemma controlPass_running now now' m s job :
  controlPass now now' m = Returns s →
  job ∈ sc_jobs s →
  running (sc_mgr s) job.
Proof.
  intros Hrun Hjob.
  pose proof (proj1 (controlPass_jobs _ _ _ _ Hrun job) Hjob) as Hdue.
  destruct (controlPass_spec _ _ _ _ Hrun)
    as (_ & _ & _ & _ & _ & _ & Hsync & Hpush & Hrec & _ & _).
  destruct job as [i|i|i c|i]; simpl in *.
  - destruct Hdue as (st & meta & Hst & Hmeta & Hrun' & Hnext & Hrs).
    eexists. split; [by apply Hsync|].
    unfold slaveJob. rewrite Hst, Hmeta, Hrun', Hrs. simpl.
    by rewrite bool_decide_eq_false_2 by lia.
  - destruct Hdue as (st & meta & Hst & Hmeta & Hrun' & Hnext & Hrs).
    eexists. split; [by apply Hsync|].
    unfold slaveJob. rewrite Hst, Hmeta, Hrun', Hrs. simpl.
    by rewrite bool_decide_eq_false_2 by lia.
  - destruct Hdue as (ps & mpov & Hps & Hc & Hrun' & Hnext).
    eexists _, _. split_and!; [by apply Hpush| |].
    + rewrite lookup_fmap, Hc. reflexivity.
    + rewrite (proj2 (pushDue_true now mpov)) by done. reflexivity.
  - destruct Hdue as (rb & Hrb & Hrun' & Hnext).
    eexists. split; [by apply Hrec|].
    unfold recycleJob. rewrite Hrb, Hrun'. simpl.
    by rewrite bool_decide_eq_false_2 by lia.
Qed.

(** X2.  After a pass every slot it handed a job for is marked running,
    and so is every slot that was running before. *)
Theorem controlPass_marks_running (now now' : Z) (m : ReplManager)
  (s : Sched) (job : Job) :
  controlPass now now' m = Returns s →
  job ∈ sc_jobs s ∨ running m job →
  running (sc_mgr s) job.
Proof.
  intros Hrun [Hjob|Hbefore]; [by eapply controlPass_running|].
  destruct (controlPass_spec _ _ _ _ Hrun)
    as (_ & _ & _ & _ & _ & _ & Hsync & Hpush & Hrec & _ & _).
  destruct job as [i|i|i c|i]; simpl in *.
  - destruct Hbefore as (st & Hst & Hflag).
    eexists. split; [by apply Hsync|]. by destruct (slaveJob now m i).
  - destruct Hbefore as (st & Hst & Hflag).
    eexists. split; [by apply Hsync|]. by destruct (slaveJob now m i).
  - destruct Hbefore as (ps & mpov & Hps & Hc & Hflag).
    eexists _, _. split_and!; [by apply Hpush| |].
    + rewrite lookup_fmap, Hc. reflexivity.
    + by destruct (pushDue now mpov).
  - destruct Hbefore as (rb & Hrb & Hflag).
    eexists. split; [by apply Hrec|]. by destruct (recycleJob now m i).
Qed.

Lemma controlPass_marks_running_witness :
  ∃ s, controlPass 6000 6000 exAttached = Returns s ∧
       running (sc_mgr s) (FullReceive 1).
Proof.
  eexists. split; [vm_compute; reflexivity|].
  eapply (controlPass_marks_running 6000 6000 exAttached).
  - vm_compute. reflexivity.
  - left. simpl. apply list_elem_of_here.
Defined.

(** X3.  A slot that was handed a job is handed none by the pass that
    follows, whatever the clock then reads, as long as no worker has
    cleared its flag: at most one job per slot is outstanding. *)
Theorem controlPass_no_second_dispatch (now1 now1' now2 now2' : Z)
  (m : ReplManager) (s1 s2 : Sched) (job : Job) :
  controlPass now1 now1' m = Returns s1 →
  controlPass now2 now2' (sc_mgr s1) = Returns s2 →
  job ∈ sc_jobs s1 →
  job ∉ sc_jobs s2.
Proof.
  intros Hrun1 Hrun2 Hjob Hjob2.
  pose proof (controlPass_running _ _ _ _ _ Hrun1 Hjob) as Hr.
  apply (controlPass_jobs _ _ _ _ Hrun2) in Hjob2 as Hdue.
  destruct job as [i|i|i c|i]; simpl in *.
  - destruct Hr as (st & Hst & Hrun), Hdue as (st' & meta & Hst' & _ & Hidle & _).
    congruence.
  - destruct Hr as (st & Hst & Hrun), Hdue as (st' & meta & Hst' & _ & Hidle & _).
    congruence.
  - destruct Hr as (ps & mpov & Hps & Hc & Hrun),
      Hdue as (ps' & mpov' & Hps' & Hc' & Hidle & _).
    congruence.
  - destruct Hr as (rb & Hrb & Hrun), Hdue as (rb' & Hrb' & Hidle & _).
    congruence.
Qed.

Lemma controlPass_no_second_dispatch_witness :
  ∃ s1 s2,
    controlPass 6000 6000 exAttached = Returns s1 ∧
    controlPass 9000 9000 (sc_mgr s1) = Returns s2 ∧
    FullReceive 1 ∉ sc_jobs s2.
Proof.
  eexists _, _. split_and!; [vm_compute; reflexivity|vm_compute; reflexivity|].
  eapply (controlPass_no_second_dispatch 6000 6000 9000 9000 exAttached).
  - vm_compute. reflexivity.
  - vm_compute. reflexivity.
  - simpl. apply list_elem_of_here.
Defined.

(** X4.  A pass only sets [isRunning] flags: it leaves the meta data, the
    server, the full pushes and the connect timeout as they are, keeps the
    session, the schedule times and the positions of every slot, and never
    clears a flag that is set. *)
Theorem controlPass_frame (now now' : Z) (m : ReplManager) (s : Sched) :
  controlPass now now' m = Returns s →
  _isRunning (sc_mgr s) = _isRunning m ∧ _svr (sc_mgr s) = _svr m ∧
  _syncMeta (sc_mgr s) = _syncMeta m ∧
  _fullPushStatus (sc_mgr s) = _fullPushStatus m ∧
  _connectMasterTimeoutMs (sc_mgr s) = _connectMasterTimeoutMs m ∧
  (∀ j st, _syncStatus m !! j = Some st →
     ∃ b, (sp_isRunning st = true → b = true) ∧
          _syncStatus (sc_mgr s) !! j = Some (sp_with_isRunning b st)) ∧
  (∀ j ps c mpov, _pushStatus m !! j = Some ps → ps !! c = Some mpov →
     ∃ ps' b, (mp_isRunning mpov = true → b = true) ∧
          _pushStatus (sc_mgr s) !! j = Some ps' ∧ dom ps' = dom ps ∧
          ps' !! c = Some (mp_with_isRunning b mpov)) ∧
  (∀ j rb, _logRecycStatus m !! j = Some rb →
     ∃ b, (rb_isRunning rb = true → b = true) ∧
          _logRecycStatus (sc_mgr s) !! j = Some (rb_with_isRunning b rb)).
Proof.
  intros Hrun.
  destruct (controlPass_spec _ _ _ _ Hrun)
    as (? & ? & ? & ? & ? & _ & Hsync & Hpush & Hrec & _ & _).
  split_and!; try done.
  - intros j st Hst. rewrite (Hsync _ _ Hst).
    destruct (slaveJob now m j).
    + by exists true.
    + exists (sp_isRunning st). split; [done|]. by destruct st.
  - intros j ps c mpov Hps Hc. rewrite (Hpush _ _ Hps).
    eexists _, (if pushDue now mpov then true else mp_isRunning mpov).
    split_and!; [|done|apply dom_fmap_L|].
    + by destruct (pushDue now mpov).
    + rewrite lookup_fmap, Hc. simpl.
      destruct (pushDue now mpov); [done|]. by destruct mpov.
  - intros j rb Hrb. rewrite (Hrec _ _ Hrb).
    destruct (recycleJob now m j).
    + by exists true.
    + exists (rb_isRunning rb). split; [done|]. by destruct rb.
Qed.

Lemma controlPass_frame_witness :
  ∃ s, controlPass 6000 6000 exAttached = Returns s ∧
       _syncMeta (sc_mgr s) = _syncMeta exAttached.
Proof.
  eexists. split; [vm_compute; reflexivity|].
  eapply (controlPass_frame 6000 6000 exAttached).
  vm_compute. reflexivity.
Defined.

Lemma disabled_not_due now m job :
  disabled m (jobStore job) → now < time_point_max → ¬ due now m job.
Proof.
  intros (Hs & Hr & Hp) Hnow Hdue.
  destruct job as [i|i|i c|i]; simpl in *.
  - destruct Hdue as (st & meta & Hst & _ & _ & Hnext & _).
    rewrite (Hs _ Hst) in Hnext. lia.
  - destruct Hdue as (st & meta & Hst & _ & _ & Hnext & _).
    rewrite (Hs _ Hst) in Hnext. lia.
  - destruct Hdue as (ps & mpov & Hps & Hc & _ & Hnext).
    rewrite (Hp _ _ _ Hps Hc) in Hnext. lia.
  - destruct Hdue as (rb & Hrb & _ & Hnext).
    rewrite (Hr _ Hrb) in Hnext. lia.
Qed.

Lemma disabled_pass now now' m s i :
  disabled m i → now < time_point_max →
  controlPass now now' m = Returns s →
  (∀ job, job ∈ sc_jobs s → jobStore job ≠ i) ∧ disabled (sc_mgr s) i.
Proof.
  intros Hdis Hnow Hrun. split.
  - intros job Hjob <-.
    apply (controlPass_jobs _ _ _ _ Hrun) in Hjob.
    by eapply disabled_not_due.
  - destruct Hdis as (Hs & Hr & Hp).
    destruct (controlPass_spec _ _ _ _ Hrun)
      as (_ & _ & _ & _ & _ & (L1 & L2 & L3) & Hsync & Hpush & Hrec & _ & _).
    split_and!.
    + intros st' Hst'.
      destruct (lookup_lt_is_Some_2 (_syncStatus m) i) as [st Hst].
      { apply lookup_lt_Some in Hst'. lia. }
      rewrite (Hsync _ _ Hst) in Hst'. injection Hst' as <-.
      pose proof (Hs _ Hst). by destruct (slaveJob now m i).
    + intros rb' Hrb'.
      destruct (lookup_lt_is_Some_2 (_logRecycStatus m) i) as [rb Hrb].
      { apply lookup_lt_Some in Hrb'. lia. }
      rewrite (Hrec _ _ Hrb) in Hrb'. injection Hrb' as <-.
      pose proof (Hr _ Hrb). by destruct (recycleJob now m i).
    + intros ps' c mpov' Hps' Hc'.
      destruct (lookup_lt_is_Some_2 (_pushStatus m) i) as [ps Hps].
      { apply lookup_lt_Some in Hps'. lia. }
      rewrite (Hpush _ _ Hps) in Hps'. injection Hps' as <-.
      rewrite lookup_fmap in Hc'.
      destruct (ps !! c) as [mpov|] eqn:Ec; [|done].
      simpl in Hc'. injection Hc' as <-.
      pose proof (Hp _ _ _ Hps Ec).
      by destruct (pushDue now mpov).
Qed.

Lemma stopStore_disables m i st m' :
  stopStore m i = Returns (st, m') → disabled m' i.
Proof.
  unfold stopStore. intros Hrun.
  apply bind_Returns in Hrun as ([] & _ & Hrun).
  apply bind_Returns in Hrun as (sp & _ & Hrun).
  apply bind_Returns in Hrun as (l1 & [-> H1]%vec_set_Returns & Hrun).
  apply bind_Returns in Hrun as (rb & _ & Hrun).
  apply bind_Returns in Hrun as (l2 & [-> H2]%vec_set_Returns & Hrun).
  apply bind_Returns in Hrun as (ps & _ & Hrun).
  apply bind_Returns in Hrun as (l3 & [-> H3]%vec_set_Returns & Hrun).
  apply bind_Returns in Hrun as (l4 & [-> H4]%vec_set_Returns & Hrun).
  injection Hrun as _ <-. unfold disabled. simpl. split_and!.
  - intros st' Hst'. rewrite list_lookup_insert_eq in Hst' by done.
    by injection Hst' as <-.
  - intros rb' Hrb'. rewrite list_lookup_insert_eq in Hrb' by done.
    by injection Hrb' as <-.
  - intros ps' c mpov Hps' Hc. rewrite list_lookup_insert_eq in Hps' by done.
    injection Hps' as <-. rewrite lookup_fmap in Hc.
    destruct (ps !! c); [|done]. simpl in Hc. by injection Hc as <-.
Qed.

(** X5.  A store whose slots all have [nextSchedTime] at the maximum
    stays so over any number of passes of the controller at earlier
    instants, and none of these passes hands out a job for it. *)
Theorem disabled_store_never_dispatched (m m' : ReplManager) (i : nat) :
  disabled m i → passed m m' →
  disabled m' i ∧
  ∀ now now' s, now < time_point_max →
    controlPass now now' m' = Returns s →
    ∀ job, job ∈ sc_jobs s → jobStore job ≠ i.
Proof.
  intros Hdis Hpassed.
  assert (Hdis' : disabled m' i).
  { induction Hpassed as [m|now now' m s m' Hnow Hrun _ IH]; [done|].
    apply IH. by eapply disabled_pass. }
  split; [done|]. intros now now' s Hnow Hrun.
  by eapply disabled_pass.
Qed.

Lemma disabled_store_never_dispatched_witness :
  ∃ m1 s,
    stopStore exManager 0 = Returns (OK, m1) ∧
    controlPass 6000 6000 m1 = Returns s ∧
    disabled (sc_mgr s) 0.
Proof.
  eexists _, _.
  split_and!; [vm_compute; reflexivity|vm_compute; reflexivity|].
  eapply (disabled_store_never_dispatched _ _ 0%nat).
  - eapply (stopStore_disables exManager 0 OK). vm_compute. reflexivity.
  - eapply (passed_pass 6000 6000); [vm_compute; reflexivity| |apply passed_none].
    vm_compute. reflexivity.
Defined.

(** X6.  After [stopStore(i)] has returned, a pass of the controller at
    any instant before the maximum hands out no job for store [i], be it a
    slave-sync, a push or a recycle job, and leaves the store disabled for
    the passes that follow. *)
Theorem stopStore_no_new_job (now now' : Z) (m m1 : ReplManager)
  (st : Status) (s : Sched) (i : nat) :
  stopStore m i = Returns (st, m1) →
  now < time_point_max →
  controlPass now now' m1 = Returns s →
  (∀ job, job ∈ sc_jobs s → jobStore job ≠ i) ∧ disabled (sc_mgr s) i.
Proof.
  intros Hstop Hnow Hrun.
  eapply disabled_pass; [|done..].
  by eapply stopStore_disables.
Qed.

Lemma stopStore_no_new_job_witness :
  ∃ m1 s,
    stopStore exManager 1 = Returns (OK, m1) ∧
    controlPass 6000 6000 m1 = Returns s ∧
    ∀ job, job ∈ sc_jobs s → jobStore job ≠ 1%nat.
Proof.
  eexists _, _.
  split_and!; [vm_compute; reflexivity|vm_compute; reflexivity|].
  eapply (stopStore_no_new_job 6000 6000 exManager).
  - vm_compute. reflexivity.
  - vm_compute. reflexivity.
  - vm_compute. reflexivity.
Defined.

(** ** Attaching and detaching *)

Lemma attach_result `{TransactionIds} (e : ChangeEnv) (i : nat)
  (ip : string) (port sourceStoreId : Z) (m : ReplManager)
  (cur : StoreMeta) (sp : SPovStatus) :
  ip ≠ "" →
  ce_getDb e = Value (true, true) →
  ce_getDbInLock e = Value () →
  ok (ce_setStoreMode e) = true →
  ok (ce_setStoreMeta e) = true →
  _syncMeta m !! i = Some cur → meta_id cur = i → syncFromHost cur = "" →
  _syncStatus m !! i = Some sp → sp_isRunning sp = false →
  let newMeta := mkStoreMeta i ip (port `mod` 2 ^ 16) sourceStoreId
                   TXNID_UNINITED REPL_CONNECT in
  changeReplSource e i ip port sourceStoreId m =
    Returns (OK,
      mkReplManager (_isRunning m)
        (mkServerEntry (getKVStoreCount (_svr m))
           (<[i := REPLICATE_ONLY]> (storeMode (_svr m)))
           (<[i := newMeta]> (catalog (_svr m)))
           (cancelled (_svr m)))
        (<[i := newMeta]> (_syncMeta m)) (_syncStatus m) (_pushStatus m)
        (_fullPushStatus m) (_logRecycStatus m) 1000).
Proof.
  intros Hip Hdb Hdb2 Hmode Hcat Hcur Hid Hhost Hsp Hidle newMeta.
  unfold changeReplSource. rewrite Hdb. simpl.
  unfold changeReplSourceInLock, cv_wait_for, slaveIdle.
  rewrite (bool_decide_eq_true_2 _ Hip). simpl.
  apply vec_at_Returns in Hsp as ->. simpl. rewrite Hidle. simpl.
  rewrite bool_decide_eq_false_2
    by (apply Nat.lt_nge; by eapply lookup_lt_Some).
  rewrite Hdb2. apply vec_at_Returns in Hcur as Hat. rewrite Hat. simpl.
  rewrite (bool_decide_eq_false_2 (syncFromHost cur ≠ ""))
    by (intros Hne; by apply Hne).
  rewrite Hmode. simpl.
  unfold changeReplStateInLock, setStoreMeta, setStoreMode.
  rewrite Hcat, Hmode. simpl. rewrite Hid.
  rewrite vec_set_lt by (by eapply lookup_lt_Some). reflexivity.
Qed.

(** X7.  An attach request on an open, empty store that is detached and
    idle, with the server and the catalog answering OK, returns OK: the
    store is switched to [REPLICATE_ONLY], the meta of the store becomes
    the new source with [REPL_CONNECT] and [binlogId = TXNID_UNINITED],
    in the catalog and in the cache alike, and the connect timeout is 1000;
    the port is stored in 16 bits.  Nothing else changes. *)
Theorem changeReplSource_attach `{TransactionIds} (e : ChangeEnv) (i : nat)
  (ip : string) (port sourceStoreId : Z) (m : ReplManager)
  (cur : StoreMeta) (sp : SPovStatus) :
  ip ≠ "" →
  ce_getDb e = Value (true, true) →
  ce_getDbInLock e = Value () →
  ok (ce_setStoreMode e) = true →
  ok (ce_setStoreMeta e) = true →
  _syncMeta m !! i = Some cur → meta_id cur = i → syncFromHost cur = "" →
  _syncStatus m !! i = Some sp → sp_isRunning sp = false →
  let newMeta := mkStoreMeta i ip (port `mod` 2 ^ 16) sourceStoreId
                   TXNID_UNINITED REPL_CONNECT in
  ∃ m',
    changeReplSource e i ip port sourceStoreId m = Returns (OK, m') ∧
    _syncMeta m' = <[i := newMeta]> (_syncMeta m) ∧
    catalog (_svr m') = <[i := newMeta]> (catalog (_svr m)) ∧
    storeMode (_svr m') = <[i := REPLICATE_ONLY]> (storeMode (_svr m)) ∧
    _connectMasterTimeoutMs m' = 1000 ∧
    cancelled (_svr m') = cancelled (_svr m) ∧
    getKVStoreCount (_svr m') = getKVStoreCount (_svr m) ∧
    _isRunning m' = _isRunning m ∧
    _syncStatus m' = _syncStatus m ∧
    _pushStatus m' = _pushStatus m ∧
    _fullPushStatus m' = _fullPushStatus m ∧
    _logRecycStatus m' = _logRecycStatus m.
Proof.
  intros Hip Hdb Hdb2 Hmode Hcat Hcur Hid Hhost Hsp Hidle newMeta.
  eexists. split.
  - by eapply (attach_result e i ip port sourceStoreId m cur sp).
  - simpl. by split_and!.
Qed.

Lemma changeReplSource_attach_witness :
  ∃ m',
    @changeReplSource upstreamTxnIds exChangeEnv 1 "10.0.0.5" 6379 1 exBooted =
      Returns (OK, m') ∧
    _syncMeta m' !! 1%nat =
      Some (mkStoreMeta 1 "10.0.0.5" 6379 1 0 REPL_CONNECT).
Proof.
  destruct (@changeReplSource_attach upstreamTxnIds exChangeEnv 1
              "10.0.0.5" 6379 1 exBooted (mkStoreMeta 1 "" 0 (-1) 0 REPL_NONE)
              (mkSPovStatus false UINT64_MAX 5000 5000))
    as (m' & Hrun & Hmeta & _); try done.
  exists m'. split; [exact Hrun|]. rewrite Hmeta. reflexivity.
Defined.

Lemma detach_result `{TransactionIds} (e : ChangeEnv) (i : nat)
  (m : ReplManager) (isEmpty : bool) (cur : StoreMeta) (sp : SPovStatus) :
  ce_getDb e = Value (true, isEmpty) →
  ce_getDbInLock e = Value () →
  ok (ce_setStoreMode e) = true →
  ok (ce_setStoreMeta e) = true →
  _syncMeta m !! i = Some cur → meta_id cur = i → syncFromHost cur ≠ "" →
  _syncStatus m !! i = Some sp → sp_isRunning sp = false →
  let newMeta := mkStoreMeta i "" 0 0 TXNID_UNINITED REPL_NONE in
  changeReplSource e i "" 0 0 m =
    Returns (OK,
      mkReplManager (_isRunning m)
        (mkServerEntry (getKVStoreCount (_svr m))
           (<[i := READ_WRITE]> (storeMode (_svr m)))
           (<[i := newMeta]> (catalog (_svr m)))
           (sp_sessionId sp :: cancelled (_svr m)))
        (<[i := newMeta]> (_syncMeta m))
        (<[i := mkSPovStatus false UINT64_MAX (sp_nextSchedTime sp)
                  (sp_lastSyncTime sp)]> (_syncStatus m))
        (_pushStatus m) (_fullPushStatus m) (_logRecycStatus m) 1).
Proof.
  intros Hdb Hdb2 Hmode Hcat Hcur Hid Hhost Hsp Hidle newMeta.
  unfold changeReplSource. rewrite Hdb. simpl.
  unfold changeReplSourceInLock, cv_wait_for, slaveIdle. simpl.
  apply vec_at_Returns in Hsp as Hat1. rewrite Hat1. simpl.
  rewrite Hidle. simpl.
  rewrite bool_decide_eq_false_2
    by (apply Nat.lt_nge; by eapply lookup_lt_Some).
  rewrite Hdb2. apply vec_at_Returns in Hcur as Hat. rewrite Hat. simpl.
  rewrite (bool_decide_eq_false_2 (syncFromHost cur = "")) by done.
  rewrite Hat1. simpl.
  rewrite vec_set_lt by (by eapply lookup_lt_Some). simpl.
  rewrite Hmode. simpl.
  unfold changeReplStateInLock, setStoreMeta, setStoreMode, cancelSession.
  rewrite Hcat, Hmode. simpl. rewrite Hid.
  rewrite vec_set_lt by (by eapply lookup_lt_Some). simpl.
  unfold sp_with_sessionId. rewrite Hidle. reflexivity.
Qed.

(** X8.  A detach request ([ip = ""], port and source store 0) on an open
    store that is attached and idle, with the server and the catalog
    answering OK, returns OK: the session of the slave slot is cancelled
    and reset to none, the store is switched to [READ_WRITE], the meta of
    the store becomes the empty source with [REPL_NONE] and
    [binlogId = TXNID_UNINITED], in the catalog and in the cache alike,
    and the connect timeout is 1.  Nothing else changes. *)
Theorem changeReplSource_detach `{TransactionIds} (e : ChangeEnv) (i : nat)
  (m : ReplManager) (isEmpty : bool) (cur : StoreMeta) (sp : SPovStatus) :
  ce_getDb e = Value (true, isEmpty) →
  ce_getDbInLock e = Value () →
  ok (ce_setStoreMode e) = true →
  ok (ce_setStoreMeta e) = true →
  _syncMeta m !! i = Some cur → meta_id cur = i → syncFromHost cur ≠ "" →
  _syncStatus m !! i = Some sp → sp_isRunning sp = false →
  let newMeta := mkStoreMeta i "" 0 0 TXNID_UNINITED REPL_NONE in
  ∃ m',
    changeReplSource e i "" 0 0 m = Returns (OK, m') ∧
    _syncMeta m' = <[i := newMeta]> (_syncMeta m) ∧
    catalog (_svr m') = <[i := newMeta]> (catalog (_svr m)) ∧
    storeMode (_svr m') = <[i := READ_WRITE]> (storeMode (_svr m)) ∧
    _connectMasterTimeoutMs m' = 1 ∧
    cancelled (_svr m') = sp_sessionId sp :: cancelled (_svr m) ∧
    _syncStatus m' =
      <[i := mkSPovStatus false UINT64_MAX (sp_nextSchedTime sp)
                (sp_lastSyncTime sp)]> (_syncStatus m) ∧
    getKVStoreCount (_svr m') = getKVStoreCount (_svr m) ∧
    _isRunning m' = _isRunning m ∧
    _pushStatus m' = _pushStatus m ∧
    _fullPushStatus m' = _fullPushStatus m ∧
    _logRecycStatus m' = _logRecycStatus m.
Proof.
  intros Hdb Hdb2 Hmode Hcat Hcur Hid Hhost Hsp Hidle newMeta.
  eexists. split.
  - by eapply (detach_result e i m isEmpty cur sp).
  - simpl. by split_and!.
Qed.

Lemma changeReplSource_detach_witness :
  ∃ m', @changeReplSource upstreamTxnIds exChangeEnv 1 "" 0 0 exAttached =
          Returns (OK, m') ∧
        _syncMeta m' !! 1%nat = Some (mkStoreMeta 1 "" 0 0 0 REPL_NONE).
Proof.
  destruct (@changeReplSource_detach upstreamTxnIds exChangeEnv 1 exAttached
              true (mkStoreMeta 1 "10.0.0.5" 6379 1 0 REPL_CONNECT)
              (mkSPovStatus false UINT64_MAX 5000 5000))
    as (m' & Hrun & Hmeta & _); try done.
  exists m'. split; [exact Hrun|]. rewrite Hmeta. reflexivity.
Defined.

(** X9.  Attach followed by detach: the store is back to [REPL_NONE] with
    an empty source host, port 0 and [binlogId = TXNID_UNINITED], durably
    and in the cache; its mode is [READ_WRITE] again, the connect timeout
    is 1, and the metas of the other stores, the subscribers and the
    recycle slots are those before the attach.  (The source store id of
    the meta is 0 afterwards, whatever it was before.) *)
Theorem attach_detach_round_trip `{TransactionIds} (e1 e2 : ChangeEnv)
  (i : nat) (ip : string) (port sourceStoreId : Z) (m : ReplManager)
  (isEmpty : bool) (cur : StoreMeta) (sp : SPovStatus) :
  ip ≠ "" →
  ce_getDb e1 = Value (true, true) → ce_getDb e2 = Value (true, isEmpty) →
  ce_getDbInLock e1 = Value () → ce_getDbInLock e2 = Value () →
  ok (ce_setStoreMode e1) = true → ok (ce_setStoreMode e2) = true →
  ok (ce_setStoreMeta e1) = true → ok (ce_setStoreMeta e2) = true →
  _syncMeta m !! i = Some cur → meta_id cur = i → syncFromHost cur = "" →
  _syncStatus m !! i = Some sp → sp_isRunning sp = false →
  ∃ m1 m2,
    changeReplSource e1 i ip port sourceStoreId m = Returns (OK, m1) ∧
    changeReplSource e2 i "" 0 0 m1 = Returns (OK, m2) ∧
    _syncMeta m2 =
      <[i := mkStoreMeta i "" 0 0 TXNID_UNINITED REPL_NONE]> (_syncMeta m) ∧
    catalog (_svr m2) =
      <[i := mkStoreMeta i "" 0 0 TXNID_UNINITED REPL_NONE]>
        (catalog (_svr m)) ∧
    storeMode (_svr m2) = <[i := READ_WRITE]> (storeMode (_svr m)) ∧
    _connectMasterTimeoutMs m2 = 1 ∧
    _pushStatus m2 = _pushStatus m ∧
    _fullPushStatus m2 = _fullPushStatus m ∧
    _logRecycStatus m2 = _logRecycStatus m.
Proof.
  intros Hip Hdb1 Hdb2 Hl1 Hl2 Hm1 Hm2 Hc1 Hc2 Hcur Hid Hhost Hsp Hidle.
  assert (Hlt : (i < length (_syncMeta m))%nat) by (by eapply lookup_lt_Some).
  eexists _, _. split.
  { by eapply (attach_result e1 i ip port sourceStoreId m cur sp). }
  split.
  { eapply (detach_result e2 i _ isEmpty
              (mkStoreMeta i ip (port `mod` 2 ^ 16) sourceStoreId
                 TXNID_UNINITED REPL_CONNECT) sp); try done.
    simpl. by rewrite list_lookup_insert_eq. }
  simpl. split_and!; try done.
  - by rewrite list_insert_insert_eq.
  - by rewrite insert_insert_eq.
  - by rewrite list_insert_insert_eq.
Qed.

Lemma attach_detach_round_trip_witness :
  ∃ m1 m2,
    @changeReplSource upstreamTxnIds exChangeEnv 1 "10.0.0.5" 6379 1 exBooted =
      Returns (OK, m1) ∧
    @changeReplSource upstreamTxnIds exChangeEnv 1 "" 0 0 m1 =
      Returns (OK, m2) ∧
    _syncMeta m2 !! 1%nat = Some (mkStoreMeta 1 "" 0 0 0 REPL_NONE).
Proof.
  destruct (@attach_detach_round_trip upstreamTxnIds exChangeEnv exChangeEnv
              1 "10.0.0.5" 6379 1 exBooted true
              (mkStoreMeta 1 "" 0 (-1) 0 REPL_NONE)
              (mkSPovStatus false UINT64_MAX 5000 5000))
    as (m1 & m2 & H1 & H2 & H3 & _); try done.
  exists m1, m2. split_and!; [exact H1|exact H2|].
  rewrite H3. reflexivity.
Defined.

(** X10.  An attach request on an open store that already has a source
    never attaches.  When the store is not empty it is refused with MANUAL
    ("store not empty") and the manager is untouched.  When the store is
    empty, the slave slot is idle and the second look-up succeeds, it is
    refused with BUSY: the meta, the catalog, the store mode and the slots
    stay as they are, and only the connect timeout is set, to 1000. *)
Theorem changeReplSource_busy `{TransactionIds} (e : ChangeEnv) (i : nat)
  (ip : string) (port sourceStoreId : Z) (m : ReplManager)
  (isEmpty : bool) (cur : StoreMeta) (sp : SPovStatus) :
  ip ≠ "" →
  ce_getDb e = Value (true, isEmpty) →
  ce_getDbInLock e = Value () →
  _syncMeta m !! i = Some cur → syncFromHost cur ≠ "" →
  _syncStatus m !! i = Some sp → sp_isRunning sp = false →
  changeReplSource e i ip port sourceStoreId m =
    if isEmpty
    then Returns (mkStatus ERR_BUSY
                    "explicit set sync source empty before change it",
                  with_connectMasterTimeoutMs 1000 m)
    else Returns (mkStatus ERR_MANUAL "store not empty", m).
Proof.
  intros Hip Hdb Hdb2 Hcur Hhost Hsp Hidle.
  unfold changeReplSource. rewrite Hdb. simpl.
  rewrite (bool_decide_eq_true_2 _ Hip). simpl.
  destruct isEmpty; simpl; [|reflexivity].
  unfold changeReplSourceInLock, cv_wait_for, slaveIdle.
  rewrite (bool_decide_eq_true_2 _ Hip). simpl.
  apply vec_at_Returns in Hsp as ->. simpl. rewrite Hidle. simpl.
  rewrite bool_decide_eq_false_2
    by (apply Nat.lt_nge; by eapply lookup_lt_Some).
  rewrite Hdb2. apply vec_at_Returns in Hcur as ->. simpl.
  by rewrite (bool_decide_eq_true_2 (syncFromHost cur ≠ "")).
Qed.

Lemma changeReplSource_busy_witness :
  @changeReplSource upstreamTxnIds exChangeEnv 1 "10.0.0.6" 6379 1 exAttached =
    Returns (mkStatus ERR_BUSY "explicit set sync source empty before change it",
             with_connectMasterTimeoutMs 1000 exAttached) ∧
  @changeReplSource upstreamTxnIds
    (mkChangeEnv (Value (true, false)) (λ _ m, m) (Value ()) OK OK OK)
    1 "10.0.0.6" 6379 1 exAttached =
    Returns (mkStatus ERR_MANUAL "store not empty", exAttached).
Proof.
  split.
  - apply (@changeReplSource_busy upstreamTxnIds exChangeEnv 1 "10.0.0.6" 6379
             1 exAttached true (mkStoreMeta 1 "10.0.0.5" 6379 1 0 REPL_CONNECT)
             (mkSPovStatus false UINT64_MAX 5000 5000)); done.
  - apply (@changeReplSource_busy upstreamTxnIds _ 1 "10.0.0.6" 6379
             1 exAttached false (mkStoreMeta 1 "10.0.0.5" 6379 1 0 REPL_CONNECT)
             (mkSPovStatus false UINT64_MAX 5000 5000)); done.
Defined.

(** X11.  Persistence precedes the install and its failure is fatal: when
    the catalog refuses the write of the new meta, an attach or a detach
    that has got as far as the write aborts the process; it never returns
    with a cache that differs from the catalog. *)
Theorem changeReplSource_catalog_failure_fatal `{TransactionIds}
  (e : ChangeEnv) (i : nat) (ip : string) (port sourceStoreId : Z)
  (m : ReplManager) (isEmpty : bool) (cur : StoreMeta) (sp : SPovStatus) :
  ce_getDb e = Value (true, isEmpty) →
  ce_getDbInLock e = Value () →
  ok (ce_setStoreMode e) = true →
  ok (ce_setStoreMeta e) = false →
  _syncMeta m !! i = Some cur →
  _syncStatus m !! i = Some sp → sp_isRunning sp = false →
  (ip ≠ "" → isEmpty = true ∧ syncFromHost cur = "") →
  (ip = "" → syncFromHost cur ≠ "" ∧ port = 0 ∧ sourceStoreId = 0) →
  changeReplSource e i ip port sourceStoreId m = Fatal.
Proof.
  intros Hdb Hdb2 Hmode Hcat Hcur Hsp Hidle Hattach Hdetach.
  unfold changeReplSource. rewrite Hdb. simpl.
  unfold changeReplSourceInLock, cv_wait_for, slaveIdle.
  apply vec_at_Returns in Hsp as Hat1. apply vec_at_Returns in Hcur as Hat.
  destruct (decide (ip = "")) as [->|Hip].
  - destruct (Hdetach eq_refl) as (Hhost & -> & ->). simpl.
    rewrite Hat1. simpl. rewrite Hidle. simpl.
    rewrite bool_decide_eq_false_2
      by (apply Nat.lt_nge; by eapply lookup_lt_Some).
    rewrite Hdb2, Hat. simpl.
    rewrite (bool_decide_eq_false_2 (syncFromHost cur = "")) by done.
    rewrite Hat1. simpl.
    rewrite vec_set_lt by (by eapply lookup_lt_Some). simpl.
    rewrite Hmode. simpl. unfold changeReplStateInLock. by rewrite Hcat.
  - destruct (Hattach Hip) as (-> & Hhost).
    rewrite (bool_decide_eq_true_2 _ Hip). simpl.
    rewrite Hat1. simpl. rewrite Hidle. simpl.
    rewrite bool_decide_eq_false_2
      by (apply Nat.lt_nge; by eapply lookup_lt_Some).
    rewrite Hdb2, Hat. simpl.
    rewrite (bool_decide_eq_false_2 (syncFromHost cur ≠ ""))
      by (intros Hne; by apply Hne).
    rewrite Hmode. simpl. unfold changeReplStateInLock. by rewrite Hcat.
Qed.

Lemma changeReplSource_catalog_failure_fatal_witness :
  @changeReplSource upstreamTxnIds
     (mkChangeEnv (Value (true, true)) (λ _ m, m) (Value ()) OK OK
        (mkStatus ERR_INTERNAL "io"))
     1 "10.0.0.5" 6379 1 exBooted = Fatal.
Proof.
  apply (@changeReplSource_catalog_failure_fatal upstreamTxnIds _ 1
           "10.0.0.5" 6379 1 exBooted true
           (mkStoreMeta 1 "" 0 (-1) 0 REPL_NONE)
           (mkSPovStatus false UINT64_MAX 5000 5000)); done.
Defined.

(** ** The metas: ids and durability *)

Lemma meta_with_binlogId_id meta : meta_with_binlogId (binlogId meta) meta = meta.
Proof. by destruct meta. Qed.

Lemma meta_with_binlogId_twice a b meta :
  meta_with_binlogId a (meta_with_binlogId b meta) = meta_with_binlogId a meta.
Proof. by destruct meta. Qed.

Lemma sameMetas_refl m : sameMetas m m.
Proof. by split. Qed.

Lemma sameMetas_trans m1 m2 m3 :
  sameMetas m1 m2 → sameMetas m2 m3 → sameMetas m1 m3.
Proof. intros [? ?] [? ?]. split; congruence. Qed.

Lemma sameMetas_inv m m' :
  sameMetas m m' → idsInPlace m ∧ persisted m → idsInPlace m' ∧ persisted m'.
Proof.
  intros [Hm Hc] [Hids Hper]. unfold idsInPlace, persisted.
  rewrite Hm, Hc. by split.
Qed.

Lemma sameMetas_setStoreMode answer i mode m :
  sameMetas m (setStoreMode answer i mode m).
Proof. unfold sameMetas, setStoreMode. by destruct (ok answer). Qed.

(** The write of a meta that carries the id of the store it is written
    for keeps the ids in place and the cache durable. *)
Lemma changeReplStateInLock_inv answer newMeta m m' :
  changeReplStateInLock answer newMeta true m = Returns m' →
  idsInPlace m ∧ persisted m → idsInPlace m' ∧ persisted m'.
Proof.
  unfold changeReplStateInLock. intros Hrun [Hids Hper].
  apply bind_Returns in Hrun as (m1 & Hm1 & Hrun).
  destruct (ok answer) eqn:Eok; [|done]. injection Hm1 as <-.
  apply bind_Returns in Hrun as (l & [-> Hlt]%vec_set_Returns & Hrun).
  injection Hrun as <-. unfold setStoreMeta in *. rewrite Eok in *.
  simpl in *. split.
  - intros j meta Hj. simpl in Hj.
    destruct (decide (meta_id newMeta = j)) as [<-|Hne].
    + rewrite list_lookup_insert_eq in Hj by done. by injection Hj as <-.
    + rewrite list_lookup_insert_ne in Hj by done. by apply Hids.
  - intros j meta Hj. simpl in *.
    destruct (decide (meta_id newMeta = j)) as [<-|Hne].
    + rewrite list_lookup_insert_eq in Hj by done. injection Hj as <-.
      exists newMeta. rewrite lookup_insert_eq.
      by rewrite meta_with_binlogId_id.
    + rewrite list_lookup_insert_ne in Hj by done.
      rewrite lookup_insert_ne by done. by apply Hper.
Qed.

Lemma changeReplSource_inv `{TransactionIds} e storeId ip port sid m st m' :
  quiet e →
  changeReplSource e storeId ip port sid m = Returns (st, m') →
  idsInPlace m ∧ persisted m → idsInPlace m' ∧ persisted m'.
Proof.
  intros Hquiet. unfold changeReplSource. intros Hrun Hinv.
  destruct (ce_getDb e) as [[isOpen isEmpty]|s].
  2:{ by injection Hrun as _ <-. }
  destruct isOpen; simpl in Hrun.
  2:{ by injection Hrun as _ <-. }
  destruct (bool_decide (ip ≠ "") && negb isEmpty).
  { by injection Hrun as _ <-. }
  apply bind_Returns in Hrun as ([s m1] & Hin & Hrun).
  assert (m' = m1) as ->.
  { destruct (ok s); simpl in Hrun; by injection Hrun as _ <-. }
  clear Hrun. unfold changeReplSourceInLock in Hin.
  set (m0 := if bool_decide (ip ≠ "")
             then with_connectMasterTimeoutMs 1000 m
             else with_connectMasterTimeoutMs 1 m) in Hin.
  assert (K0 : idsInPlace m0 ∧ persisted m0).
  { subst m0. by destruct (bool_decide (ip ≠ "")). }
  clear Hinv.
  apply bind_Returns in Hin as ([yielded m2] & Hwait & Hin).
  assert (m2 = m0) as ->.
  { unfold cv_wait_for in Hwait.
    apply bind_Returns in Hwait as (b & _ & Hwait).
    destruct b; [by injection Hwait as _ <-|].
    apply bind_Returns in Hwait as (b' & _ & Hwait).
    injection Hwait as _ <-. apply Hquiet. }
  clear Hwait.
  destruct yielded; simpl in Hin.
  2:{ by injection Hin as _ <-. }
  destruct (bool_decide (length (_syncMeta m0) ≤ storeId)%nat).
  { by injection Hin as _ <-. }
  destruct (ce_getDbInLock e).
  2:{ by injection Hin as _ <-. }
  apply bind_Returns in Hin as (cur & Hcur & Hin).
  destruct (bool_decide (ip ≠ "")).
  - destruct (bool_decide (syncFromHost cur ≠ "")).
    { by injection Hin as _ <-. }
    assert (K1 : idsInPlace
                   (setStoreMode (ce_setStoreMode e) storeId REPLICATE_ONLY
                      (with_connectMasterTimeoutMs 1000 m0)) ∧
                 persisted
                   (setStoreMode (ce_setStoreMode e) storeId REPLICATE_ONLY
                      (with_connectMasterTimeoutMs 1000 m0))).
    { eapply sameMetas_inv; [apply sameMetas_setStoreMode|done]. }
    destruct (ok (ce_setStoreMode e)); simpl in Hin.
    + apply bind_Returns in Hin as (m3 & Hm3 & Hin). injection Hin as _ <-.
      by eapply changeReplStateInLock_inv.
    + by injection Hin as _ <-.
  - destruct (bool_decide (syncFromHost cur = "")).
    { by injection Hin as _ <-. }
    apply bind_Returns in Hin as (sp & Hsp & Hin).
    apply bind_Returns in Hin as (l & [-> Hlt]%vec_set_Returns & Hin).
    match type of Hin with
    | context [setStoreMode ?a ?i ?mode ?mm] =>
        assert (K3 : idsInPlace (setStoreMode a i mode mm) ∧
                     persisted (setStoreMode a i mode mm))
          by (eapply sameMetas_inv; [apply sameMetas_setStoreMode|done])
    end.
    destruct (ok (ce_setStoreMode e)); simpl in Hin.
    + apply bind_Returns in Hin as ([] & _ & Hin).
      apply bind_Returns in Hin as (m3 & Hm3 & Hin). injection Hin as _ <-.
      by eapply changeReplStateInLock_inv.
    + by injection Hin as _ <-.
Qed.

Lemma loadMeta_metas `{TransactionIds} e i m m' :
  loadMeta e i m = Returns (inr m') →
  ∃ meta, _syncMeta m' = _syncMeta m ++ [meta] ∧
          catalog (_svr m') !! i = Some meta ∧
          (∀ j, j ≠ i → catalog (_svr m') !! j = catalog (_svr m) !! j).
Proof.
  unfold loadMeta, getStoreMeta. intros Hrun.
  assert (Hdefault : ∀ m0,
    (if negb (ok (su_setStoreMeta e i)) then mret (inl (su_setStoreMeta e i, m))
     else
       mret (inr (with_syncMeta
                    (_syncMeta
                       (setStoreMeta (su_setStoreMeta e i)
                          (mkStoreMeta i "" 0 (-1) TXNID_UNINITED REPL_NONE) m) ++
                     [mkStoreMeta i "" 0 (-1) TXNID_UNINITED REPL_NONE])
                    (setStoreMeta (su_setStoreMeta e i)
                       (mkStoreMeta i "" 0 (-1) TXNID_UNINITED REPL_NONE) m))))
      = Returns (inr m0) →
    ∃ meta, _syncMeta m0 = _syncMeta m ++ [meta] ∧
            catalog (_svr m0) !! i = Some meta ∧
            (∀ j, j ≠ i → catalog (_svr m0) !! j = catalog (_svr m) !! j)).
  { intros m0 H0. destruct (ok (su_setStoreMeta e i)) eqn:Eok; [|done].
    simpl in H0. injection H0 as <-. unfold setStoreMeta. rewrite Eok. simpl.
    eexists. split_and!; [done|apply lookup_insert_eq|].
    intros j Hne. by rewrite lookup_insert_ne. }
  destruct (su_readFailure e i) as [s|].
  - destruct (bool_decide (code s = ERR_NOTFOUND)); [|done].
    by apply Hdefault.
  - destruct (catalog (_svr m) !! i) as [meta0|] eqn:Ecat.
    + injection Hrun as <-. simpl. by exists meta0.
    + simpl in Hrun. by apply Hdefault.
Qed.

Lemma firstMisplaced_None k l :
  firstMisplaced k l = None →
  ∀ j meta, l !! j = Some meta → meta_id meta = (k + j)%nat.
Proof.
  revert k. induction l as [|x l IH]; intros k; simpl; [by intros _ []|].
  destruct (bool_decide (k ≠ meta_id x)) eqn:E; [done|].
  apply bool_decide_eq_false in E. intros Hrest [|j] meta Hj; simpl in Hj.
  - injection Hj as <-. destruct (decide (k = meta_id x)); [lia|done].
  - rewrite (IH _ Hrest _ _ Hj). lia.
Qed.

Lemma startStore_metas `{TransactionIds} `{StringUtils} e i m m' :
  startStore e i m = Returns (inr m') →
  catalog (_svr m') = catalog (_svr m) ∧
  ∀ j meta', _syncMeta m' !! j = Some meta' →
    ∃ meta, _syncMeta m !! j = Some meta ∧
            meta' = meta_with_binlogId (binlogId meta') meta.
Proof.
  unfold startStore. intros Hrun.
  destruct (sb_getDb (su_store e i)) as [isOpen|s] eqn:Edb; [|done].
  simpl in Hrun.
  apply bind_Returns in Hrun as (r & Hr & Hrun).
  destruct r as [sm|[seq0 m1]]; [done|].
  assert (Hm1 : catalog (_svr m1) = catalog (_svr m) ∧
    ∀ j meta', _syncMeta m1 !! j = Some meta' →
      ∃ meta, _syncMeta m !! j = Some meta ∧
              meta' = meta_with_binlogId (binlogId meta') meta).
  { destruct isOpen.
    - apply bind_Returns in Hr as (meta & Hmeta%vec_at_Returns & Hr).
      simpl in Hmeta.
      apply bind_Returns in Hr as ([status m2] & Hst & Hr).
      destruct (ok status) eqn:Eok; simpl in Hr; [|done].
      apply bind_Returns in Hr as (ef & Hef & Hr).
      destruct ef as [v|]; [|done]. injection Hr as -> ->.
      destruct (bool_decide (syncFromHost meta = "")).
      + injection Hst as -> <-. use_setStoreMode_frame.
        split; [done|]. intros j meta' Hj. exists meta'.
        by rewrite meta_with_binlogId_id.
      + simpl in Hst.
        apply bind_Returns in Hst as (l & [-> Hlt]%vec_set_Returns & Hst).
        injection Hst as -> <-. simpl. use_setStoreMode_frame.
        split; [done|]. intros j meta' Hj.
        destruct (decide (i = j)) as [<-|Hne].
        * rewrite list_lookup_insert_eq in Hj by (by eapply lookup_lt_Some).
          injection Hj as <-. exists meta. split; [done|]. by destruct meta.
        * rewrite list_lookup_insert_ne in Hj by done. exists meta'.
          by rewrite meta_with_binlogId_id.
    - injection Hr as <- <-. simpl. split; [done|].
      intros j meta' Hj. exists meta'. by rewrite meta_with_binlogId_id. }
  assert (Hfin : _syncMeta m' = _syncMeta m1 ∧ _svr m' = _svr m1).
  { destruct isOpen.
    - destruct (sb_createTransaction (su_store e i)); [|done].
      destruct (sb_getMinBinlog (su_store e i)) as [[binlog ts]|s].
      + by injection Hrun as <-.
      + destruct (bool_decide (code s = ERR_EXHAUST)); [|done].
        by injection Hrun as <-.
    - by injection Hrun as <-. }
  destruct Hfin as [-> ->]. exact Hm1.
Qed.

(** The metas [startup] leaves when it returns OK. *)
Lemma startup_metas `{TransactionIds} `{StringUtils} e sv m' :
  startupEnvSound e →
  startup e (newReplManager sv) = Returns (OK, m') →
  idsInPlace m' ∧ persisted m'.
Proof.
  intros Hsound. unfold startup.
  change (_svr (newReplManager sv)) with sv.
  set (n := getKVStoreCount sv). intros Hrun.
  apply bind_Returns in Hrun as (r & Hr & Hrun).
  destruct r as [sm|m1].
  { injection Hrun as ->.
    apply forStores_inl in Hr; [done|]. intros i m sm. by apply loadMeta_inl. }
  pose (I1 := λ (k : nat) (m : ReplManager),
    length (_syncMeta m) = k ∧
    ∀ j meta, _syncMeta m !! j = Some meta →
              catalog (_svr m) !! j = Some meta).
  assert (S1 : ∀ i m m2, I1 i m → loadMeta e i m = Returns (inr m2) →
                         I1 (S i) m2).
  { intros i m m2 [Hlen Hcat] Hm2.
    apply loadMeta_metas in Hm2 as (meta & Hm & Hi & Hother).
    unfold I1. rewrite Hm.
    split; [rewrite length_app; simpl; lia|].
    intros j meta' Hj. apply lookup_app_Some in Hj as [Hj|[Hge Hj]].
    - rewrite Hother; [by apply Hcat|].
      apply lookup_lt_Some in Hj. lia.
    - apply list_lookup_singleton_Some in Hj as [Hj <-].
      assert (j = i) as -> by lia. done. }
  assert (B1 : I1 0%nat (newReplManager sv)).
  { split; [done|]. intros j meta Hj. by destruct j. }
  pose proof (forStores_seq_inr (loadMeta e) I1 S1 n 0%nat _ _ B1 Hr)
    as [L1 C1].
  apply bind_Returns in Hrun as ([] & _ & Hrun).
  destruct (firstMisplaced 0 (_syncMeta m1)) as [[i j]|] eqn:Eids; [done|].
  destruct (firstFailure _) as [s|] eqn:Epool.
  { injection Hrun as -> <-. by apply firstFailure_Some in Epool. }
  apply bind_Returns in Hrun as (r & Hr2 & Hrun).
  destruct r as [sm|m2].
  { injection Hrun as ->.
    apply forStores_inl in Hr2; [done|]. intros i m sm. by apply startStore_inl. }
  apply bind_Returns in Hrun as ([] & _ & Hrun). injection Hrun as <-.
  pose (I2 := λ (k : nat) (m : ReplManager), idsInPlace m ∧ persisted m).
  assert (S2 : ∀ i m m3, I2 i m → startStore e i m = Returns (inr m3) →
                         I2 (S i) m3).
  { intros i m m3 [Hids Hper] Hm3.
    apply startStore_metas in Hm3 as [Hcat Hmetas]. split.
    - intros j meta' Hj. destruct (Hmetas _ _ Hj) as (meta & Hmeta & ->).
      simpl. by apply Hids.
    - intros j meta' Hj. destruct (Hmetas _ _ Hj) as (meta & Hmeta & Heq).
      destruct (Hper _ _ Hmeta) as (cm & Hcm & Heq'). exists cm.
      rewrite Hcat. split; [done|].
      rewrite Heq, Heq'. simpl. by rewrite meta_with_binlogId_twice. }
  assert (B2 : I2 0%nat m1).
  { split.
    - intros j meta Hj. by rewrite (firstMisplaced_None _ _ Eids _ _ Hj).
    - intros j meta Hj. exists meta. split; [by apply C1|].
      by rewrite meta_with_binlogId_id. }
  pose proof (forStores_seq_inr (startStore e) I2 S2 n 0%nat _ _ B2 Hr2)
    as [Hids Hper].
  split; [exact Hids|exact Hper].
Qed.

(** X12.  In every manager reached through [startup],
    [changeReplSource], [stopStore] and passes of the controller, the meta
    of store [i] carries the id [i], and the cached meta of every store is
    the one the catalog holds, [binlogId] apart (the cache of a slave takes
    its [binlogId] from the store at boot). *)
Theorem reachable_metas_durable `{TransactionIds} `{StringUtils}
  (sv0 : ServerEntry) (m : ReplManager) :
  reachable sv0 m → idsInPlace m ∧ persisted m.
Proof.
  induction 1 as
    [e m Hsound Hrun
    |e sv m m' Hreach IH Hcat Hsound Hrun
    |e storeId ip port sid m st m' Hreach IH Hquiet Hrun
    |storeId m st m' Hreach IH Hrun
    |now now' m s Hreach IH Hrun].
  - by eapply startup_metas.
  - by eapply startup_metas.
  - by eapply changeReplSource_inv.
  - eapply sameMetas_inv; [|exact IH].
    unfold stopStore in Hrun.
    apply bind_Returns in Hrun as ([] & _ & Hrun).
    apply bind_Returns in Hrun as (sp & _ & Hrun).
    apply bind_Returns in Hrun as (l1 & _ & Hrun).
    apply bind_Returns in Hrun as (rb & _ & Hrun).
    apply bind_Returns in Hrun as (l2 & _ & Hrun).
    apply bind_Returns in Hrun as (ps & _ & Hrun).
    apply bind_Returns in Hrun as (l3 & _ & Hrun).
    apply bind_Returns in Hrun as (l4 & _ & Hrun).
    injection Hrun as _ <-. by split.
  - eapply sameMetas_inv; [|exact IH].
    destruct (controlPass_spec _ _ _ _ Hrun) as (_ & Hsvr & Hmeta & _).
    split; [done|by rewrite Hsvr].
Qed.

Lemma reachable_metas_durable_witness :
  idsInPlace exAttached ∧ persisted exAttached.
Proof.
  apply (@reachable_metas_durable upstreamTxnIds decimalStringUtils
           exFreshServer exAttached).
  exact exAttached_reachable.
Defined.

(** ** The slots [startup] creates *)

Lemma setStoreMode_ok answer i mode m :
  ok answer = true →
  storeMode (_svr (setStoreMode answer i mode m)) =
    <[i := mode]> (storeMode (_svr m)).
Proof. intros Hok. unfold setStoreMode. by rewrite Hok. Qed.

Lemma startStore_exact `{TransactionIds} `{StringUtils} e i m m' :
  startStore e i m = Returns (inr m') →
  ∃ isOpen seq0,
    sb_getDb (su_store e i) = Value isOpen ∧
    (if isOpen
     then maxDumpFileSeq (su_dumpPath e) i (sb_dumpDir (su_store e i)) =
            Returns (Value seq0)
     else seq0 = UINT32_MAX) ∧
    _syncStatus m' =
      _syncStatus m ++ [mkSPovStatus false UINT64_MAX
                          (bootTime (su_store e i) isOpen)
                          (bootTime (su_store e i) isOpen)] ∧
    _pushStatus m' = _pushStatus m ++ [∅] ∧
    _fullPushStatus m' = _fullPushStatus m ++ [∅] ∧
    _logRecycStatus m' =
      _logRecycStatus m ++ [bootRecycle (su_store e i) isOpen seq0] ∧
    (if isOpen
     then ∃ meta, _syncMeta m !! i = Some meta ∧
            _syncMeta m' = <[i := bootMeta (su_store e i) meta]> (_syncMeta m) ∧
            storeMode (_svr m') = <[i := bootMode meta]> (storeMode (_svr m))
     else _syncMeta m' = _syncMeta m ∧
          storeMode (_svr m') = storeMode (_svr m)).
Proof.
  unfold startStore. intros Hrun.
  destruct (sb_getDb (su_store e i)) as [isOpen|s] eqn:Edb; [|done].
  simpl in Hrun.
  apply bind_Returns in Hrun as (r & Hr & Hrun).
  destruct r as [sm|[seq0 m1]]; [done|].
  exists isOpen, seq0. split; [done|].
  destruct isOpen.
  - apply bind_Returns in Hr as (meta & Hmeta%vec_at_Returns & Hr).
    simpl in Hmeta.
    apply bind_Returns in Hr as ([status m2] & Hst & Hr).
    destruct (ok status) eqn:Eok; simpl in Hr; [|done].
    apply bind_Returns in Hr as (ef & Hef & Hr).
    destruct ef as [v|]; [|done]. injection Hr as -> ->.
    split; [done|].
    assert (Hm1 :
      _syncStatus m1 =
        _syncStatus m ++ [mkSPovStatus false UINT64_MAX
                            (sb_now (su_store e i)) (sb_now (su_store e i))] ∧
      _pushStatus m1 = _pushStatus m ++ [∅] ∧
      _fullPushStatus m1 = _fullPushStatus m ++ [∅] ∧
      _logRecycStatus m1 = _logRecycStatus m ∧
      _syncMeta m1 = <[i := bootMeta (su_store e i) meta]> (_syncMeta m) ∧
      storeMode (_svr m1) = <[i := bootMode meta]> (storeMode (_svr m))).
    { unfold bootMeta, bootMode.
      destruct (bool_decide (syncFromHost meta = "")).
      - injection Hst as -> <-.
        rewrite setStoreMode_ok by done. use_setStoreMode_frame.
        split_and!; try done. by rewrite list_insert_id.
      - simpl in Hst.
        apply bind_Returns in Hst as (l & [-> Hlt]%vec_set_Returns & Hst).
        injection Hst as -> <-. simpl.
        rewrite setStoreMode_ok by done. use_setStoreMode_frame.
        by split_and!. }
    destruct Hm1 as (E1 & E2 & E3 & E4 & E5 & E6).
    unfold bootRecycle, bootTime.
    destruct (sb_createTransaction (su_store e i)); [|done].
    destruct (sb_getMinBinlog (su_store e i)) as [[binlog ts]|s].
    + injection Hrun as <-. simpl. rewrite E4.
      split_and!; try done. by exists meta.
    + destruct (bool_decide (code s = ERR_EXHAUST)); [|done].
      injection Hrun as <-. simpl. rewrite E4.
      split_and!; try done. by exists meta.
  - injection Hr as <- <-. injection Hrun as <-. simpl.
    by split_and!.
Qed.

Lemma loadMeta_storeMode `{TransactionIds} e i m m' :
  loadMeta e i m = Returns (inr m') →
  storeMode (_svr m') = storeMode (_svr m).
Proof.
  unfold loadMeta. intros Hrun.
  destruct (getStoreMeta e i m) as [meta|st].
  - by injection Hrun as <-.
  - destruct (bool_decide (code st = ERR_NOTFOUND)); [|done].
    destruct (ok (su_setStoreMeta e i)) eqn:Eok; [|done].
    simpl in Hrun. injection Hrun as <-. unfold setStoreMeta.
    by rewrite Eok.
Qed.

Lemma bootMeta_host b meta : syncFromHost (bootMeta b meta) = syncFromHost meta.
Proof. unfold bootMeta. by destruct (bool_decide _), meta. Qed.

(** Every store of a manager [startup] has returned OK for is as
    [bootedStore] describes. *)
Lemma startup_stores `{TransactionIds} `{StringUtils} e sv m' i :
  startupEnvSound e →
  startup e (newReplManager sv) = Returns (OK, m') →
  (i < getKVStoreCount sv)%nat →
  bootedStore e (length (storeMode sv)) m' i.
Proof.
  intros Hsound. unfold startup.
  change (_svr (newReplManager sv)) with sv.
  set (n := getKVStoreCount sv). intros Hrun Hi.
  apply bind_Returns in Hrun as (r & Hr & Hrun).
  destruct r as [sm|m1].
  { injection Hrun as ->.
    apply forStores_inl in Hr; [done|]. intros j m sm. by apply loadMeta_inl. }
  pose (I1 := λ (k : nat) (m : ReplManager),
    length (_syncMeta m) = k ∧ _syncStatus m = [] ∧ _pushStatus m = [] ∧
    _fullPushStatus m = [] ∧ _logRecycStatus m = [] ∧
    storeMode (_svr m) = storeMode sv).
  assert (S1 : ∀ j m m2, I1 j m → loadMeta e j m = Returns (inr m2) →
                         I1 (S j) m2).
  { intros j m m2 (? & ? & ? & ? & ? & ?) Hm2.
    pose proof (loadMeta_storeMode _ _ _ _ Hm2).
    apply loadMeta_inr in Hm2 as (? & ? & ? & ? & ? & ? & ?).
    unfold I1. split_and!; congruence. }
  assert (B1 : I1 0%nat (newReplManager sv)) by (unfold I1; by split_and!).
  pose proof (forStores_seq_inr (loadMeta e) I1 S1 n 0%nat _ _ B1 Hr)
    as (L1 & L2 & L3 & L4 & L5 & L6). simpl in L1.
  apply bind_Returns in Hrun as ([] & _ & Hrun).
  destruct (firstMisplaced 0 (_syncMeta m1)) as [[a b]|]; [done|].
  destruct (firstFailure _) as [s|] eqn:Epool.
  { injection Hrun as -> <-. by apply firstFailure_Some in Epool. }
  apply bind_Returns in Hrun as (r & Hr2 & Hrun).
  destruct r as [sm|m2].
  { injection Hrun as ->.
    apply forStores_inl in Hr2; [done|]. intros j m sm. by apply startStore_inl. }
  apply bind_Returns in Hrun as ([] & _ & Hrun). injection Hrun as <-.
  set (modes := length (storeMode sv)).
  pose (I2 := λ (k : nat) (m : ReplManager),
    length (_syncMeta m) = n ∧ length (storeMode (_svr m)) = modes ∧
    length (_syncStatus m) = k ∧ length (_pushStatus m) = k ∧
    length (_fullPushStatus m) = k ∧ length (_logRecycStatus m) = k ∧
    ∀ j, (j < k)%nat →
      ∃ isOpen seq0,
        sb_getDb (su_store e j) = Value isOpen ∧
        (if isOpen
         then maxDumpFileSeq (su_dumpPath e) j (sb_dumpDir (su_store e j)) =
                Returns (Value seq0)
         else seq0 = UINT32_MAX) ∧
        _syncStatus m !! j =
          Some (mkSPovStatus false UINT64_MAX (bootTime (su_store e j) isOpen)
                  (bootTime (su_store e j) isOpen)) ∧
        _pushStatus m !! j = Some ∅ ∧
        _fullPushStatus m !! j = Some ∅ ∧
        _logRecycStatus m !! j = Some (bootRecycle (su_store e j) isOpen seq0) ∧
        ∀ meta, _syncMeta m !! j = Some meta → isOpen = true →
          (syncFromHost meta ≠ "" →
             binlogId meta = sb_getHighestBinlogId (su_store e j)) ∧
          ((j < modes)%nat → storeMode (_svr m) !! j = Some (bootMode meta))).
  assert (S2 : ∀ j m m3, I2 j m → startStore e j m = Returns (inr m3) →
                         I2 (S j) m3).
  { intros j m m3 (M1 & M2 & M3 & M4 & M5 & M6 & M7) Hm3.
    apply startStore_exact in Hm3
      as (isOpen & seq0 & Edb & Eseq & E1 & E2 & E3 & E4 & E5).
    assert (Hmetas : length (_syncMeta m3) = n ∧
                     length (storeMode (_svr m3)) = modes ∧
                     (∀ a, a ≠ j → _syncMeta m3 !! a = _syncMeta m !! a) ∧
                     (∀ a, a ≠ j → storeMode (_svr m3) !! a =
                                   storeMode (_svr m) !! a)).
    { destruct isOpen.
      - destruct E5 as (meta & _ & -> & ->). rewrite !length_insert.
        split_and!; try done; intros a Ha; by rewrite list_lookup_insert_ne.
      - destruct E5 as [-> ->]. by split_and!. }
    destruct Hmetas as (N1 & N2 & N3 & N4).
    unfold I2. rewrite E1, E2, E3, E4, !length_app. simpl.
    split_and!; try lia; try done.
    intros a Ha. destruct (decide (a = j)) as [->|Hne].
    - exists isOpen, seq0.
      rewrite !lookup_app_r by lia.
      rewrite M3, M4, M5, M6, Nat.sub_diag. simpl.
      split_and!; try done.
      intros meta' Hmeta' ->.
      destruct E5 as (meta & Hmeta & Em & Es).
      rewrite Em, list_lookup_insert_eq in Hmeta'
        by (by eapply lookup_lt_Some).
      injection Hmeta' as <-. split.
      + rewrite bootMeta_host. intros Hhost. unfold bootMeta.
        rewrite bool_decide_eq_false_2 by done. reflexivity.
      + intros Hlt. rewrite Es, list_lookup_insert_eq by lia.
        unfold bootMode. by rewrite bootMeta_host.
    - destruct (M7 a) as (o & q & F1 & F2 & F3 & F4 & F5 & F6 & F7); [lia|].
      exists o, q.
      rewrite !lookup_app_l by lia.
      rewrite (N3 _ Hne), (N4 _ Hne). by split_and!. }
  assert (B2 : I2 0%nat m1).
  { unfold I2. rewrite L2, L3, L4, L5, L6. simpl. split_and!; try done.
    intros j Hj. lia. }
  pose proof (forStores_seq_inr (startStore e) I2 S2 n 0%nat _ _ B2 Hr2)
    as (Hlen & _ & _ & _ & _ & _ & Hall).
  destruct (Hall i) as (o & q & F1 & F2 & F3 & F4 & F5 & F6 & F7);
    [simpl; lia|].
  destruct (lookup_lt_is_Some_2 (_syncMeta m2) i) as [meta Hmeta]; [lia|].
  exists o, q, meta. simpl. split_and!; try done. by apply F7.
Qed.

Lemma exClosedEnv_sound : startupEnvSound exClosedEnv.
Proof.
  split.
  - intros i s Hs. discriminate Hs.
  - intros i. split_and!; intros s Hs;
      first [discriminate Hs | injection Hs as <-; reflexivity].
Qed.

(** X13.  After a [startup] that returns OK, a store that is not open has
    its slave slot and its recycle slot idle with [nextSchedTime] at the
    maximum, no subscriber, [fileSeq = UINT32_MAX] and both binlog ids
    [TXNID_UNINITED]: the store is disabled exactly as [stopStore] would
    leave it. *)
Theorem startup_closed_store `{TransactionIds} `{StringUtils}
  (e : StartupEnv) (sv : ServerEntry) (m' : ReplManager) (i : nat) :
  startupEnvSound e →
  startup e (newReplManager sv) = Returns (OK, m') →
  (i < getKVStoreCount sv)%nat →
  sb_getDb (su_store e i) = Value false →
  _syncStatus m' !! i =
    Some (mkSPovStatus false UINT64_MAX time_point_max time_point_max) ∧
  _pushStatus m' !! i = Some ∅ ∧
  _fullPushStatus m' !! i = Some ∅ ∧
  _logRecycStatus m' !! i =
    Some (mkRecycleBinlogStatus false time_point_max TXNID_UNINITED
            TXNID_UNINITED UINT32_MAX 0 time_point_max 0 None) ∧
  disabled m' i.
Proof.
  intros Hsound Hrun Hi Hdb.
  destruct (startup_stores e sv m' i Hsound Hrun Hi)
    as (o & q & meta & F1 & F2 & F3 & F4 & F5 & F6 & _).
  rewrite Hdb in F1. injection F1 as <-. subst q.
  simpl in F3, F6. split_and!; try done.
  unfold disabled. rewrite F3, F4, F6. split_and!.
  - by intros st [= <-].
  - by intros rb [= <-].
  - intros ps c mpov [= <-] Hc. by rewrite lookup_empty in Hc.
Qed.

Lemma startup_closed_store_witness :
  ∃ m',
    @startup upstreamTxnIds decimalStringUtils exClosedEnv
      (newReplManager exFreshServer) = Returns (OK, m') ∧
    disabled m' 1.
Proof.
  eexists. split; [vm_compute; reflexivity|].
  eapply (@startup_closed_store upstreamTxnIds decimalStringUtils exClosedEnv
            exFreshServer _ 1%nat).
  - exact exClosedEnv_sound.
  - vm_compute. reflexivity.
  - simpl. lia.
  - reflexivity.
Defined.

(** X14.  After a [startup] that returns OK, an open store has an idle
    slave slot with no session, due at the clock reading of the boot, no
    subscriber and no full push, and an idle recycle slot due at the same
    instant that starts at the oldest binlog of the store, or at
    [MIN_VALID_TXNID] with timestamp 0 when the store has none; the store
    is writable when its meta has no source and replicate-only otherwise,
    and the cached [binlogId] of a slave is the highest binlog id of the
    store. *)
Theorem startup_open_store `{TransactionIds} `{StringUtils}
  (e : StartupEnv) (sv : ServerEntry) (m' : ReplManager) (i : nat) :
  startupEnvSound e →
  startup e (newReplManager sv) = Returns (OK, m') →
  (i < getKVStoreCount sv)%nat →
  sb_getDb (su_store e i) = Value true →
  let tp := sb_now (su_store e i) in
  _syncStatus m' !! i = Some (mkSPovStatus false UINT64_MAX tp tp) ∧
  _pushStatus m' !! i = Some ∅ ∧
  _fullPushStatus m' !! i = Some ∅ ∧
  (∃ rb, _logRecycStatus m' !! i = Some rb ∧
     rb_isRunning rb = false ∧ rb_nextSchedTime rb = tp ∧
     fileCreateTime rb = tp ∧ lastFlushBinlogId rb = TXNID_UNINITED ∧
     fileSize rb = 0 ∧ fs rb = None ∧
     (firstBinlogId rb, timestamp rb) =
       match sb_getMinBinlog (su_store e i) with
       | Value found => found
       | Error _ => (MIN_VALID_TXNID, 0)
       end) ∧
  (∃ meta, _syncMeta m' !! i = Some meta ∧
     (syncFromHost meta ≠ "" →
        binlogId meta = sb_getHighestBinlogId (su_store e i)) ∧
     ((i < length (storeMode sv))%nat →
        storeMode (_svr m') !! i =
          Some (if bool_decide (syncFromHost meta = "") then READ_WRITE
                else REPLICATE_ONLY))).
Proof.
  intros Hsound Hrun Hi Hdb tp.
  destruct (startup_stores e sv m' i Hsound Hrun Hi)
    as (o & q & meta & F1 & F2 & F3 & F4 & F5 & F6 & F7 & F8).
  rewrite Hdb in F1. injection F1 as <-.
  simpl in F3, F6. split_and!; try done.
  - eexists. split; [exact F6|]. unfold bootRecycle. simpl.
    destruct (sb_getMinBinlog (su_store e i)) as [[b ts]|]; by split_and!.
  - exists meta. split; [done|]. by apply F8.
Qed.

Lemma startup_open_store_witness :
  _syncStatus exBooted !! 0%nat =
    Some (mkSPovStatus false UINT64_MAX 5000 5000) ∧
  _pushStatus exBooted !! 0%nat = Some ∅.
Proof.
  destruct (@startup_open_store upstreamTxnIds decimalStringUtils
              exStartupEnv exFreshServer exBooted 0%nat)
    as (F1 & F2 & _).
  - exact exStartupEnv_sound.
  - exact exBooted_startup.
  - simpl. lia.
  - reflexivity.
  - split; [exact F1|exact F2].
Defined.

(** X15.  The first pass of the controller after a [startup] that returned
    OK, at an instant not before the clock reading of the boot, hands out
    a recycle job for every open store, a full-receive job for an open
    store whose meta is in [REPL_CONNECT], an incr-check job for one in
    [REPL_CONNECTED], and no push job: a restarted slave resumes its
    replication from the catalog. *)
Theorem startup_then_pass `{TransactionIds} `{StringUtils}
  (e : StartupEnv) (sv : ServerEntry) (m' : ReplManager) (i : nat)
  (now now' : Z) (s : Sched) :
  startupEnvSound e →
  startup e (newReplManager sv) = Returns (OK, m') →
  (i < getKVStoreCount sv)%nat →
  sb_getDb (su_store e i) = Value true →
  sb_now (su_store e i) ≤ now →
  controlPass now now' m' = Returns s →
  LogRecycle i ∈ sc_jobs s ∧
  (∀ clientId, IncrPush i clientId ∉ sc_jobs s) ∧
  ∃ meta, _syncMeta m' !! i = Some meta ∧
    (replState meta = REPL_CONNECT → FullReceive i ∈ sc_jobs s) ∧
    (replState meta = REPL_CONNECTED → IncrCheck i ∈ sc_jobs s).
Proof.
  intros Hsound Hrun Hi Hdb Hnow Hpass.
  destruct (startup_stores e sv m' i Hsound Hrun Hi)
    as (o & q & meta & F1 & F2 & F3 & F4 & F5 & F6 & F7 & F8).
  rewrite Hdb in F1. injection F1 as <-. simpl in F3, F6.
  pose proof (controlPass_jobs _ _ _ _ Hpass) as Hjobs.
  split_and!.
  - apply Hjobs. simpl. eexists. split; [exact F6|].
    unfold bootRecycle. simpl.
    destruct (sb_getMinBinlog (su_store e i)) as [[b ts]|]; by split.
  - intros c Hc. apply Hjobs in Hc as (ps & mpov & Hps & Hc & _).
    rewrite F4 in Hps. injection Hps as <-. by rewrite lookup_empty in Hc.
  - exists meta. split_and!; [done| |].
    + intros Hst. apply Hjobs. simpl. by eexists _, _.
    + intros Hst. apply Hjobs. simpl. by eexists _, _.
Qed.

Lemma startup_then_pass_witness :
  ∃ m' s,
    @startup upstreamTxnIds decimalStringUtils exStartupEnv
      (newReplManager (_svr exAttached)) = Returns (OK, m') ∧
    controlPass 6000 6000 m' = Returns s ∧
    LogRecycle 1 ∈ sc_jobs s.
Proof.
  eexists _, _.
  split_and!; [vm_compute; reflexivity|vm_compute; reflexivity|].
  eapply (@startup_then_pass upstreamTxnIds decimalStringUtils exStartupEnv
            (_svr exAttached) _ 1%nat 6000 6000).
  - exact exStartupEnv_sound.
  - vm_compute. reflexivity.
  - simpl. lia.
  - reflexivity.
  - simpl. lia.
  - vm_compute. reflexivity.
Defined.

(** ** The scan of the dump directory *)

Lemma maxDumpFileSeqLoop_below `{StringUtils} subpath entries throws maxFno n :
  0 ≤ maxFno < UINT32_MAX →
  maxDumpFileSeqLoop subpath entries throws maxFno = Returns (Value n) →
  0 ≤ n < UINT32_MAX.
Proof.
  revert maxFno. induction entries as [|p entries IH]; intros maxFno Hm; simpl.
  - destruct throws; [done|]. by intros [= <-].
  - destruct (is_regular_file p); simpl; [|by apply IH].
    destruct (String.prefix subpath (path p)); simpl; [|done].
    destruct (stoul _) as [fno|] eqn:Efno; [|done].
    destruct (bool_decide (UINT32_MAX ≤ fno)) eqn:Ebig; [done|].
    apply bool_decide_eq_false in Ebig. apply stoul_range in Efno.
    apply IH. rewrite Z.mod_small by (unfold UINT32_MAX in *; lia). lia.
Qed.

Lemma maxDumpFileSeq_below `{StringUtils} dumpPath storeId dir n :
  maxDumpFileSeq dumpPath storeId dir = Returns (Value n) →
  0 ≤ n < UINT32_MAX.
Proof.
  unfold maxDumpFileSeq. destruct (dd_create_throws dir); [done|].
  apply maxDumpFileSeqLoop_below. unfold UINT32_MAX. lia.
Qed.

Lemma maxDumpFileSeqLoop_regular `{StringUtils} subpath entries throws maxFno :
  maxDumpFileSeqLoop subpath
    (filter (λ p, is_regular_file p = true) entries) throws maxFno =
  maxDumpFileSeqLoop subpath entries throws maxFno.
Proof.
  revert maxFno. induction entries as [|p entries IH]; intros maxFno; [done|].
  destruct (is_regular_file p) eqn:Ereg.
  - rewrite filter_cons_True by done. simpl. rewrite Ereg. simpl.
    destruct (String.prefix subpath (path p)); simpl; [|done].
    destruct (stoul _) as [fno|]; [|done].
    destruct (bool_decide (UINT32_MAX ≤ fno)); [done|]. apply IH.
  - rewrite filter_cons_False by (by rewrite Ereg). simpl. rewrite Ereg.
    simpl. apply IH.
Qed.

Lemma maxDumpFileSeqLoop_perm `{StringUtils} subpath l l' throws :
  l ≡ₚ l' →
  ∀ maxFno n,
    maxDumpFileSeqLoop subpath l throws maxFno = Returns (Value n) →
    maxDumpFileSeqLoop subpath l' throws maxFno = Returns (Value n).
Proof.
  induction 1 as [|x l l' _ IH|x y l|l l' l'' _ IH1 _ IH2]; intros maxFno n.
  - done.
  - simpl. destruct (is_regular_file x); simpl; [|apply IH].
    destruct (String.prefix subpath (path x)); simpl; [|done].
    destruct (stoul _) as [fno|]; [|done].
    destruct (bool_decide (UINT32_MAX ≤ fno)); [done|]. apply IH.
  - simpl.
    destruct (is_regular_file x), (is_regular_file y); simpl; try done.
    destruct (String.prefix subpath (path x)),
      (String.prefix subpath (path y)); simpl; try done.
    all: destruct (stoul (fileSeqField
                            (string_drop (String.length subpath) (path x))))
           as [a|]; try done.
    all: destruct (stoul (fileSeqField
                            (string_drop (String.length subpath) (path y))))
           as [b|]; try done.
    all: try (destruct (bool_decide (UINT32_MAX ≤ a)); try done).
    all: try (destruct (bool_decide (UINT32_MAX ≤ b)); try done).
    by replace (Z.max (Z.max maxFno (b `mod` 2 ^ 32)) (a `mod` 2 ^ 32))
      with (Z.max (Z.max maxFno (a `mod` 2 ^ 32)) (b `mod` 2 ^ 32))
      by lia.
  - intros Hl. by apply IH2, IH1.
Qed.

(** X16.  The sequence number a scan of the dump directory returns depends
    on the regular files alone, and not on the order in which the directory
    iterator yields them: a scan of a directory with the same regular files
    returns the same number. *)
Theorem maxDumpFileSeq_order_independent `{StringUtils} (dumpPath : string)
  (storeId : nat) (dir dir' : DumpDir) (n : Z) :
  dd_create_throws dir' = dd_create_throws dir →
  dd_iter_throws dir' = dd_iter_throws dir →
  filter (λ p, is_regular_file p = true) (dd_entries dir) ≡ₚ
    filter (λ p, is_regular_file p = true) (dd_entries dir') →
  maxDumpFileSeq dumpPath storeId dir = Returns (Value n) →
  maxDumpFileSeq dumpPath storeId dir' = Returns (Value n).
Proof.
  unfold maxDumpFileSeq. intros -> -> Hperm.
  destruct (dd_create_throws dir); [done|].
  rewrite <- (maxDumpFileSeqLoop_regular _ (dd_entries dir)),
    <- (maxDumpFileSeqLoop_regular _ (dd_entries dir')).
  by apply maxDumpFileSeqLoop_perm.
Qed.

Lemma maxDumpFileSeq_order_independent_witness :
  @maxDumpFileSeq decimalStringUtils "dump" 0 exDumpDirShuffled =
    Returns (Value 5).
Proof.
  apply (@maxDumpFileSeq_order_independent decimalStringUtils "dump" 0%nat
           exDumpDir exDumpDirShuffled 5).
  - reflexivity.
  - reflexivity.
  - vm_compute. apply Permutation_swap.
  - vm_compute. reflexivity.
Defined.

(** X17.  After a [startup] that returns OK the recycle slot of a store has
    [fileSeq = UINT32_MAX] exactly when the store is not open: a scan of
    the dump directory never returns that number. *)
Theorem startup_fileSeq_sentinel `{TransactionIds} `{StringUtils}
  (e : StartupEnv) (sv : ServerEntry) (m' : ReplManager) (i : nat) :
  startupEnvSound e →
  startup e (newReplManager sv) = Returns (OK, m') →
  (i < getKVStoreCount sv)%nat →
  ∃ rb, _logRecycStatus m' !! i = Some rb ∧
        0 ≤ fileSeq rb ≤ UINT32_MAX ∧
        (fileSeq rb = UINT32_MAX ↔ sb_getDb (su_store e i) = Value false).
Proof.
  intros Hsound Hrun Hi.
  destruct (startup_stores e sv m' i Hsound Hrun Hi)
    as (o & q & meta & F1 & F2 & F3 & F4 & F5 & F6 & _).
  eexists. split; [exact F6|]. rewrite F1.
  assert (Hseq : fileSeq (bootRecycle (su_store e i) o q) = q).
  { unfold bootRecycle. destruct o; [|done].
    by destruct (sb_getMinBinlog (su_store e i)) as [[b ts]|]. }
  rewrite Hseq. destruct o.
  - apply maxDumpFileSeq_below in F2. split; [lia|].
    split; [lia|done].
  - subst q. split; [by unfold UINT32_MAX|]. by split.
Qed.

Lemma startup_fileSeq_sentinel_witness :
  ∃ rb, _logRecycStatus exBooted !! 1%nat = Some rb ∧
        0 ≤ fileSeq rb ≤ UINT32_MAX.
Proof.
  destruct (@startup_fileSeq_sentinel upstreamTxnIds decimalStringUtils
              exStartupEnv exFreshServer exBooted 1%nat)
    as (rb & Hrb & Hrange & _).
  - exact exStartupEnv_sound.
  - exact exBooted_startup.
  - simpl. lia.
  - exists rb. split; [exact Hrb|exact Hrange].
Defined.

(** ** Recycle runs *)

Lemma sameButFile_refl i m : sameButFile i m m.
Proof. unfold sameButFile. split_and!; try done. intros rb Hrb. by exists rb. Qed.

Lemma sameButFile_trans i m1 m2 m3 :
  sameButFile i m1 m2 → sameButFile i m2 m3 → sameButFile i m1 m3.
Proof.
  intros (A1 & A2 & A3 & A4 & A5 & A6 & A7 & A8 & A9 & A10)
         (B1 & B2 & B3 & B4 & B5 & B6 & B7 & B8 & B9 & B10).
  unfold sameButFile. split_and!; try congruence.
  - intros j Hj. by rewrite B9, A9.
  - intros rb Hrb. destruct (A10 _ Hrb) as (rb1 & Hrb1 & ? & ? & ? & ?).
    destruct (B10 _ Hrb1) as (rb2 & Hrb2 & ? & ? & ? & ?).
    exists rb2. split_and!; congruence.
Qed.

Lemma exRecycleEnv_archiveOps b : archiveOps (exRecycleEnv b).
Proof. intros i m. split; [|intros w t]; apply sameButFile_refl. Qed.

(** The ways out of the body of a run. *)
Lemma recycleBinlogBody_exit e i m x :
  archiveOps e →
  recycleBinlogBody e i m = Returns x →
  sameButFile i m (x_mgr x) ∧
  (x_nextSched x = re_now e + milliseconds (re_nextSchedInterval e) ∨
   x_nextSched x = re_now_defer e + seconds 1) ∧
  (re_getDb e ≠ Value false → x_hasError x = true ∨ is_Some (x_start x)) ∧
  (x_hasError x = false → ∀ s, x_start x = Some s →
     ∃ call r, x_truncate x = Some call ∧
       re_truncateBinlogV2 e (tc_start call) (tc_end call) (tc_sink call) =
         Value r ∧
       s = newStart r).
Proof.
  intros Hops. unfold recycleBinlogBody. intros H.
  destruct (re_getDb e) as [[|]|]; simpl in H.
  - apply bind_Returns in H as (meta & _ & H).
    apply bind_Returns in H as (pushes & _ & H).
    apply bind_Returns in H as (rb & _ & H).
    apply bind_Returns in H as (fulls & _ & H).
    destruct (re_createTransaction e).
    2:{ injection H as <-. simpl.
        split_and!; [apply sameButFile_refl|by left|by left|done]. }
    assert (Hsink : sameButFile i m
              (if recycleSaveLogs meta pushes then re_getCurBinlogFs e i m
               else (None, m)).2).
    { destruct (recycleSaveLogs meta pushes); [apply Hops|].
      apply sameButFile_refl. }
    destruct (if recycleSaveLogs meta pushes then re_getCurBinlogFs e i m
              else (None, m)) as [sink m1].
    simpl in Hsink.
    destruct (recycleSaveLogs meta pushes && negb (bool_decide (is_Some sink))).
    { injection H as <-. simpl. split_and!; [done|by left|by left|done]. }
    destruct (re_truncateBinlogV2 e _ _ _) as [r|] eqn:Etr.
    2:{ injection H as <-. simpl. split_and!; [done|by left|by left|done]. }
    assert (Hm2 : sameButFile i m
              (re_updateCurBinlogFs e i (written r) (tb_timestamp r) m1)).
    { eapply sameButFile_trans; [exact Hsink|]. apply Hops. }
    destruct (re_commit e); injection H as <-; simpl.
    + split_and!; [done|by left|by right; eexists|].
      intros _ s [= <-]. by eexists _, r.
    + split_and!; [done|by left|by left|done].
  - injection H as <-. simpl.
    split_and!; [apply sameButFile_refl|by right|done|done].
  - injection H as <-. simpl.
    split_and!; [apply sameButFile_refl|by left|by left|done].
Qed.

Lemma recycleBinlogBody_Returns e i m :
  sized m → (i < getKVStoreCount (_svr m))%nat →
  ∃ x, recycleBinlogBody e i m = Returns x.
Proof.
  intros (L1 & L2 & L3 & L4 & L5) Hi. unfold recycleBinlogBody.
  destruct (re_getDb e) as [[|]|]; simpl; [|by eexists..].
  destruct (vec_at_lt (_syncMeta m) i) as (meta & _ & ->); [lia|].
  destruct (vec_at_lt (_pushStatus m) i) as (pushes & _ & ->); [lia|].
  destruct (vec_at_lt (_logRecycStatus m) i) as (rb & _ & ->); [lia|].
  destruct (vec_at_lt (_fullPushStatus m) i) as (fulls & _ & ->); [lia|].
  simpl.
  destruct (re_createTransaction e); [|by eexists].
  destruct (if recycleSaveLogs meta pushes then re_getCurBinlogFs e i m
            else (None, m)) as [sink m1].
  destruct (recycleSaveLogs meta pushes && negb (bool_decide (is_Some sink)));
    [by eexists|].
  destruct (re_truncateBinlogV2 e _ _ _); [|by eexists].
  destruct (re_commit e); by eexists.
Qed.

(** What the guard makes of the slot of a run that returns. *)
Lemma recycleBinlog_slot `{TransactionIds} e i m m' rb :
  archiveOps e →
  _logRecycStatus m !! i = Some rb →
  recycleBinlog e i m = Returns m' →
  ∃ x rb1 first,
    recycleBinlogBody e i m = Returns x ∧
    _logRecycStatus (x_mgr x) !! i = Some rb1 ∧
    rb_isRunning rb = true ∧
    (if x_hasError x then first = TXNID_UNINITED else x_start x = Some first) ∧
    m' = with_logRecycStatus
           (<[i := mkRecycleBinlogStatus false
                     (if bool_decide (rb_nextSchedTime rb < x_nextSched x)
                      then x_nextSched x else rb_nextSchedTime rb)
                     first (lastFlushBinlogId rb) (fileSeq rb1)
                     (timestamp rb1) (fileCreateTime rb1) (fileSize rb1)
                     (fs rb1)]> (_logRecycStatus (x_mgr x)))
           (x_mgr x).
Proof.
  intros Hops Hrb. unfold recycleBinlog. intros Hrun.
  apply bind_Returns in Hrun as (x & Hx & Hg).
  destruct (recycleBinlogBody_exit e i m x Hops Hx)
    as ((_ & _ & _ & _ & _ & _ & _ & _ & _ & Hslot) & _).
  destruct (Hslot _ Hrb) as (rb1 & Hrb1 & R1 & R2 & R3 & R4).
  destruct (rb_isRunning rb1) eqn:Erun.
  2:{ unfold recycleGuard in Hg. apply vec_at_Returns in Hrb1.
      rewrite Hrb1 in Hg. simpl in Hg. by rewrite Erun in Hg. }
  rewrite (recycleGuard_spec i x rb1 Hrb1 Erun) in Hg.
  exists x, rb1. rewrite <- R1, <- R2, <- R4.
  destruct (x_hasError x).
  - injection Hg as <-. by exists TXNID_UNINITED.
  - destruct (x_start x) as [s|]; [|done]. injection Hg as <-. by exists s.
Qed.

Lemma recycleBinlog_has_slot `{TransactionIds} e i m m' :
  archiveOps e →
  recycleBinlog e i m = Returns m' →
  ∃ rb, _logRecycStatus m !! i = Some rb.
Proof.
  intros Hops. unfold recycleBinlog. intros Hrun.
  apply bind_Returns in Hrun as (x & Hx & Hg).
  destruct (recycleBinlogBody_exit e i m x Hops Hx)
    as ((_ & _ & _ & _ & _ & _ & _ & Hlen & _) & _).
  unfold recycleGuard in Hg.
  apply bind_Returns in Hg as (rb1 & Hrb1%vec_at_Returns & _).
  apply lookup_lt_is_Some_2. apply lookup_lt_Some in Hrb1. lia.
Qed.

Lemma recycleBinlog_frame_slot `{TransactionIds} e i m m' rb :
  archiveOps e →
  _logRecycStatus m !! i = Some rb →
  recycleBinlog e i m = Returns m' →
  _isRunning m' = _isRunning m ∧ _svr m' = _svr m ∧
  _syncMeta m' = _syncMeta m ∧ _syncStatus m' = _syncStatus m ∧
  _pushStatus m' = _pushStatus m ∧ _fullPushStatus m' = _fullPushStatus m ∧
  _connectMasterTimeoutMs m' = _connectMasterTimeoutMs m ∧
  length (_logRecycStatus m') = length (_logRecycStatus m) ∧
  (∀ j, j ≠ i → _logRecycStatus m' !! j = _logRecycStatus m !! j) ∧
  ∃ x rb',
    recycleBinlogBody e i m = Returns x ∧
    _logRecycStatus m' !! i = Some rb' ∧
    rb_isRunning rb = true ∧ rb_isRunning rb' = false ∧
    rb_nextSchedTime rb' = Z.max (rb_nextSchedTime rb) (x_nextSched x) ∧
    lastFlushBinlogId rb' = lastFlushBinlogId rb ∧
    (if x_hasError x then firstBinlogId rb' = TXNID_UNINITED
     else x_start x = Some (firstBinlogId rb')).
Proof.
  intros Hops Hrb Hrun.
  destruct (recycleBinlog_slot e i m m' rb Hops Hrb Hrun)
    as (x & rb1 & first & Hx & Hrb1 & Hflag & Hfirst & ->).
  destruct (recycleBinlogBody_exit e i m x Hops Hx)
    as ((A1 & A2 & A3 & A4 & A5 & A6 & A7 & A8 & A9 & _) & _).
  simpl. rewrite length_insert.
  split_and!; try done.
  - intros j Hj. by rewrite list_lookup_insert_ne, A9.
  - eexists x, _. split; [done|].
    rewrite list_lookup_insert_eq by (by eapply lookup_lt_Some).
    split; [reflexivity|]. simpl. split_and!; try done.
    destruct (bool_decide (rb_nextSchedTime rb < x_nextSched x)) eqn:E;
      [apply bool_decide_eq_true in E|apply bool_decide_eq_false in E]; lia.
Qed.

(** X18.  A recycle job the controller hands out on a manager of the right
    sizes returns, unless the store is found not running: whatever the
    store and the archive answer, the slot is released and the manager
    keeps its sizes. *)
Theorem recycle_job_returns `{TransactionIds} (e : RecycleEnv)
  (now now' : Z) (m : ReplManager) (s : Sched) (i : nat) :
  sized m → archiveOps e →
  controlPass now now' m = Returns s →
  LogRecycle i ∈ sc_jobs s →
  re_getDb e ≠ Value false →
  ∃ m', recycleBinlog e i (sc_mgr s) = Returns m' ∧ sized m' ∧
        ∃ rb', _logRecycStatus m' !! i = Some rb' ∧ rb_isRunning rb' = false.
Proof.
  intros Hsized Hops Hpass Hjob Hdb.
  destruct (controlPass_running _ _ _ _ _ Hpass Hjob) as (rb & Hrb & Hflag).
  assert (Hsized' : sized (sc_mgr s)).
  { eapply keeps_sized; [|exact Hsized]. by eapply keeps_controlPass. }
  assert (Hi : (i < getKVStoreCount (_svr (sc_mgr s)))%nat).
  { destruct Hsized' as (_ & _ & _ & _ & <-). by eapply lookup_lt_Some. }
  destruct (recycleBinlogBody_Returns e i _ Hsized' Hi) as [x Hx].
  destruct (recycleBinlogBody_exit e i _ x Hops Hx)
    as ((A1 & A2 & A3 & A4 & A5 & A6 & A7 & A8 & A9 & A10) & _ & Hstart & _).
  destruct (A10 _ Hrb) as (rb1 & Hrb1 & R1 & _).
  assert (Hg := recycleGuard_spec i x rb1 Hrb1 ltac:(congruence)).
  assert (Hsome : ∃ first,
            (if x_hasError x then Some TXNID_UNINITED else x_start x) =
              Some first).
  { destruct (x_hasError x); [by eexists|].
    destruct (Hstart Hdb) as [|[first ->]]; [done|by eexists]. }
  destruct Hsome as [first Hfirst]. rewrite Hfirst in Hg.
  eexists. split; [unfold recycleBinlog; rewrite Hx; exact Hg|].
  split.
  - destruct Hsized' as (L1 & L2 & L3 & L4 & L5).
    unfold sized. simpl. rewrite length_insert.
    rewrite A2, A3, A4, A5, A6, A8. by split_and!.
  - simpl. rewrite list_lookup_insert_eq by (by eapply lookup_lt_Some).
    by eexists.
Qed.

Lemma recycle_job_returns_witness :
  ∃ s m',
    controlPass 6000 6000 exBooted = Returns s ∧
    @recycleBinlog upstreamTxnIds (exRecycleEnv true) 0 (sc_mgr s) =
      Returns m' ∧
    sized m'.
Proof.
  destruct (@recycle_job_returns upstreamTxnIds (exRecycleEnv true) 6000 6000
              exBooted
              (mkSched true exDispatched [LogRecycle 0; LogRecycle 1]) 0%nat)
    as (m' & Hrun & Hsized & _).
  - unfold sized. simpl. by split_and!.
  - apply exRecycleEnv_archiveOps.
  - vm_compute. reflexivity.
  - apply list_elem_of_here.
  - discriminate.
  - eexists _, m'. split_and!; [vm_compute; reflexivity|exact Hrun|exact Hsized].
Defined.

(** How the answers of the collaborators settle the exit of the body. *)
Lemma recycleBinlogBody_verdict e i m x :
  recycleBinlogBody e i m = Returns x →
  (re_getDb e = Value false → x_hasError x = false ∧ x_start x = None) ∧
  (re_getDb e ≠ Value false →
     ((∃ s, re_getDb e = Error s ∨ re_createTransaction e = Error s ∨
            re_commit e = Error s) → x_hasError x = true) ∧
     (x_truncate x = None → x_hasError x = true) ∧
     (∀ c s, x_truncate x = Some c →
        re_truncateBinlogV2 e (tc_start c) (tc_end c) (tc_sink c) = Error s →
        x_hasError x = true) ∧
     (∀ c r, x_truncate x = Some c →
        re_truncateBinlogV2 e (tc_start c) (tc_end c) (tc_sink c) = Value r →
        re_commit e = Value () →
        x_hasError x = false ∧ x_start x = Some (newStart r))).
Proof.
  unfold recycleBinlogBody. intros H.
  destruct (re_getDb e) as [[|]|sdb] eqn:Edb; simpl in H.
  - split; [done|]. intros _.
    apply bind_Returns in H as (meta & _ & H).
    apply bind_Returns in H as (pushes & _ & H).
    apply bind_Returns in H as (rb & _ & H).
    apply bind_Returns in H as (fulls & _ & H).
    destruct (re_createTransaction e) as [[]|stx] eqn:Etx.
    2:{ injection H as <-. simpl. by split_and!. }
    destruct (if recycleSaveLogs meta pushes then re_getCurBinlogFs e i m
              else (None, m)) as [sink m1].
    destruct (recycleSaveLogs meta pushes && negb (bool_decide (is_Some sink))).
    { injection H as <-. simpl. by split_and!. }
    destruct (re_truncateBinlogV2 e (firstBinlogId rb)
                (recycleEnd fulls pushes) sink) as [r|str] eqn:Etr.
    2:{ injection H as <-. simpl. split_and!; try done.
        intros c r [= <-]. simpl. congruence. }
    destruct (re_commit e) as [[]|sc] eqn:Ec; injection H as <-; simpl.
    + split_and!.
      * intros (s & [?|[?|?]]); done.
      * done.
      * intros c s [= <-]. simpl. congruence.
      * intros c r' [= <-]. simpl. intros Hr _. rewrite Etr in Hr.
        by injection Hr as <-.
    + split_and!; try done.
  - split; [|done]. intros _. by injection H as <-.
  - split; [done|]. intros _. injection H as <-. simpl. by split_and!.
Qed.

(** What a run that returns installs as [firstBinlogId], by the answers of
    the collaborators. *)
Lemma recycleBinlog_installs `{TransactionIds} e i m m' :
  archiveOps e →
  recycleBinlog e i m = Returns m' →
  ∃ x rb',
    recycleBinlogBody e i m = Returns x ∧
    _logRecycStatus m' !! i = Some rb' ∧
    ((∃ s, re_getDb e = Error s ∨ re_createTransaction e = Error s ∨
           re_commit e = Error s) → firstBinlogId rb' = TXNID_UNINITED) ∧
    (x_truncate x = None → firstBinlogId rb' = TXNID_UNINITED) ∧
    (∀ c s, x_truncate x = Some c →
       re_truncateBinlogV2 e (tc_start c) (tc_end c) (tc_sink c) = Error s →
       firstBinlogId rb' = TXNID_UNINITED) ∧
    (∀ c r, x_truncate x = Some c →
       re_truncateBinlogV2 e (tc_start c) (tc_end c) (tc_sink c) = Value r →
       re_commit e = Value () →
       firstBinlogId rb' = newStart r).
Proof.
  intros Hops Hrun.
  destruct (recycleBinlog_has_slot e i m m' Hops Hrun) as [rb Hrb].
  destruct (recycleBinlog_frame_slot e i m m' rb Hops Hrb Hrun)
    as (_ & _ & _ & _ & _ & _ & _ & _ & _ & x & rb' & Hx & Hrb' &
        _ & _ & _ & _ & Hfirst).
  destruct (recycleBinlogBody_verdict e i m x Hx) as [Hidle Hverdict].
  assert (Hdb : re_getDb e ≠ Value false).
  { intros Hdb. destruct (Hidle Hdb) as [Herr Hstart].
    rewrite Herr in Hfirst. congruence. }
  destruct (Hverdict Hdb) as (V1 & V2 & V3 & V4).
  exists x, rb'. split_and!; try done.
  - intros Hfail. by rewrite (V1 Hfail) in Hfirst.
  - intros Hnone. by rewrite (V2 Hnone) in Hfirst.
  - intros c s Hc Hs. by rewrite (V3 c s Hc Hs) in Hfirst.
  - intros c r Hc Hr Hcommit. destruct (V4 c r Hc Hr Hcommit) as [Herr Hstart].
    rewrite Herr in Hfirst. congruence.
Qed.

(** X19.  A recycle run that returns touches nothing but the recycle slot
    of its store: it releases the slot, never moves [nextSchedTime]
    backwards (a slot at the maximum stays there) and keeps
    [lastFlushBinlogId].  It installs [TXNID_UNINITED] as [firstBinlogId]
    as soon as a collaborator fails (the look-up of the store, the
    transaction, the truncation it issued, the commit, or no truncation
    issued at all), and the [newStart] of the truncation it issued when
    the truncation and the commit succeed. *)
Theorem recycleBinlog_frame `{TransactionIds} (e : RecycleEnv) (i : nat)
  (m m' : ReplManager) :
  archiveOps e →
  recycleBinlog e i m = Returns m' →
  _isRunning m' = _isRunning m ∧ _svr m' = _svr m ∧
  _syncMeta m' = _syncMeta m ∧ _syncStatus m' = _syncStatus m ∧
  _pushStatus m' = _pushStatus m ∧ _fullPushStatus m' = _fullPushStatus m ∧
  _connectMasterTimeoutMs m' = _connectMasterTimeoutMs m ∧
  (∀ j, j ≠ i → _logRecycStatus m' !! j = _logRecycStatus m !! j) ∧
  ∃ rb rb' x,
    _logRecycStatus m !! i = Some rb ∧ _logRecycStatus m' !! i = Some rb' ∧
    recycleBinlogBody e i m = Returns x ∧
    rb_isRunning rb = true ∧ rb_isRunning rb' = false ∧
    rb_nextSchedTime rb ≤ rb_nextSchedTime rb' ∧
    lastFlushBinlogId rb' = lastFlushBinlogId rb ∧
    ((∃ s, re_getDb e = Error s ∨ re_createTransaction e = Error s ∨
           re_commit e = Error s) → firstBinlogId rb' = TXNID_UNINITED) ∧
    (x_truncate x = None → firstBinlogId rb' = TXNID_UNINITED) ∧
    (∀ c s, x_truncate x = Some c →
       re_truncateBinlogV2 e (tc_start c) (tc_end c) (tc_sink c) = Error s →
       firstBinlogId rb' = TXNID_UNINITED) ∧
    (∀ c r, x_truncate x = Some c →
       re_truncateBinlogV2 e (tc_start c) (tc_end c) (tc_sink c) = Value r →
       re_commit e = Value () →
       firstBinlogId rb' = newStart r).
Proof.
  intros Hops Hrun.
  destruct (recycleBinlog_has_slot e i m m' Hops Hrun) as [rb Hrb].
  destruct (recycleBinlog_frame_slot e i m m' rb Hops Hrb Hrun)
    as (A1 & A2 & A3 & A4 & A5 & A6 & A7 & _ & A9 & x & rb' & Hx & Hrb' &
        F1 & F2 & F3 & F4 & _).
  destruct (recycleBinlog_installs e i m m' Hops Hrun)
    as (x' & rb'' & Hx' & Hrb'' & V1 & V2 & V3 & V4).
  rewrite Hx in Hx'. injection Hx' as <-.
  rewrite Hrb' in Hrb''. injection Hrb'' as <-.
  split_and!; try done.
  exists rb, rb', x. split_and!; try done. lia.
Qed.

Lemma recycleBinlog_frame_witness :
  ∃ m' rb',
    @recycleBinlog upstreamTxnIds (exRecycleEnv true) 0 exManager =
      Returns m' ∧
    _logRecycStatus m' !! 0%nat = Some rb' ∧
    firstBinlogId rb' = 140.
Proof.
  destruct (@recycleBinlog_frame upstreamTxnIds (exRecycleEnv true) 0%nat
              exManager
              (with_logRecycStatus
                 (<[0%nat := mkRecycleBinlogStatus false
                               (seconds 1000 + milliseconds 10000) 140 0 3 0 0
                               0 None]> (_logRecycStatus exManager))
                 exManager))
    as (_ & _ & _ & _ & _ & _ & _ & _ & rb & rb' & x & _ & Hrb' & Hx & _ &
        _ & _ & _ & _ & _ & _ & Hcommit).
  - apply exRecycleEnv_archiveOps.
  - vm_compute. reflexivity.
  - eexists _, rb'. split_and!; [vm_compute; reflexivity|exact Hrb'|].
    assert (Hx' : recycleBinlogBody (exRecycleEnv true) 0 exManager =
      Returns (mkRecycleExit (seconds 1000 + milliseconds 10000) (Some 140)
                 false (Some false) (Some (mkTruncateCall 100 140 None))
                 exManager)) by (vm_compute; reflexivity).
    rewrite Hx' in Hx. injection Hx as <-.
    apply (Hcommit (mkTruncateCall 100 140 None)
             (mkTruncateBinlogResult 140 0 0)); reflexivity.
Defined.

Lemma recycleBinlog_disabled `{TransactionIds} e i m m' :
  archiveOps e → clockInRange e →
  disabled m i → recycleBinlog e i m = Returns m' → disabled m' i.
Proof.
  intros Hops [Hc1 Hc2] (Hs & Hr & Hp) Hrun.
  destruct (recycleBinlog_has_slot e i m m' Hops Hrun) as [rb Hrb].
  destruct (recycleBinlog_frame_slot e i m m' rb Hops Hrb Hrun)
    as (_ & _ & _ & A4 & A5 & _ & _ & _ & _ & x & rb' & Hx & Hrb' &
        _ & _ & F3 & _).
  destruct (recycleBinlogBody_exit e i m x Hops Hx) as (_ & Hnext & _).
  unfold disabled. rewrite A4, A5. split_and!; [done| |done].
  intros rb2 Hrb2. rewrite Hrb' in Hrb2. injection Hrb2 as <-.
  rewrite F3, (Hr _ Hrb). destruct Hnext as [-> | ->]; lia.
Qed.

Lemma exRecycleEnv_clockInRange b : clockInRange (exRecycleEnv b).
Proof. split; vm_compute; discriminate. Qed.

(** X20.  A recycle run that is in flight when [stopStore] disables its
    store does not enable it again: when the run returns, every slot of the
    store still has [nextSchedTime] at the maximum. *)
Theorem recycle_after_stopStore `{TransactionIds} (e : RecycleEnv) (i : nat)
  (m m1 m2 : ReplManager) (st : Status) :
  archiveOps e → clockInRange e →
  stopStore m i = Returns (st, m1) →
  recycleBinlog e i m1 = Returns m2 →
  disabled m2 i.
Proof.
  intros Hops Hclock Hstop Hrun.
  eapply recycleBinlog_disabled; [done..| |exact Hrun].
  by eapply stopStore_disables.
Qed.

Lemma recycle_after_stopStore_witness :
  ∃ m1 m2,
    stopStore exManager 0 = Returns (OK, m1) ∧
    @recycleBinlog upstreamTxnIds (exRecycleEnv true) 0 m1 = Returns m2 ∧
    disabled m2 0.
Proof.
  eexists _, _.
  split_and!; [vm_compute; reflexivity|vm_compute; reflexivity|].
  eapply (@recycle_after_stopStore upstreamTxnIds (exRecycleEnv true) 0%nat
            exManager _ _ OK).
  - apply exRecycleEnv_archiveOps.
  - apply exRecycleEnv_clockInRange.
  - vm_compute. reflexivity.
  - vm_compute. reflexivity.
Defined.

(** X21.  Every run needs a dispatch of its own: on the manager a recycle
    run has returned, a second run for the same store that reaches the
    guard trips its [INVARIANT], the slot being no longer marked
    running. *)
Theorem recycleBinlog_needs_dispatch `{TransactionIds} (e1 e2 : RecycleEnv)
  (i : nat) (m m1 : ReplManager) (x : RecycleExit) :
  archiveOps e1 → archiveOps e2 →
  recycleBinlog e1 i m = Returns m1 →
  recycleBinlogBody e2 i m1 = Returns x →
  recycleBinlog e2 i m1 = Fatal.
Proof.
  intros Hops1 Hops2 Hrun1 Hx.
  destruct (recycleBinlog_has_slot e1 i m m1 Hops1 Hrun1) as [rb Hrb].
  destruct (recycleBinlog_frame_slot e1 i m m1 rb Hops1 Hrb Hrun1)
    as (_ & _ & _ & _ & _ & _ & _ & _ & _ & x1 & rb' & _ & Hrb' &
        _ & Hidle & _).
  destruct (recycleBinlogBody_exit e2 i m1 x Hops2 Hx)
    as ((_ & _ & _ & _ & _ & _ & _ & _ & _ & Hslot) & _).
  destruct (Hslot _ Hrb') as (rb2 & Hrb2 & R1 & _).
  unfold recycleBinlog. rewrite Hx. simpl. unfold recycleGuard.
  apply vec_at_Returns in Hrb2. rewrite Hrb2. simpl.
  by rewrite R1, Hidle.
Qed.

Lemma recycleBinlog_needs_dispatch_witness :
  ∃ m1,
    @recycleBinlog upstreamTxnIds (exRecycleEnv true) 0 exManager =
      Returns m1 ∧
    @recycleBinlog upstreamTxnIds (exRecycleEnv true) 0 m1 = Fatal.
Proof.
  eexists. split; [vm_compute; reflexivity|].
  eapply (@recycleBinlog_needs_dispatch upstreamTxnIds (exRecycleEnv true)
            (exRecycleEnv true) 0%nat exManager).
  - apply exRecycleEnv_archiveOps.
  - apply exRecycleEnv_archiveOps.
  - vm_compute. reflexivity.
  - vm_compute. reflexivity.
Defined.

(** ** Flushes and resets *)

Lemma resetRecycleState_Returns `{TransactionIds} i m m' :
  resetRecycleState i m = Returns m' →
  ∃ v, _logRecycStatus m !! i = Some v ∧
    m' = with_logRecycStatus
           (<[i := mkRecycleBinlogStatus (rb_isRunning v) (rb_nextSchedTime v)
                     MIN_VALID_TXNID TXNID_UNINITED (fileSeq v) 0
                     (fileCreateTime v) (fileSize v) (fs v)]>
              (_logRecycStatus m)) m.
Proof.
  unfold resetRecycleState. intros Hrun.
  apply bind_Returns in Hrun as (v & Hv%vec_at_Returns & Hrun).
  apply bind_Returns in Hrun as (l & [-> _]%vec_set_Returns & Hrun).
  injection Hrun as <-. by exists v.
Qed.

Lemma onFlush_Returns i binlogid m m' :
  onFlush i binlogid m = Returns m' →
  ∃ v, _logRecycStatus m !! i = Some v ∧
    m' = with_logRecycStatus
           (<[i := mkRecycleBinlogStatus (rb_isRunning v) (rb_nextSchedTime v)
                     (firstBinlogId v) binlogid (fileSeq v) (timestamp v)
                     (fileCreateTime v) (fileSize v) (fs v)]>
              (_logRecycStatus m)) m.
Proof.
  unfold onFlush. intros Hrun.
  apply bind_Returns in Hrun as (v & Hv%vec_at_Returns & Hrun).
  apply bind_Returns in Hrun as (l & [-> _]%vec_set_Returns & Hrun).
  injection Hrun as <-. by exists v.
Qed.

Lemma sameSchedule_insert i v v' m :
  _logRecycStatus m !! i = Some v →
  rb_isRunning v' = rb_isRunning v →
  rb_nextSchedTime v' = rb_nextSchedTime v →
  sameSchedule m (with_logRecycStatus (<[i := v']> (_logRecycStatus m)) m).
Proof.
  intros Hv Hflag Hnext. unfold sameSchedule. simpl.
  rewrite length_insert. split_and!; try done.
  intros j rb Hrb. destruct (decide (j = i)) as [->|Hne].
  - rewrite list_lookup_insert_eq by (by eapply lookup_lt_Some).
    exists v'. split; [done|]. split; congruence.
  - rewrite list_lookup_insert_ne by done. by exists rb.
Qed.

Lemma omap_ext_in {A B} (f g : A → option B) (l : list A) :
  (∀ x, x ∈ l → f x = g x) → omap f l = omap g l.
Proof.
  induction l as [|x l IH]; intros Hfg; [done|].
  change (omap f (x :: l)) with
    (match f x with Some y => y :: omap f l | None => omap f l end).
  change (omap g (x :: l)) with
    (match g x with Some y => y :: omap g l | None => omap g l end).
  rewrite (Hfg x) by apply list_elem_of_here.
  rewrite IH; [done|]. intros y Hy. apply Hfg. by apply list_elem_of_further.
Qed.

Lemma sameSchedule_jobs now now1 now2 m m' s s' :
  sameSchedule m m' →
  controlPass now now1 m = Returns s →
  controlPass now now2 m' = Returns s' →
  sc_jobs s' = sc_jobs s.
Proof.
  intros (E1 & E2 & E3 & E4 & E5 & E6) Hs Hs'.
  destruct (controlPass_spec _ _ _ _ Hs)
    as (_ & _ & _ & _ & _ & _ & _ & _ & _ & -> & _).
  destruct (controlPass_spec _ _ _ _ Hs')
    as (_ & _ & _ & _ & _ & _ & _ & _ & _ & -> & _).
  rewrite E2, E3, E5. f_equal; [|f_equal].
  - apply omap_ext_fun. intros i. unfold slaveJob. by rewrite E1, E2.
  - apply list_bind_ext; [|done]. intros i. unfold masterJobs. by rewrite E3.
  - apply omap_ext_in. intros i Hi%elem_of_seq. unfold recycleJob.
    destruct (lookup_lt_is_Some_2 (_logRecycStatus m) i) as [rb Hrb]; [lia|].
    destruct (E6 _ _ Hrb) as (rb' & -> & -> & ->). by rewrite Hrb.
Qed.

Lemma elsewhere_firstBinlogId `{TransactionIds} i m m' :
  elsewhere i m m' →
  ∀ rb, _logRecycStatus m !! i = Some rb →
    ∃ rb', _logRecycStatus m' !! i = Some rb' ∧
           firstBinlogId rb' = firstBinlogId rb.
Proof.
  induction 1 as
    [m
    |now now' m s m' Hpass _ IH
    |j binlogid m m1 m' Hflush _ IH
    |j st m m1 m' Hstop _ IH
    |j m m1 m' Hne Hreset _ IH
    |e j m m1 m' Hne Hops Hrun _ IH]; intros rb Hrb.
  - by exists rb.
  - destruct (controlPass_spec _ _ _ _ Hpass)
      as (_ & _ & _ & _ & _ & _ & _ & _ & Hrec & _).
    destruct (IH _ (Hrec _ _ Hrb)) as (rb' & Hrb' & Hfirst).
    exists rb'. split; [done|]. rewrite Hfirst.
    by destruct (recycleJob now m i).
  - apply onFlush_Returns in Hflush as (v & Hv & ->).
    destruct (decide (j = i)) as [->|Hne].
    + rewrite Hv in Hrb. injection Hrb as <-.
      destruct (IH (mkRecycleBinlogStatus (rb_isRunning v) (rb_nextSchedTime v)
                      (firstBinlogId v) binlogid (fileSeq v) (timestamp v)
                      (fileCreateTime v) (fileSize v) (fs v)))
        as (rb' & Hrb' & Hfirst).
      { simpl. apply list_lookup_insert_eq. by eapply lookup_lt_Some. }
      by exists rb'.
    + apply IH. simpl. by rewrite list_lookup_insert_ne.
  - unfold stopStore in Hstop.
    apply bind_Returns in Hstop as ([] & _ & Hstop).
    apply bind_Returns in Hstop as (sp & _ & Hstop).
    apply bind_Returns in Hstop as (l1 & _ & Hstop).
    apply bind_Returns in Hstop as (v & Hv%vec_at_Returns & Hstop).
    apply bind_Returns in Hstop as (l2 & [-> _]%vec_set_Returns & Hstop).
    apply bind_Returns in Hstop as (ps & _ & Hstop).
    apply bind_Returns in Hstop as (l3 & _ & Hstop).
    apply bind_Returns in Hstop as (l4 & _ & Hstop).
    injection Hstop as _ <-. simpl in Hv.
    destruct (decide (j = i)) as [->|Hne].
    + rewrite Hv in Hrb. injection Hrb as <-.
      destruct (IH (rb_with_nextSchedTime time_point_max v))
        as (rb' & Hrb' & Hfirst).
      { simpl. apply list_lookup_insert_eq. by eapply lookup_lt_Some. }
      by exists rb'.
    + apply IH. simpl. by rewrite list_lookup_insert_ne.
  - apply resetRecycleState_Returns in Hreset as (v & Hv & ->).
    apply IH. simpl. by rewrite list_lookup_insert_ne.
  - destruct (recycleBinlog_has_slot e j m m1 Hops Hrun) as [rbj Hrbj].
    destruct (recycleBinlog_frame_slot e j m m1 rbj Hops Hrbj Hrun)
      as (_ & _ & _ & _ & _ & _ & _ & _ & Hother & _).
    apply IH. rewrite Hother; [done|]. by intros ->.
Qed.

(** X22.  The next run resumes where the last one ended.  Take a recycle
    run of store [i] that has returned, then passes of the controller,
    flushes, stops, and resets and runs of the other stores, and then a
    run of store [i] that issues a truncation.  That truncation starts at
    the [newStart] the store answered to the truncation the last run
    issued if that truncation and the commit succeeded, and at
    [TXNID_UNINITED] if a collaborator of the last run failed or the run
    issued no truncation. *)
Theorem recycle_resumes `{TransactionIds} (e1 e2 : RecycleEnv) (i : nat)
  (m m1 m2 : ReplManager) (x2 : RecycleExit) (call : TruncateCall) :
  archiveOps e1 →
  recycleBinlog e1 i m = Returns m1 →
  elsewhere i m1 m2 →
  recycleBinlogBody e2 i m2 = Returns x2 →
  x_truncate x2 = Some call →
  ∃ x1, recycleBinlogBody e1 i m = Returns x1 ∧
    ((∃ s, re_getDb e1 = Error s ∨ re_createTransaction e1 = Error s ∨
           re_commit e1 = Error s) → tc_start call = TXNID_UNINITED) ∧
    (x_truncate x1 = None → tc_start call = TXNID_UNINITED) ∧
    (∀ c s, x_truncate x1 = Some c →
       re_truncateBinlogV2 e1 (tc_start c) (tc_end c) (tc_sink c) = Error s →
       tc_start call = TXNID_UNINITED) ∧
    (∀ c r, x_truncate x1 = Some c →
       re_truncateBinlogV2 e1 (tc_start c) (tc_end c) (tc_sink c) = Value r →
       re_commit e1 = Value () →
       tc_start call = newStart r).
Proof.
  intros Hops Hrun1 Hbetween Hx2 Hcall.
  destruct (recycleBinlog_installs e1 i m m1 Hops Hrun1)
    as (x1 & rb1 & Hx1 & Hrb1 & V1 & V2 & V3 & V4).
  destruct (elsewhere_firstBinlogId i m1 m2 Hbetween rb1 Hrb1)
    as (rb2 & Hrb2 & Hsame).
  destruct (recycleBinlogBody_truncate e2 i _ x2 call Hx2 Hcall)
    as (meta & rb2' & fulls & pushes & _ & Hrb2' & _ & _ & _ & Hstart & _).
  rewrite Hrb2 in Hrb2'. injection Hrb2' as <-.
  rewrite Hstart, Hsame. by exists x1.
Qed.

Lemma recycle_resumes_witness :
  ∃ x1,
    recycleBinlogBody (exRecycleEnv true) 0 exDispatched = Returns x1 ∧
    tc_start (mkTruncateCall UINT64_MAX UINT64_MAX (Some 1%nat)) = UINT64_MAX.
Proof.
  destruct (@recycle_resumes upstreamTxnIds (exRecycleEnv true)
              (exRecycleEnv true) 0%nat exDispatched
              (with_logRecycStatus
                 [mkRecycleBinlogStatus false
                    (seconds 1000 + milliseconds 10000) UINT64_MAX 0 5 0 5000
                    0 None;
                  mkRecycleBinlogStatus true 5000 1 0 0 0 5000 0 None]
                 exDispatched)
              (with_logRecycStatus
                 [mkRecycleBinlogStatus true
                    (seconds 1000 + milliseconds 10000) UINT64_MAX 0 5 0 5000
                    0 None;
                  mkRecycleBinlogStatus true 5000 1 0 0 0 5000 0 None]
                 exDispatched)
              (mkRecycleExit (seconds 1000 + milliseconds 10000)
                 (Some UINT64_MAX) false (Some true)
                 (Some (mkTruncateCall UINT64_MAX UINT64_MAX (Some 1%nat)))
                 (with_logRecycStatus
                    [mkRecycleBinlogStatus true
                       (seconds 1000 + milliseconds 10000) UINT64_MAX 0 5 0
                       5000 0 None;
                     mkRecycleBinlogStatus true 5000 1 0 0 0 5000 0 None]
                    exDispatched))
              (mkTruncateCall UINT64_MAX UINT64_MAX (Some 1%nat)))
    as (x1 & Hx1 & _ & _ & _ & Hcommit).
  - apply exRecycleEnv_archiveOps.
  - vm_compute. reflexivity.
  - eapply (elsewhere_pass 0 (seconds 2000) (seconds 2000) _
              (mkSched true _ [LogRecycle 0]));
      [vm_compute; reflexivity|apply elsewhere_none].
  - vm_compute. reflexivity.
  - reflexivity.
  - exists x1. split; [exact Hx1|]. reflexivity.
Defined.

(** X23.  After [resetRecycleState(i)], when no run of store [i] is in
    flight, the truncation of the next recycle run of the store starts at
    [MIN_VALID_TXNID], whatever the slot held before and whatever passes
    of the controller, flushes, stops, and resets and runs of the other
    stores fall in between. *)
Theorem reset_then_recycle `{TransactionIds} (e : RecycleEnv) (i : nat)
  (m m1 m2 : ReplManager) (x : RecycleExit) (call : TruncateCall) :
  resetRecycleState i m = Returns m1 →
  elsewhere i m1 m2 →
  recycleBinlogBody e i m2 = Returns x →
  x_truncate x = Some call →
  tc_start call = MIN_VALID_TXNID.
Proof.
  intros Hreset Hbetween Hx Hcall.
  apply resetRecycleState_Returns in Hreset as (v & Hv & ->).
  destruct (elsewhere_firstBinlogId i _ m2 Hbetween
              (mkRecycleBinlogStatus (rb_isRunning v) (rb_nextSchedTime v)
                 MIN_VALID_TXNID TXNID_UNINITED (fileSeq v) 0
                 (fileCreateTime v) (fileSize v) (fs v)))
    as (rb2 & Hrb2 & Hsame).
  { simpl. apply list_lookup_insert_eq. by eapply lookup_lt_Some. }
  destruct (recycleBinlogBody_truncate e i _ x call Hx Hcall)
    as (meta & rb & fulls & pushes & _ & Hrb & _ & _ & _ & Hstart & _).
  rewrite Hrb2 in Hrb. injection Hrb as <-. by rewrite Hstart, Hsame.
Qed.

Lemma reset_then_recycle_witness :
  tc_start (mkTruncateCall 1 140 None) = @MIN_VALID_TXNID upstreamTxnIds.
Proof.
  eapply (@reset_then_recycle upstreamTxnIds (exRecycleEnv true) 0%nat
            exManager _ _ _ (mkTruncateCall 1 140 None)).
  - vm_compute. reflexivity.
  - eapply (elsewhere_flush 0 1 77); [vm_compute; reflexivity|].
    apply elsewhere_none.
  - vm_compute. reflexivity.
  - vm_compute. reflexivity.
Defined.



(** X24.  Neither [onFlush] nor [resetRecycleState] changes what the
    controller does: a pass after either of them hands out the jobs it
    would have handed out before. *)
Theorem flush_reset_keep_schedule `{TransactionIds} (i : nat) (binlogid : Z)
  (m m1 : ReplManager) (now now1 now2 : Z) (s s1 : Sched) :
  resetRecycleState i m = Returns m1 ∨ onFlush i binlogid m = Returns m1 →
  controlPass now now1 m = Returns s →
  controlPass now now2 m1 = Returns s1 →
  sc_jobs s1 = sc_jobs s.
Proof.
  intros Hm1 Hs Hs1.
  eapply (sameSchedule_jobs now now1 now2 m m1); [|done..].
  destruct Hm1 as [Hr|Hf].
  - apply resetRecycleState_Returns in Hr as (v & Hv & ->).
    by eapply sameSchedule_insert.
  - apply onFlush_Returns in Hf as (v & Hv & ->).
    by eapply sameSchedule_insert.
Qed.

Lemma flush_reset_keep_schedule_witness :
  ∃ m1 s s1,
    onFlush 0 77 exBooted = Returns m1 ∧
    controlPass 6000 6000 exBooted = Returns s ∧
    controlPass 6000 6000 m1 = Returns s1 ∧
    sc_jobs s1 = sc_jobs s.
Proof.
  eexists _, _, _.
  split_and!; [vm_compute; reflexivity..|].
  eapply (@flush_reset_keep_schedule upstreamTxnIds 0%nat 77 exBooted _ 6000
            6000 6000).
  - right. vm_compute. reflexivity.
  - vm_compute. reflexivity.
  - vm_compute. reflexivity.
Defined.

(** ** The replication report *)

Lemma infoMasters_spec e m n :
  ∀ k r r',
    sourceUpTo m k r →
    infoMasters e m (seq k n) r = Returns r' →
    sourceUpTo m (k + n) r' ∧
    connected_slaves r' = connected_slaves r ∧
    slave_repl_offset r' = slave_repl_offset r.
Proof.
  induction n as [|n IH]; intros k r r' HP Hrun.
  - simpl in Hrun. injection Hrun as <-. by rewrite Nat.add_0_r.
  - simpl in Hrun.
    apply bind_Returns in Hrun as (st & _ & Hrun).
    apply bind_Returns in Hrun as (meta & Hmeta%vec_at_Returns & Hrun).
    replace (k + S n)%nat with (S k + n)%nat by lia.
    destruct HP as (P1 & P2 & P3).
    destruct (decide (syncFromHost meta ≠ "")) as [Hsrc|Hnone].
    + rewrite (bool_decide_eq_true_2 _ Hsrc) in Hrun.
      apply (IH (S k) _ r') in Hrun; [exact Hrun|].
      unfold sourceUpTo. simpl. split_and!.
      * by left.
      * split; [|done]. intros _. exists k, meta. split_and!; [lia|done..].
      * intros _. exists k, meta. split_and!; try done; [lia|].
        intros j meta' Hj. lia.
    + rewrite (bool_decide_eq_false_2 _ Hnone) in Hrun.
      apply (IH (S k) _ r'); [|exact Hrun]. unfold sourceUpTo. split_and!.
      * done.
      * split.
        -- intros Hr. apply P2 in Hr as (i & meta' & Hi & Hm & Hs).
           exists i, meta'. split_and!; [lia|done..].
        -- intros (i & meta' & Hi & Hm & Hs). apply P2.
           destruct (decide (i = k)) as [->|Hne].
           { rewrite Hmeta in Hm. injection Hm as <-. done. }
           exists i, meta'. split_and!; [lia|done..].
      * intros Hr.
        destruct (P3 Hr) as (i & meta0 & Hi & Hm & Hs & Hh & Hp & Hlast).
        exists i, meta0. split_and!; try done; [lia|].
        intros j meta' Hj Hm'.
        destruct (decide (j = k)) as [->|Hne].
        -- rewrite Hmeta in Hm'. injection Hm' as <-.
           by destruct (decide (syncFromHost meta = "")).
        -- apply (Hlast j); [lia|done].
Qed.

Lemma infoSlaves_spec e m n :
  ∀ k r r',
    infoSlaves e m (seq k n) r = Returns (Some r') →
    role r' = role r ∧ master_host r' = master_host r ∧
    master_port r' = master_port r ∧
    master_last_io_seconds_ago r' = master_last_io_seconds_ago r ∧
    (∀ i, (k ≤ i < k + n)%nat → ∃ h, ie_getDb e i = Value h) ∧
    (n = 0%nat → connected_slaves r' = connected_slaves r) ∧
    (n ≠ 0%nat →
       ∃ pushes, _pushStatus m !! (k + n - 1)%nat = Some pushes ∧
                 connected_slaves r' = toInt32 (Z.of_nat (size pushes))).
Proof.
  induction n as [|n IH]; intros k r r' Hrun.
  - simpl in Hrun. injection Hrun as <-. split_and!; try done.
    intros i Hi. lia.
  - simpl in Hrun. destruct (ie_getDb e k) as [h|] eqn:Edb; [|done].
    apply bind_Returns in Hrun as (pushes & Hp%vec_at_Returns & Hrun).
    destruct (IH _ _ _ Hrun) as (R1 & R2 & R3 & R4 & R5 & R6 & R7).
    simpl in *. split_and!; try done.
    + intros i Hi. destruct (decide (i = k)) as [->|Hne]; [by eexists|].
      apply R5. lia.
    + intros _. destruct n as [|n].
      * exists pushes. replace (k + 1 - 1)%nat with k by lia.
        split; [done|]. by rewrite R6.
      * destruct R7 as (ps & Hps & Hc); [done|].
        exists ps. split; [|done].
        by replace (k + S (S n) - 1)%nat with (S (k + S n) - 1)%nat by lia.
Qed.

Lemma infoSlaves_None e m idx :
  ∀ r, infoSlaves e m idx r = Returns None →
       ∃ i s, i ∈ idx ∧ ie_getDb e i = Error s.
Proof.
  induction idx as [|i idx IH]; intros r Hrun; [done|].
  simpl in Hrun. destruct (ie_getDb e i) as [h|s] eqn:Edb.
  - apply bind_Returns in Hrun as (pushes & _ & Hrun).
    destruct (IH _ Hrun) as (j & s & Hj & Hs).
    exists j, s. split; [by apply list_elem_of_further|done].
  - exists i, s. split; [apply list_elem_of_here|done].
Qed.

Lemma getReplInfoLocals_spec e m r :
  getReplInfoLocals e m = Returns (Some r) →
  let n := getKVStoreCount (_svr m) in
  (role r = "slave" ∨ role r = "master") ∧
  (role r = "slave" ↔
     ∃ i meta, (i < n)%nat ∧ _syncMeta m !! i = Some meta ∧
               syncFromHost meta ≠ "") ∧
  (role r = "slave" →
     ∃ i meta, (i < n)%nat ∧ _syncMeta m !! i = Some meta ∧
       syncFromHost meta ≠ "" ∧
       master_host r = syncFromHost meta ∧
       master_port r = syncFromPort meta ∧
       ∀ j meta', (i < j < n)%nat → _syncMeta m !! j = Some meta' →
                  syncFromHost meta' = "") ∧
  (∀ i, (i < n)%nat → ∃ h, ie_getDb e i = Value h) ∧
  (n = 0%nat → connected_slaves r = 0) ∧
  (n ≠ 0%nat →
     ∃ pushes, _pushStatus m !! (n - 1)%nat = Some pushes ∧
               connected_slaves r = toInt32 (Z.of_nat (size pushes))).
Proof.
  intros Hrun n. unfold getReplInfoLocals in Hrun. fold n in Hrun.
  apply bind_Returns in Hrun as (r1 & Hr1 & Hr2).
  destruct (infoMasters_spec e m n 0%nat (mkReplInfo "master" "" 0 0 0 (-1)) r1)
    as ((P1 & P2 & P3) & P4 & P5); [|exact Hr1|].
  { unfold sourceUpTo. simpl. split_and!; try done.
    - by right.
    - split; [done|]. intros (i & ? & ? & _). lia. }
  destruct (infoSlaves_spec e m n 0%nat _ _ Hr2)
    as (R1 & R2 & R3 & R4 & R5 & R6 & R7).
  simpl in R5, R7. rewrite R1, R2, R3.
  split_and!; try done.
  - intros i Hi. apply R5. lia.
  - intros Hn. by rewrite R6, P4.
Qed.

Lemma append_empty_r (s : string) : s +:+ "" = s.
Proof.
  induction s as [|c s IH]; [done|].
  change (String c s +:+ "") with (String c (s +:+ "")). by rewrite IH.
Qed.

(** The text of a report that is written, by the locals. *)
Lemma getReplInfoSimple_text e m text :
  getReplInfoSimple e m = Returns text → text ≠ "" →
  ∃ r, getReplInfoLocals e m = Returns (Some r) ∧
    text =
      infoLine "role" (role r) +:+
      infoLine "master_repl_offset" "0" +:+
      infoLine "connected_slaves" (pretty (connected_slaves r)) +:+
      (if bool_decide (role r = "slave") then
         infoLine "master_host" (master_host r) +:+
         infoLine "master_port" (pretty (master_port r)) +:+
         infoLine "master_link_status" "up" +:+
         infoLine "master_last_io_seconds_ago"
           (pretty (master_last_io_seconds_ago r)) +:+
         infoLine "master_sync_in_progress" "0" +:+
         infoLine "slave_repl_offset" (pretty (slave_repl_offset r)) +:+
         infoLine "slave_priority" "-1" +:+
         infoLine "slave_read_only" "1"
       else "").
Proof.
  unfold getReplInfoSimple. intros Hrun Hne.
  apply bind_Returns in Hrun as (locals & Hlocals & Hrun).
  destruct locals as [r|]; injection Hrun as <-; [|done].
  exists r. split; [done|]. reflexivity.
Qed.

(** X25.  The text [getReplInfoSimple] writes, when it writes one, begins
    with the lines [role], [master_repl_offset:0] and [connected_slaves].
    When no store of the node has a source the role is [master] and these
    three lines are the whole text.  When some store has a source the role
    is [slave] and the lines [master_host] and [master_port] that follow
    give the source of the last store that has one. *)
Theorem getReplInfo_role (e : InfoEnv) (m : ReplManager) (text : string) :
  getReplInfoSimple e m = Returns text → text ≠ "" →
  let n := getKVStoreCount (_svr m) in
  ((∀ i meta, (i < n)%nat → _syncMeta m !! i = Some meta →
      syncFromHost meta = "") →
   ∃ c : Z,
     text =
       infoLine "role" "master" +:+
       infoLine "master_repl_offset" "0" +:+
       infoLine "connected_slaves" (pretty c)) ∧
  (∀ i meta, (i < n)%nat → _syncMeta m !! i = Some meta →
     syncFromHost meta ≠ "" →
     (∀ j meta', (i < j < n)%nat → _syncMeta m !! j = Some meta' →
        syncFromHost meta' = "") →
     ∃ c ago offset : Z,
       text =
         infoLine "role" "slave" +:+
         infoLine "master_repl_offset" "0" +:+
         infoLine "connected_slaves" (pretty c) +:+
         infoLine "master_host" (syncFromHost meta) +:+
         infoLine "master_port" (pretty (syncFromPort meta)) +:+
         infoLine "master_link_status" "up" +:+
         infoLine "master_last_io_seconds_ago" (pretty ago) +:+
         infoLine "master_sync_in_progress" "0" +:+
         infoLine "slave_repl_offset" (pretty offset) +:+
         infoLine "slave_priority" "-1" +:+
         infoLine "slave_read_only" "1").
Proof.
  intros Hrun Hne n.
  destruct (getReplInfoSimple_text e m text Hrun Hne) as (r & Hlocals & ->).
  destruct (getReplInfoLocals_spec e m r Hlocals) as (P1 & P2 & P3 & _).
  fold n in P2, P3. split.
  - intros Hnone. exists (connected_slaves r).
    assert (Hrole : role r = "master").
    { destruct P1 as [Hslave|]; [|done].
      apply P2 in Hslave as (i & meta & Hi & Hmeta & Hsrc).
      by destruct Hsrc; eapply Hnone. }
    rewrite Hrole. rewrite (bool_decide_eq_false_2 ("master" = "slave")) by done.
    by rewrite append_empty_r.
  - intros i meta Hi Hmeta Hsrc Hlast.
    assert (Hrole : role r = "slave") by (apply P2; by exists i, meta).
    destruct (P3 Hrole) as (i0 & meta0 & Hi0 & Hmeta0 & Hsrc0 & Hh & Hp & Hlast0).
    assert (i0 = i) as ->.
    { destruct (Nat.lt_trichotomy i0 i) as [Hlt|[->|Hgt]]; [|done|].
      - destruct Hsrc. apply (Hlast0 i); [lia|done].
      - destruct Hsrc0. apply (Hlast i0); [lia|done]. }
    rewrite Hmeta in Hmeta0. injection Hmeta0 as <-.
    exists (connected_slaves r), (master_last_io_seconds_ago r),
           (slave_repl_offset r).
    rewrite Hrole, Hh, Hp.
    by rewrite (bool_decide_eq_true_2 ("slave" = "slave")).
Qed.

Lemma getReplInfo_role_witness :
  ∃ (text : string) (c ago offset : Z),
    getReplInfoSimple exInfoEnv exManager = Returns text ∧
    text =
      infoLine "role" "slave" +:+
      infoLine "master_repl_offset" "0" +:+
      infoLine "connected_slaves" (pretty c) +:+
      infoLine "master_host" "10.0.0.5" +:+
      infoLine "master_port" (pretty 6379) +:+
      infoLine "master_link_status" "up" +:+
      infoLine "master_last_io_seconds_ago" (pretty ago) +:+
      infoLine "master_sync_in_progress" "0" +:+
      infoLine "slave_repl_offset" (pretty offset) +:+
      infoLine "slave_priority" "-1" +:+
      infoLine "slave_read_only" "1".
Proof.
  assert (Hrun : ∃ text, getReplInfoSimple exInfoEnv exManager = Returns text
                         ∧ text ≠ "")
    by (eexists; split; [vm_compute; reflexivity|discriminate]).
  destruct Hrun as (text & Hrun & Hne).
  destruct (getReplInfo_role exInfoEnv exManager text Hrun Hne) as [_ Hslave].
  destruct (Hslave 1%nat exMeta1) as (c & ago & offset & Htext).
  - simpl. lia.
  - reflexivity.
  - discriminate.
  - intros j meta' Hj. simpl in Hj. lia.
  - by exists text, c, ago, offset.
Defined.

(** X26.  In the text [getReplInfoSimple] writes, the line
    [connected_slaves] gives the number of subscribers of the last store of
    the node, as an [int32_t]: the subscribers of the other stores are not
    counted. *)
Theorem getReplInfo_connected_slaves (e : InfoEnv) (m : ReplManager)
  (text : string) :
  getReplInfoSimple e m = Returns text → text ≠ "" →
  getKVStoreCount (_svr m) ≠ 0%nat →
  ∃ pushes who rest,
    _pushStatus m !! (getKVStoreCount (_svr m) - 1)%nat = Some pushes ∧
    (who = "master" ∨ who = "slave") ∧
    text =
      infoLine "role" who +:+
      infoLine "master_repl_offset" "0" +:+
      infoLine "connected_slaves"
        (pretty (toInt32 (Z.of_nat (size pushes)))) +:+
      rest.
Proof.
  intros Hrun Hne Hn.
  destruct (getReplInfoSimple_text e m text Hrun Hne) as (r & Hlocals & ->).
  destruct (getReplInfoLocals_spec e m r Hlocals)
    as (P1 & _ & _ & _ & _ & Hlast).
  destruct (Hlast Hn) as (pushes & Hpushes & ->).
  eexists pushes, (role r), _. split; [done|]. split; [|reflexivity].
  destruct P1; auto.
Qed.

Lemma getReplInfo_connected_slaves_witness :
  ∃ text pushes0 who rest,
    getReplInfoSimple exInfoEnv exManager = Returns text ∧
    _pushStatus exManager !! 0%nat = Some pushes0 ∧ size pushes0 = 2%nat ∧
    text =
      infoLine "role" who +:+
      infoLine "master_repl_offset" "0" +:+
      infoLine "connected_slaves" "0" +:+
      rest.
Proof.
  assert (Hrun : ∃ text, getReplInfoSimple exInfoEnv exManager = Returns text
                         ∧ text ≠ "")
    by (eexists; split; [vm_compute; reflexivity|discriminate]).
  destruct Hrun as (text & Hrun & Hne).
  destruct (getReplInfo_connected_slaves exInfoEnv exManager text Hrun Hne)
    as (pushes & who & rest & Hp & _ & Htext).
  - discriminate.
  - vm_compute in Hp. injection Hp as <-.
    eexists text, _, who, rest.
    split_and!; [exact Hrun|reflexivity|vm_compute; reflexivity|exact Htext].
Defined.

Lemma infoLine_length key value :
  (0 < String.length (infoLine key value))%nat.
Proof. unfold infoLine. rewrite !length_append. simpl. lia. Qed.

(** X27.  A report writes nothing exactly when the segment manager fails
    to give one of the stores: no line is written for the stores it had
    given before. *)
Theorem getReplInfo_silent (e : InfoEnv) (m : ReplManager) (text : string) :
  getReplInfoSimple e m = Returns text →
  text = "" ↔
  ∃ i s, (i < getKVStoreCount (_svr m))%nat ∧ ie_getDb e i = Error s.
Proof.
  unfold getReplInfoSimple. intros Hrun.
  apply bind_Returns in Hrun as (locals & Hlocals & Hrun).
  destruct locals as [r|].
  - injection Hrun as <-. split.
    + intros Hempty. apply (f_equal String.length) in Hempty.
      rewrite length_append in Hempty.
      pose proof (infoLine_length "role" (role r)). simpl in Hempty. lia.
    + intros (i & s & Hi & Hs).
      destruct (getReplInfoLocals_spec e m r Hlocals)
        as (_ & _ & _ & Hdb & _).
      destruct (Hdb i Hi) as [h Hh]. congruence.
  - injection Hrun as <-. split; [|done]. intros _.
    unfold getReplInfoLocals in Hlocals.
    apply bind_Returns in Hlocals as (r1 & _ & Hr2).
    apply infoSlaves_None in Hr2 as (i & s & Hi%elem_of_seq & Hs).
    exists i, s. split; [lia|done].
Qed.

Lemma getReplInfo_silent_witness :
  getReplInfoSimple
    (mkInfoEnv 2000 (λ tp, tp `div` 1000000)
       (λ i, if bool_decide (i = 1%nat) then Error (mkStatus ERR_INTERNAL "")
             else Value 200))
    exManager = Returns "".
Proof.
  assert (Hrun : ∃ text,
    getReplInfoSimple
      (mkInfoEnv 2000 (λ tp, tp `div` 1000000)
         (λ i, if bool_decide (i = 1%nat) then Error (mkStatus ERR_INTERNAL "")
               else Value 200))
      exManager = Returns text) by (eexists; vm_compute; reflexivity).
  destruct Hrun as [text Hrun]. rewrite Hrun. f_equal.
  apply (getReplInfo_silent _ exManager text Hrun).
  exists 1%nat, (mkStatus ERR_INTERNAL ""). split; [simpl; lia|reflexivity].
Defined.

(** ** The collector of full pushes *)

Lemma recycleFullPushLoop_none now todo m :
  (∀ kv, kv ∈ todo → fullPushTimedOut now kv.2 = false) →
  recycleFullPushLoop now todo m = Returns m.
Proof.
  induction todo as [|kv todo IH]; intros Hno; [done|]. simpl.
  unfold recycleFullPushBody. rewrite (Hno kv) by apply list_elem_of_here.
  apply IH. intros kv' Hkv'. apply Hno. by apply list_elem_of_further.
Qed.

Lemma recycleFullPushStores_none now v :
  (∀ i fulls k e, v !! i = Some fulls → fulls !! k = Some e →
     fullPushTimedOut now e = false) →
  recycleFullPushStores now v = Returns v.
Proof.
  induction v as [|m v IH]; intros Hno; [done|]. simpl.
  rewrite recycleFullPushLoop_none.
  - simpl. rewrite IH; [done|]. intros i. apply (Hno (S i)).
  - intros [k e] Hke%elem_of_map_to_list. by apply (Hno 0%nat m k e).
Qed.

(** X28.  The collector of full pushes has a defined result exactly when no
    full push of the node succeeded more than 600 seconds before the clock
    reading, and it then leaves the manager as it is: it never returns a
    manager with an entry removed, and it never trips an invariant. *)
Theorem recycleFullPushStatus_defined (now : Z) (m : ReplManager) :
  ((∀ i fulls k e, _fullPushStatus m !! i = Some fulls → fulls !! k = Some e →
      fullPushTimedOut now e = false) →
   recycleFullPushStatus now m = Returns m) ∧
  ((∃ i fulls k e, _fullPushStatus m !! i = Some fulls ∧ fulls !! k = Some e ∧
      fullPushTimedOut now e = true) →
   recycleFullPushStatus now m = Undefined) ∧
  (∀ m', recycleFullPushStatus now m = Returns m' → m' = m).
Proof.
  split_and!.
  - intros Hno. unfold recycleFullPushStatus.
    rewrite recycleFullPushStores_none by done. simpl. by destruct m.
  - intros (i & fulls & k & e & Hi & Hk & He).
    by eapply recycleFullPushStatus_Undefined.
  - intros m' Hrun. by apply recycleFullPushStatus_Returns in Hrun as [-> _].
Qed.

Lemma recycleFullPushStatus_defined_witness :
  recycleFullPushStatus (seconds 500) exManager = Returns exManager.
Proof.
  apply (proj1 (recycleFullPushStatus_defined (seconds 500) exManager)).
  intros i fulls k e Hi Hk.
  destruct i as [|[|i]]; simpl in Hi; [| |done]; injection Hi as <-.
  - apply lookup_insert_Some in Hk as [[_ <-]|[_ Hk]]; [|done].
    vm_compute. reflexivity.
  - done.
Defined.

(** X29.  A pass of the controller has a defined result only when no full
    push is due for removal at the clock reading the collector takes. *)
Theorem controlPass_needs_no_timeout (now now' : Z) (m : ReplManager)
  (s : Sched) (i : nat) (fulls : gmap string MPovFullPushStatus)
  (k : string) (e : MPovFullPushStatus) :
  controlPass now now' m = Returns s →
  _fullPushStatus m !! i = Some fulls → fulls !! k = Some e →
  fullPushTimedOut now' e = false.
Proof.
  unfold controlPass. intros Hrun Hi Hk.
  apply bind_Returns in Hrun as (s1 & Hs1 & Hrun).
  apply bind_Returns in Hrun as (s2 & Hs2 & _).
  apply schedSlaveInLock_spec in Hs1 as (M1 & _).
  unfold schedMasterInLock in Hs2.
  apply bind_Returns in Hs2 as (m1 & [_ Hno]%recycleFullPushStatus_Returns & _).
  apply (Hno i fulls k e); [|done]. by rewrite M1.
Qed.

Lemma controlPass_needs_no_timeout_witness :
  fullPushTimedOut (seconds 500) (mkMPovFullPushStatus SUCESS 180 0 0) = false.
Proof.
  eapply (controlPass_needs_no_timeout (seconds 500) (seconds 500) exManager _
            0%nat _ "n1").
  - vm_compute. reflexivity.
  - reflexivity.
  - apply lookup_insert_eq.
Defined.

(** ** The controller and the workers *)

Lemma steady_refl m : steady m m.
Proof.
  split_and!; [apply keeps_refl|done|done|].
  intros i st Hst Hrun. by exists st.
Qed.

Lemma steady_trans m1 m2 m3 : steady m1 m2 → steady m2 m3 → steady m1 m3.
Proof.
  intros (K1 & C1 & M1 & F1) (K2 & C2 & M2 & F2).
  split_and!; [by eapply keeps_trans|by auto| |].
  - intros i meta' Hm Hst. apply M1; [|done]. by apply M2.
  - intros i st Hst Hrun. destruct (F1 _ _ Hst Hrun) as (st1 & Hst1 & Hrun1).
    by apply (F2 _ _ Hst1 Hrun1).
Qed.

(** A change that leaves the metas and the catalog alone and clears no
    flag of a slave slot is steady. *)
Lemma steady_frame m m' :
  keeps m m' →
  catalog (_svr m') = catalog (_svr m) →
  _syncMeta m' = _syncMeta m →
  (∀ i st, _syncStatus m !! i = Some st → sp_isRunning st = true →
     ∃ st', _syncStatus m' !! i = Some st' ∧ sp_isRunning st' = true) →
  steady m m'.
Proof.
  intros K Hcat Hmeta Hflags. split_and!; [done| | |done].
  - unfold catalogClean. by rewrite Hcat.
  - intros i meta'. by rewrite Hmeta.
Qed.

Lemma steady_same_slots m m' :
  keeps m m' →
  catalog (_svr m') = catalog (_svr m) →
  _syncMeta m' = _syncMeta m →
  _syncStatus m' = _syncStatus m →
  steady m m'.
Proof.
  intros K Hcat Hmeta Hslots. apply steady_frame; try done.
  intros i st Hst Hrun. exists st. by rewrite Hslots.
Qed.

Lemma steady_with_connectMasterTimeoutMs t m :
  steady m (with_connectMasterTimeoutMs t m).
Proof.
  apply steady_same_slots; [apply keeps_with_connectMasterTimeoutMs|done..].
Qed.

Lemma steady_setStoreMode answer i mode m :
  steady m (setStoreMode answer i mode m).
Proof.
  apply steady_same_slots; [apply keeps_setStoreMode|..];
    unfold setStoreMode; by destruct (ok answer).
Qed.

Lemma steady_cancelSession sid m : steady m (cancelSession sid m).
Proof. apply steady_same_slots; [apply keeps_cancelSession|done..]. Qed.

Lemma steady_changeReplStateInLock answer meta persist m m' :
  replState meta ≠ REPL_TRANSFER →
  changeReplStateInLock answer meta persist m = Returns m' →
  steady m m'.
Proof.
  intros Hst Hrun.
  split; [by eapply keeps_changeReplStateInLock|].
  unfold changeReplStateInLock in Hrun.
  apply bind_Returns in Hrun as (m1 & Hm1 & Hrun).
  apply bind_Returns in Hrun as (l & [-> Hlt]%vec_set_Returns & Hrun).
  injection Hrun as <-. simpl.
  assert (Hm1' : _syncMeta m1 = _syncMeta m ∧ _syncStatus m1 = _syncStatus m ∧
                 (catalogClean (_svr m) → catalogClean (_svr m1))).
  { destruct persist; [|by injection Hm1 as <-].
    destruct (ok answer) eqn:Eok; [|done]. injection Hm1 as <-.
    unfold setStoreMeta. rewrite Eok. simpl. split_and!; try done.
    intros Hcat j meta' Hj. simpl in Hj.
    destruct (decide (meta_id meta = j)) as [<-|Hne].
    - rewrite lookup_insert_eq in Hj. by injection Hj as <-.
    - rewrite lookup_insert_ne in Hj by done. by eapply Hcat. }
  destruct Hm1' as (E1 & E2 & E3). split_and!.
  - done.
  - intros j meta' Hj Htr. rewrite <- E1.
    destruct (decide (meta_id meta = j)) as [<-|Hne].
    + rewrite list_lookup_insert_eq in Hj by done. injection Hj as <-. done.
    + by rewrite list_lookup_insert_ne in Hj.
  - intros j st Hj Hrun. exists st. by rewrite E2.
Qed.

Lemma governed_steady m m' : governed m → steady m m' → governed m'.
Proof.
  intros [Hs [Hown Hcat]] (K & C & M & F). split; [by eapply keeps_sized|].
  split; [|by apply C].
  intros i meta' Hmeta' Htr.
  destruct (Hown _ _ (M _ _ Hmeta' Htr) Htr) as (st & Hst & Hrun).
  by apply (F _ _ Hst Hrun).
Qed.

Lemma workerStep_governed i m m' : governed m → workerStep i m m' → governed m'.
Proof.
  intros [(L1 & L2 & L3 & L4 & L5) [Hown Hcat]]
         (_ & W1 & W2 & W3 & W4 & W5 & W6 & Wother & Wcat & Wown).
  split.
  - unfold sized. rewrite W1, W2, W3, W4, W5, W6. by split_and!.
  - split.
    + intros j meta' Hmeta' Htr.
      destruct (decide (j = i)) as [->|Hne].
      * destruct (lookup_lt_is_Some_2 (_syncStatus m') i) as [st' Hst'].
        { apply lookup_lt_Some in Hmeta'. lia. }
        exists st'. split; [done|]. by eapply Wown.
      * destruct (Wother j Hne) as (E1 & E2 & _).
        rewrite E1 in Hmeta'. rewrite E2. by eapply Hown.
    + intros j cm Hcm. destruct (decide (j = i)) as [->|Hne].
      * destruct (Wcat _ Hcm) as [|Hold]; [done|]. by eapply Hcat.
      * destruct (Wother j Hne) as (_ & _ & E3). rewrite E3 in Hcm.
        by eapply Hcat.
Qed.

Lemma workers_governed m m' : governed m → workers m m' → governed m'.
Proof.
  intros Hg Hw. induction Hw as [m|i m m1 m2 Hstep _ IH]; [done|].
  apply IH. by eapply workerStep_governed.
Qed.

Lemma quiet_orderly e : quiet e → orderly e.
Proof. intros Hq t m. rewrite Hq. apply workers_none. Qed.

Lemma governed_changeReplSource `{TransactionIds} e storeId ip port sid m st m' :
  orderly e → governed m →
  changeReplSource e storeId ip port sid m = Returns (st, m') →
  governed m'.
Proof.
  intros Hord Hg. unfold changeReplSource. intros Hrun.
  destruct (ce_getDb e) as [[isOpen isEmpty]|s].
  2:{ by injection Hrun as _ <-. }
  destruct isOpen; simpl in Hrun.
  2:{ by injection Hrun as _ <-. }
  destruct (bool_decide (ip ≠ "") && negb isEmpty).
  { by injection Hrun as _ <-. }
  apply bind_Returns in Hrun as ([s m1] & Hin & Hrun).
  assert (m' = m1) as ->.
  { destruct (ok s); simpl in Hrun; by injection Hrun as _ <-. }
  clear Hrun. unfold changeReplSourceInLock in Hin.
  set (m0 := if bool_decide (ip ≠ "")
             then with_connectMasterTimeoutMs 1000 m
             else with_connectMasterTimeoutMs 1 m) in Hin.
  assert (G0 : governed m0).
  { eapply governed_steady; [exact Hg|]. subst m0.
    destruct (bool_decide (ip ≠ "")); apply steady_with_connectMasterTimeoutMs. }
  apply bind_Returns in Hin as ([yielded m2] & Hwait & Hin).
  assert (G2 : governed m2).
  { unfold cv_wait_for in Hwait.
    apply bind_Returns in Hwait as (b & _ & Hwait).
    destruct b; [by injection Hwait as _ <-|].
    apply bind_Returns in Hwait as (b' & _ & Hwait).
    injection Hwait as _ <-. eapply workers_governed; [exact G0|apply Hord]. }
  clear Hwait G0 Hg. revert Hin. generalize m2 G2. clear m0 m2 G2 m.
  intros m Hg Hin.
  destruct yielded; simpl in Hin.
  2:{ by injection Hin as _ <-. }
  destruct (bool_decide (length (_syncMeta m) ≤ storeId)%nat).
  { by injection Hin as _ <-. }
  destruct (ce_getDbInLock e).
  2:{ by injection Hin as _ <-. }
  apply bind_Returns in Hin as (cur & Hcur & Hin).
  eapply governed_steady; [exact Hg|].
  destruct (bool_decide (ip ≠ "")).
  - destruct (bool_decide (syncFromHost cur ≠ "")).
    { injection Hin as _ <-. apply steady_refl. }
    destruct (ok (ce_setStoreMode e)); simpl in Hin.
    + apply bind_Returns in Hin as (m3 & Hm3 & Hin). injection Hin as _ <-.
      eapply steady_trans; [apply steady_with_connectMasterTimeoutMs|].
      eapply steady_trans; [apply steady_setStoreMode|].
      eapply steady_changeReplStateInLock; [|exact Hm3]. done.
    + injection Hin as _ <-.
      eapply steady_trans; [apply steady_with_connectMasterTimeoutMs|].
      apply steady_setStoreMode.
  - destruct (bool_decide (syncFromHost cur = "")).
    { injection Hin as _ <-. apply steady_refl. }
    apply bind_Returns in Hin as (sp & Hsp%vec_at_Returns & Hin).
    apply bind_Returns in Hin as (l & [-> Hlt]%vec_set_Returns & Hin).
    simpl in Hlt, Hsp.
    assert (K3 : steady m
      (setStoreMode (ce_setStoreMode e) storeId READ_WRITE
         (with_syncStatus (<[storeId := sp_with_sessionId UINT64_MAX sp]>
                             (_syncStatus m))
            (cancelSession (sp_sessionId sp)
               (with_connectMasterTimeoutMs 1 m))))).
    { eapply steady_trans; [apply steady_with_connectMasterTimeoutMs|].
      eapply steady_trans; [apply steady_cancelSession|].
      eapply steady_trans; [|apply steady_setStoreMode].
      apply steady_frame; try done.
      - apply keeps_with_syncStatus. by rewrite length_insert.
      - intros j st0 Hj Hrun. simpl in *.
        destruct (decide (j = storeId)) as [->|Hne].
        + rewrite list_lookup_insert_eq by done.
          rewrite Hsp in Hj. injection Hj as <-. by eexists.
        + rewrite list_lookup_insert_ne by done. by exists st0. }
    destruct (ok (ce_setStoreMode e)); simpl in Hin.
    + apply bind_Returns in Hin as ([] & _ & Hin).
      apply bind_Returns in Hin as (m3 & Hm3 & Hin). injection Hin as _ <-.
      eapply steady_trans; [exact K3|].
      eapply steady_changeReplStateInLock; [|exact Hm3]. done.
    + injection Hin as _ <-. exact K3.
Qed.

Lemma steady_stopStore m storeId st m' :
  stopStore m storeId = Returns (st, m') → steady m m'.
Proof.
  intros Hrun. pose proof (keeps_stopStore _ _ _ _ Hrun) as K.
  unfold stopStore in Hrun.
  apply bind_Returns in Hrun as ([] & _ & Hrun).
  apply bind_Returns in Hrun as (sp & Hsp%vec_at_Returns & Hrun).
  apply bind_Returns in Hrun as (l1 & [-> H1]%vec_set_Returns & Hrun).
  apply bind_Returns in Hrun as (rb & _ & Hrun).
  apply bind_Returns in Hrun as (l2 & [-> _]%vec_set_Returns & Hrun).
  apply bind_Returns in Hrun as (ps & _ & Hrun).
  apply bind_Returns in Hrun as (l3 & [-> _]%vec_set_Returns & Hrun).
  apply bind_Returns in Hrun as (l4 & [-> _]%vec_set_Returns & Hrun).
  injection Hrun as _ <-. apply steady_frame; try done. simpl.
  intros j st0 Hj Hflag. destruct (decide (j = storeId)) as [->|Hne].
  - rewrite list_lookup_insert_eq by done.
    rewrite Hsp in Hj. injection Hj as <-. by eexists.
  - rewrite list_lookup_insert_ne by done. by exists st0.
Qed.

Lemma steady_controlPass now now' m s :
  controlPass now now' m = Returns s → steady m (sc_mgr s).
Proof.
  intros Hrun. pose proof (keeps_controlPass _ _ _ _ Hrun) as K.
  destruct (controlPass_spec _ _ _ _ Hrun)
    as (_ & Hsvr & Hmeta & _ & _ & _ & Hsync & _).
  apply steady_frame; [done|by rewrite Hsvr|done|].
  intros j st Hj Hflag. rewrite (Hsync _ _ Hj).
  destruct (slaveJob now m j); by eexists.
Qed.

(** On a governed manager a turn of the slave scheduler returns, and
    leaves the manager governed. *)
Lemma schedSlaveStep_governed now i s :
  governed (sc_mgr s) →
  (i < getKVStoreCount (_svr (sc_mgr s)))%nat →
  ∃ s', schedSlaveStep now i s = Returns s' ∧ governed (sc_mgr s').
Proof.
  intros Hg Hi. pose proof Hg as [(L1 & L2 & _) [Hown _]].
  unfold schedSlaveStep.
  destruct (vec_at_lt (_syncStatus (sc_mgr s)) i) as (st & Hst & ->); [lia|].
  simpl. destruct (sp_isRunning st) eqn:Erun; [by eexists|].
  destruct (bool_decide (now < sp_nextSchedTime st)); [by eexists|].
  destruct (vec_at_lt (_syncMeta (sc_mgr s)) i) as (meta & Hmeta & ->); [lia|].
  simpl. destruct (bool_decide (replState meta = REPL_NONE)); [by eexists|].
  assert (Hset : governed
            (with_syncStatus (<[i := sp_with_isRunning true st]>
                                (_syncStatus (sc_mgr s))) (sc_mgr s))).
  { eapply governed_steady; [exact Hg|]. apply steady_frame; try done.
    - apply keeps_with_syncStatus. by rewrite length_insert.
    - intros j st0 Hj Hflag. simpl.
      destruct (decide (j = i)) as [->|Hne].
      + rewrite list_lookup_insert_eq by lia. by eexists.
      + rewrite list_lookup_insert_ne by done. by exists st0. }
  destruct (replState meta) eqn:Est.
  - by eexists.
  - rewrite vec_set_lt by lia. by eexists.
  - destruct (Hown _ _ Hmeta Est) as (st' & Hst' & Hrun').
    rewrite Hst in Hst'. injection Hst' as <-. congruence.
  - rewrite vec_set_lt by lia. by eexists.
Qed.

Lemma forIndices_inv body (P : Sched → Prop) idx :
  (∀ i s, i ∈ idx → P s → ∃ s', body i s = Returns s' ∧ P s') →
  ∀ s, P s → ∃ s', forIndices body idx s = Returns s' ∧ P s'.
Proof.
  induction idx as [|i idx IH]; intros Hbody s Hs; simpl.
  - by exists s.
  - destruct (Hbody i s) as (s1 & Hs1 & P1); [apply list_elem_of_here|done|].
    rewrite Hs1. simpl. apply IH; [|done].
    intros j s2 Hj. apply Hbody. by apply list_elem_of_further.
Qed.

Lemma schedSlaveInLock_governed now m :
  governed m → ∃ s, schedSlaveInLock now m = Returns s.
Proof.
  intros Hg. unfold schedSlaveInLock.
  set (n := getKVStoreCount (_svr m)).
  destruct (forIndices_inv (schedSlaveStep now)
              (λ s, governed (sc_mgr s) ∧ getKVStoreCount (_svr (sc_mgr s)) = n)
              (seq 0 (length (_syncStatus m)))) with (s := mkSched false m [])
    as (s' & Hs' & _).
  - intros i s Hi%elem_of_seq [G C].
    destruct Hg as [(_ & L2 & _) _]. fold n in L2.
    destruct (schedSlaveStep_governed now i s G) as (s' & Hs' & G'); [lia|].
    exists s'. split_and!; [done..|].
    apply schedSlaveStep_keeps in Hs' as (_ & _ & _ & _ & _ & -> & _). done.
  - by split.
  - by exists s'.
Qed.

Lemma reachableWithWorkers_governed `{TransactionIds} `{StringUtils} sv0 m :
  catalogClean sv0 → reachableWithWorkers sv0 m → governed m.
Proof.
  intros Hclean. induction 1 as
    [e m Hsound Hrun
    |e sv m m' Hreach IH Hcat Hsound Hrun
    |e storeId ip port sid m st m' Hreach IH Hord Hrun
    |storeId m st m' Hreach IH Hrun
    |now now' m s Hreach IH Hrun
    |i m m' Hreach IH Hstep].
  - destruct (startup_OK _ _ _ Hsound Hrun) as (Hs & _ & Hnt & _).
    split; [done|]. destruct (Hnt Hclean) as [Hmetas Hcat].
    split; [|done]. intros i meta Hmeta Htr. by destruct (Hmetas _ _ Hmeta).
  - destruct (startup_OK _ _ _ Hsound Hrun) as (Hs & _ & Hnt & _).
    split; [done|].
    destruct Hnt as [Hmetas Hcat'].
    { unfold catalogClean. rewrite Hcat. by destruct IH as [_ [_ ?]]. }
    split; [|done]. intros i meta Hmeta Htr. by destruct (Hmetas _ _ Hmeta).
  - by eapply governed_changeReplSource.
  - eapply governed_steady; [exact IH|]. by eapply steady_stopStore.
  - eapply governed_steady; [exact IH|]. by eapply steady_controlPass.
  - by eapply workerStep_governed.
Qed.

Lemma reachable_reachableWithWorkers `{TransactionIds} `{StringUtils} sv0 m :
  reachable sv0 m → reachableWithWorkers sv0 m.
Proof.
  induction 1 as
    [e m Hsound Hrun
    |e sv m m' Hreach IH Hcat Hsound Hrun
    |e storeId ip port sid m st m' Hreach IH Hquiet Hrun
    |storeId m st m' Hreach IH Hrun
    |now now' m s Hreach IH Hrun].
  - by eapply rw_startup.
  - by eapply rw_restart.
  - eapply rw_changeReplSource; [exact IH|by apply quiet_orderly|exact Hrun].
  - by eapply rw_stopStore.
  - by eapply rw_controlPass.
Qed.

(** C7, as stated, fails.  The catalog of the node holds a meta of store 0
    in [REPL_TRANSFER].  [startup] loads it as it is and returns OK; at the
    next pass the slave slot of store 0 is idle and due, the scheduler
    inspects the store, observes [REPL_TRANSFER] and takes the fatal
    branch. *)
Lemma controller_observes_persisted_transfer :
  ∃ m',
    @startup upstreamTxnIds decimalStringUtils exStartupEnv
      (newReplManager exDirtyServer) = Returns (OK, m') ∧
    @reachable upstreamTxnIds decimalStringUtils exDirtyServer m' ∧
    inspected 6000 m' 0 ∧
    (replState <$> _syncMeta m' !! 0%nat) = Some REPL_TRANSFER ∧
    controlPass 6000 6000 m' = Fatal.
Proof.
  eexists. split; [vm_compute; reflexivity|]. split_and!.
  - eapply reach_startup; [exact exStartupEnv_sound|vm_compute; reflexivity].
  - eexists _, _.
    split_and!; [reflexivity|reflexivity|reflexivity|simpl; lia|discriminate].
  - reflexivity.
  - vm_compute. reflexivity.
Qed.

(** C7, amended.  Take a node whose catalog holds no meta in
    [REPL_TRANSFER] at boot, and any manager reached through [startup],
    [changeReplSource], [stopStore], passes of the controller and steps of
    workers, where a worker changes the meta of the store whose slave slot
    it holds, never persists [REPL_TRANSFER] and never releases the slot
    while the meta is in [REPL_TRANSFER].  Every store whose slave slot the
    scheduler inspects (not running, due, not [REPL_NONE]) has a
    replication state other than [REPL_TRANSFER]; the slave scheduler
    returns, and a whole pass never takes the fatal branch. *)
Theorem controller_never_observes_transfer `{TransactionIds} `{StringUtils}
  (sv0 : ServerEntry) (m : ReplManager) (now now' : Z) :
  catalogClean sv0 →
  reachableWithWorkers sv0 m →
  (∀ i, inspected now m i →
     ∃ meta, _syncMeta m !! i = Some meta ∧
             replState meta ≠ REPL_TRANSFER ∧
             (replState meta = REPL_CONNECT ∨
              replState meta = REPL_CONNECTED)) ∧
  (∃ s, schedSlaveInLock now m = Returns s) ∧
  controlPass now now' m ≠ Fatal.
Proof.
  intros Hclean Hreach.
  pose proof (reachableWithWorkers_governed _ _ Hclean Hreach) as Hg.
  destruct (schedSlaveInLock_governed now m Hg) as (s & Hrun).
  split_and!.
  - intros i (st & meta & Hst & Hmeta & Hidle & _ & Hnone).
    exists meta. split; [done|].
    assert (Hnt : replState meta ≠ REPL_TRANSFER).
    { intros Htr. destruct Hg as [_ [Hown _]].
      destruct (Hown _ _ Hmeta Htr) as (st' & Hst' & Hrun').
      rewrite Hst in Hst'. injection Hst' as <-. congruence. }
    split; [done|]. destruct (replState meta); auto; done.
  - by exists s.
  - unfold controlPass. rewrite Hrun. simpl.
    unfold schedMasterInLock.
    destruct (recycleFullPushStatus now' (sc_mgr s)) as [m1| |] eqn:Egc; simpl.
    + pose proof (forIndices_not_Fatal (schedMasterStep now)
                    (seq 0 (length (_pushStatus m1)))
                    (schedMasterStep_not_Fatal now) (mkSched false m1 [])) as NF.
      destruct (forIndices (schedMasterStep now) _ _) as [s2| |]; simpl;
        [|done..].
      unfold schedRecycLogInLock.
      pose proof (forIndices_not_Fatal (schedRecycLogStep now)
                    (seq 0 (length (_logRecycStatus (sc_mgr s2))))
                    (schedRecycLogStep_not_Fatal now)
                    (mkSched false (sc_mgr s2) [])) as NF3.
      destruct (forIndices (schedRecycLogStep now) _ _); simpl; done.
    + unfold recycleFullPushStatus in Egc.
      pose proof (recycleFullPushStores_not_Fatal now'
                    (_fullPushStatus (sc_mgr s))).
      destruct (recycleFullPushStores now' _); simpl in Egc; done.
    + done.
Qed.

Lemma exTransferring_reachable :
  @reachableWithWorkers upstreamTxnIds decimalStringUtils exFreshServer
    exTransferring.
Proof.
  eapply (rw_worker exFreshServer 1 exReceiving).
  - change exReceiving
      with (sc_mgr (mkSched true exReceiving
                      [FullReceive 1; LogRecycle 0; LogRecycle 1])).
    eapply (rw_controlPass exFreshServer 6000 6000 exAttached).
    + apply reachable_reachableWithWorkers. exact exAttached_reachable.
    + vm_compute. reflexivity.
  - unfold workerStep. split_and!; try reflexivity.
    + by eexists.
    + intros j Hj. destruct j as [|[|j]]; by split_and!.
    + intros cm Hcm. by right.
    + intros meta' st' _ Hst' _. by injection Hst' as <-.
Qed.

Lemma controller_never_observes_transfer_witness :
  (replState <$> _syncMeta exTransferring !! 1%nat) = Some REPL_TRANSFER ∧
  (∃ s, schedSlaveInLock 9000 exTransferring = Returns s) ∧
  controlPass 9000 9000 exTransferring ≠ Fatal.
Proof.
  split; [reflexivity|].
  eapply (@controller_never_observes_transfer upstreamTxnIds
            decimalStringUtils exFreshServer exTransferring 9000 9000).
  - intros i meta Hi. simpl in Hi. rewrite lookup_empty in Hi. discriminate Hi.
  - exact exTransferring_reachable.
Defined.
